(** * ZeptoAnalysis ETL: a shallow embedding of [DataProcessor] and of the
    normalizer [ZeptoETLPipeline.transform_data].

    The Python code works on pandas DataFrames.  A DataFrame is modelled as
    an ordered list of named, typed columns of one common length; a numeric
    cell is a float, modelled as an exact rational extended with NaN and the
    two infinities (the rounding error of float64 and the sign of zero are
    not modelled); Python exceptions are modelled by an error result.

    Where the rounding of float64 can decide what the code does, a statement
    either leaves a margin for it or is made for whole numbers, on which the
    operations involved are exact in binary64; [Float64] has the binary64
    operations themselves, for the inputs on which rounding does decide. *)

From Stdlib Require Import ZArith QArith Qround Qabs Lqa Lia Sorted.
From Stdlib Require Floats.SpecFloat.
From stdpp Require Import base list strings pretty.

Local Open Scope Z_scope.
Local Open Scope Q_scope.
Local Open Scope nat_scope.
Local Open Scope list_scope.

(** ** Floats *)

Module Float.

Inductive fval : Type :=
  | NaN
  | NInf
  | PInf
  | Fin (q : Q).

Definition Qltb (x y : Q) : bool := negb (Qle_bool y x).
Definition Qzero (x : Q) : bool := Qeq_bool x 0.

Definition fneg (a : fval) : fval :=
  match a with
  | NaN => NaN
  | NInf => PInf
  | PInf => NInf
  | Fin q => Fin (- q)
  end.

Definition fadd (a b : fval) : fval :=
  match a, b with
  | NaN, _ | _, NaN => NaN
  | PInf, NInf | NInf, PInf => NaN
  | PInf, _ | _, PInf => PInf
  | NInf, _ | _, NInf => NInf
  | Fin x, Fin y => Fin (x + y)
  end.

Definition fsub (a b : fval) : fval := fadd a (fneg b).

(** The sign of a finite operand decides the product with an infinity;
    zero times an infinity is NaN. *)
Definition inf_times (pos : bool) (q : Q) : fval :=
  if Qzero q then NaN
  else if Qltb 0 q then (if pos then PInf else NInf)
  else (if pos then NInf else PInf).

Definition fmul (a b : fval) : fval :=
  match a, b with
  | NaN, _ | _, NaN => NaN
  | PInf, PInf | NInf, NInf => PInf
  | PInf, NInf | NInf, PInf => NInf
  | PInf, Fin q | Fin q, PInf => inf_times true q
  | NInf, Fin q | Fin q, NInf => inf_times false q
  | Fin x, Fin y => Fin (x * y)
  end.

(** Division follows IEEE 754: a non-zero number over zero is an infinity,
    zero over zero is NaN, a finite number over an infinity is zero. *)
Definition fdiv (a b : fval) : fval :=
  match a, b with
  | NaN, _ | _, NaN => NaN
  | (PInf | NInf), (PInf | NInf) => NaN
  | PInf, Fin q => if Qltb q 0 then NInf else PInf
  | NInf, Fin q => if Qltb q 0 then PInf else NInf
  | Fin _, (PInf | NInf) => Fin 0
  | Fin x, Fin y =>
      if Qzero y then
        (if Qzero x then NaN else if Qltb 0 x then PInf else NInf)
      else Fin (x / y)
  end.

Definition fabs (a : fval) : fval :=
  match a with
  | NaN => NaN
  | NInf | PInf => PInf
  | Fin q => Fin (Qabs q)
  end.

(** Comparisons: every comparison with NaN is false. *)
Definition flt (a b : fval) : bool :=
  match a, b with
  | NaN, _ | _, NaN => false
  | _, NInf => false
  | NInf, _ => true
  | PInf, _ => false
  | _, PInf => true
  | Fin x, Fin y => Qltb x y
  end.

Definition fgt (a b : fval) : bool := flt b a.

Definition fle (a b : fval) : bool :=
  match a, b with
  | NaN, _ | _, NaN => false
  | NInf, _ => true
  | _, PInf => true
  | _, NInf => false
  | PInf, _ => false
  | Fin x, Fin y => Qle_bool x y
  end.

Definition fge (a b : fval) : bool := fle b a.

Definition feq (a b : fval) : bool :=
  match a, b with
  | NInf, NInf | PInf, PInf => true
  | Fin x, Fin y => Qeq_bool x y
  | _, _ => false
  end.

Definition isnan (a : fval) : bool :=
  match a with NaN => true | _ => false end.

Definition isfinite (a : fval) : bool :=
  match a with Fin _ => true | _ => false end.

Definition of_Z (z : Z) : fval := Fin (inject_Z z).
Definition of_nat (n : nat) : fval := of_Z (Z.of_nat n).

(** Rounding to the nearest integer, ties to the even one ([numpy.round],
    Python's [round]). *)
Definition round_half_even (q : Q) : Z :=
  let f := Qfloor q in
  match ((q - inject_Z f) ?= (1 # 2))%Q with
  | Lt => f
  | Gt => (f + 1)%Z
  | Eq => if Z.even f then f else (f + 1)%Z
  end.

Definition fround (a : fval) : fval :=
  match a with
  | Fin q => of_Z (round_half_even q)
  | _ => a
  end.

(** [round(x, 2)]: rounding to two decimals. *)
Definition fround2 (a : fval) : fval :=
  match a with
  | Fin q => Fin (inject_Z (round_half_even (q * 100)) / 100)
  | _ => a
  end.

(** Truncation toward zero, the conversion of a finite float to an
    integer. *)
Definition Qtrunc (q : Q) : Z := Z.quot (Qnum q) (Zpos (Qden q)).

End Float.
Export Float.

(** ** Exceptions *)

Inductive exn : Type :=
  | KeyError
  | ValueError
  | TypeError
  | AttributeError
  | OverflowError.

Inductive result (A : Type) : Type :=
  | Ok (a : A)
  | Raise (e : exn).
Arguments Ok {A} a.
Arguments Raise {A} e.

Definition bind {A B : Type} (m : result A) (f : A -> result B) : result B :=
  match m with
  | Ok a => f a
  | Raise e => Raise e
  end.

Notation "x <- m ; k" := (bind m (fun x => k))
  (at level 20, m at level 100, k at level 200, only parsing).
Notation "' p <- m ; k" := (bind m (fun x => let 'p := x in k))
  (at level 20, p pattern, m at level 100, k at level 200, only parsing).

(** ** Series and frames *)

Module Frame.

(** A Python [str]: its sequence of Unicode code points. *)
Definition pystr : Type := list N.

Definition py (s : string) : pystr :=
  (fun a => N.of_nat (Ascii.nat_of_ascii a)) <$> String.list_ascii_of_string s.

(** A column with its dtype: numbers (int64 and float64, both held as
    floats), booleans or missing (bool, or object holding True, False and
    NaN), text or missing (object holding str and NaN). *)
Inductive series : Type :=
  | SNum (xs : list fval)
  | SBool (xs : list (option bool))
  | SStr (xs : list (option pystr)).

Definition slen (s : series) : nat :=
  match s with
  | SNum xs => length xs
  | SBool xs => length xs
  | SStr xs => length xs
  end.

(** The columns in their order, and the length of the index.  Column
    names are taken to be distinct, and the index to have distinct
    labels, so that label alignment is alignment by position. *)
Record frame : Type := mkFrame {
  nrows : nat;
  columns : list (string * series)
}.

Definition column_names (df : frame) : list string := fst <$> columns df.

(** [col in df.columns] *)
Definition has_col (name : string) (df : frame) : bool :=
  bool_decide (name ∈ column_names df).

Fixpoint assoc (name : string) (cs : list (string * series)) : option series :=
  match cs with
  | [] => None
  | (n, s) :: cs' => if String.eqb n name then Some s else assoc name cs'
  end.

(** [df[name]] *)
Definition get_col (name : string) (df : frame) : result series :=
  match assoc name (columns df) with
  | Some s => Ok s
  | None => Raise KeyError
  end.

Fixpoint assoc_set (name : string) (s : series) (cs : list (string * series))
  : list (string * series) :=
  match cs with
  | [] => [(name, s)]
  | (n, s0) :: cs' =>
      if String.eqb n name then (n, s) :: cs' else (n, s0) :: assoc_set name s cs'
  end.

(** [df[name] = s]: the column is replaced where it stands, a new column
    is added last. *)
Definition set_col (name : string) (s : series) (df : frame) : frame :=
  mkFrame (nrows df) (assoc_set name s (columns df)).

Definition assoc_del (name : string) (cs : list (string * series))
  : list (string * series) :=
  List.filter (fun c => negb (String.eqb (fst c) name)) cs.

(** [df.drop(name, axis=1)] *)
Definition drop (name : string) (df : frame) : result frame :=
  if has_col name df then Ok (mkFrame (nrows df) (assoc_del name (columns df)))
  else Raise KeyError.

(** A numeric operand.  An arithmetic operation or an ordering comparison
    on a text column raises TypeError; pandas coerces a boolean column in
    some of them, which is not modelled: it raises here too. *)
Definition as_num (s : series) : result (list fval) :=
  match s with
  | SNum xs => Ok xs
  | _ => Raise TypeError
  end.

Definition get_num (name : string) (df : frame) : result (list fval) :=
  s <- get_col name df; as_num s.

(** Boolean masks *)
Definition mask_any (m : list bool) : bool := existsb id m.
Definition mask_sum (m : list bool) : nat := length (List.filter id m).
Definition mask_not (m : list bool) : list bool := negb <$> m.
Definition mask_and (a b : list bool) : list bool := zip_with andb a b.
Definition mask_or (a b : list bool) : list bool := zip_with orb a b.

(** [xs[mask]] *)
Fixpoint select {A} (mask : list bool) (xs : list A) : list A :=
  match mask, xs with
  | b :: m, x :: r => if b then x :: select m r else select m r
  | _, _ => []
  end.

Definition select_series (mask : list bool) (s : series) : series :=
  match s with
  | SNum xs => SNum (select mask xs)
  | SBool xs => SBool (select mask xs)
  | SStr xs => SStr (select mask xs)
  end.

(** [df[mask]]: a new frame with the rows where the mask holds. *)
Definition select_rows (mask : list bool) (df : frame) : frame :=
  mkFrame (mask_sum mask) (prod_map id (select_series mask) <$> columns df).

(** [xs[mask] = vals], the values taken in order for the masked places. *)
Fixpoint scatter {A} (mask : list bool) (vals old : list A) : list A :=
  match mask, old with
  | true :: m, x :: o =>
      match vals with
      | v :: vs => v :: scatter m vs o
      | [] => x :: scatter m [] o
      end
  | false :: m, x :: o => x :: scatter m vals o
  | _, _ => old
  end.

(** [xs[mask] = v] for a scalar [v]. *)
Definition assign_where {A} (mask : list bool) (v : A) (old : list A) : list A :=
  scatter mask (replicate (mask_sum mask) v) old.

(** [s == True] and [s == False], element by element: a boolean equals
    itself, the numbers 1 and 0 equal True and False, nothing else does. *)
Definition eq_bool (b : bool) (s : series) : list bool :=
  match s with
  | SBool xs => (fun x => bool_decide (x = Some b)) <$> xs
  | SNum xs => (fun x => feq x (if b then Fin 1 else Fin 0)) <$> xs
  | SStr xs => (fun _ => false) <$> xs
  end.

(** [s[mask] = True].  In a numeric column True is stored as 1; a text
    column never meets it here, its mask being all false. *)
Definition assign_true (mask : list bool) (s : series) : series :=
  match s with
  | SBool xs => SBool (assign_where mask (Some true) xs)
  | SNum xs => SNum (assign_where mask (Fin 1) xs)
  | SStr xs => SStr xs
  end.

(** [s.round().astype(int)]: NaN and the infinities cannot be converted.
    The integers are unbounded here; a magnitude beyond int64 is not
    modelled. *)
Definition astype_int (xs : list fval) : result (list Z) :=
  if forallb isfinite xs
  then Ok ((fun x => match x with Fin q => Qtrunc q | _ => 0%Z end) <$> xs)
  else Raise ValueError.

(** The invariant of a DataFrame: every column has the length of the
    index. *)
Definition wf_frame (df : frame) : Prop :=
  Forall (fun c => slen (snd c) = nrows df) (columns df).

(** The cells of a row, read by column name. *)
Definition num_at (name : string) (df : frame) (i : nat) : option fval :=
  match assoc name (columns df) with
  | Some (SNum xs) => xs !! i
  | _ => None
  end.

Definition bool_at (name : string) (df : frame) (i : nat) : option (option bool) :=
  match assoc name (columns df) with
  | Some (SBool xs) => xs !! i
  | _ => None
  end.

End Frame.
Export Frame.

(** ** data_processor.py *)

Module DataProcessor.

(** *** validate_business_rules *)

(** Rule 1: MRP should be greater than discounted selling price. *)
Definition rule1 (valid_df : frame) (validation_messages : list string)
  : result (frame * list string) :=
  mrp <- get_num "mrp" valid_df;
  dsp <- get_num "discounted_selling_price" valid_df;
  let invalid_pricing := zip_with flt mrp dsp in
  if mask_any invalid_pricing then
    let count := mask_sum invalid_pricing in
    Ok (select_rows (mask_not invalid_pricing) valid_df,
        validation_messages ++
          ["Removed " +:+ pretty count +:+ " products with MRP < Selling Price"])
  else Ok (valid_df, validation_messages).

(** [((mrp - discounted_selling_price) / mrp) * 100], exactly; the
    binary64 result of the source is [Float64.calculated_discount]. *)
Definition calculated_discount (mrp dsp : fval) : fval :=
  fmul (fdiv (fsub mrp dsp) mrp) (Fin 100).

(** [abs(discount_percent - calculated_discount) > 1], exactly; the
    binary64 test of the source is [Float64.mismatch]. *)
Definition mismatch (dp calc : fval) : bool :=
  fgt (fabs (fsub dp calc)) (Fin 1).

(** Rule 2: discount percentage should match calculated discount. *)
Definition rule2 (valid_df : frame) (validation_messages : list string)
  : result (frame * list string) :=
  mrp <- get_num "mrp" valid_df;
  dsp <- get_num "discounted_selling_price" valid_df;
  let valid_df :=
    set_col "calculated_discount" (SNum (zip_with calculated_discount mrp dsp))
      valid_df in
  dp <- get_num "discount_percent" valid_df;
  calc <- get_num "calculated_discount" valid_df;
  let discount_mismatch := zip_with mismatch dp calc in
  '(valid_df, validation_messages) <-
    (if mask_any discount_mismatch then
       let count := mask_sum discount_mismatch in
       let validation_messages :=
         validation_messages ++
           ["Fixed " +:+ pretty count +:+
            " products with incorrect discount percentages"] in
       calc <- get_num "calculated_discount" valid_df;
       rhs <- astype_int (fround <$> select discount_mismatch calc);
       dp <- get_num "discount_percent" valid_df;
       Ok (set_col "discount_percent"
             (SNum (scatter discount_mismatch (of_Z <$> rhs) dp)) valid_df,
           validation_messages)
     else Ok (valid_df, validation_messages));
  valid_df <- drop "calculated_discount" valid_df;
  Ok (valid_df, validation_messages).

(** Rule 3: out of stock products should have 0 available quantity. *)
Definition rule3 (valid_df : frame) (validation_messages : list string)
  : result (frame * list string) :=
  oos <- get_col "out_of_stock" valid_df;
  avail <- get_num "available_quantity" valid_df;
  let invalid_stock :=
    mask_and (eq_bool true oos) ((fun a => fgt a (Fin 0)) <$> avail) in
  if mask_any invalid_stock then
    let count := mask_sum invalid_stock in
    Ok (set_col "available_quantity"
          (SNum (assign_where invalid_stock (Fin 0) avail)) valid_df,
        validation_messages ++
          ["Fixed " +:+ pretty count +:+
           " out-of-stock products with non-zero availability"])
  else Ok (valid_df, validation_messages).

(** Rule 4: products with 0 available quantity should be marked as out of
    stock. *)
Definition rule4 (valid_df : frame) (validation_messages : list string)
  : result (frame * list string) :=
  avail <- get_num "available_quantity" valid_df;
  oos <- get_col "out_of_stock" valid_df;
  let zero_quantity :=
    mask_and ((fun a => feq a (Fin 0)) <$> avail) (eq_bool false oos) in
  if mask_any zero_quantity then
    let count := mask_sum zero_quantity in
    Ok (set_col "out_of_stock" (assign_true zero_quantity oos) valid_df,
        validation_messages ++
          ["Marked " +:+ pretty count +:+
           " zero-quantity products as out of stock"])
  else Ok (valid_df, validation_messages).

Definition validate_business_rules (df : frame) : result (frame * list string) :=
  let validation_messages := [] in
  let valid_df := df in
  '(valid_df, validation_messages) <- rule1 valid_df validation_messages;
  '(valid_df, validation_messages) <- rule2 valid_df validation_messages;
  '(valid_df, validation_messages) <- rule3 valid_df validation_messages;
  '(valid_df, validation_messages) <- rule4 valid_df validation_messages;
  Ok (valid_df, validation_messages).


(** *** Column statistics (pandas skips the missing values) *)

Definition dropna (xs : list fval) : list fval :=
  List.filter (fun x => negb (isnan x)) xs.

Definition fsum (xs : list fval) : fval := foldl fadd (Fin 0) xs.

(** [s.mean()]: NaN when no value is present.  Exact; the binary64
    result of the source is [Float64.mean]. *)
Definition mean (xs : list fval) : fval :=
  let v := dropna xs in
  match v with
  | [] => NaN
  | _ => fdiv (fsum v) (of_nat (length v))
  end.

(** [s.max()] and [s.min()]: NaN when no value is present. *)
Definition fmax (xs : list fval) : fval :=
  match dropna xs with
  | [] => NaN
  | x :: r => foldl (fun a b => if flt a b then b else a) x r
  end.

Definition fmin (xs : list fval) : fval :=
  match dropna xs with
  | [] => NaN
  | x :: r => foldl (fun a b => if flt b a then b else a) x r
  end.

(** The sample variance (one degree of freedom removed): NaN on fewer
    than two values. *)
Definition variance (xs : list fval) : fval :=
  let v := dropna xs in
  let m := mean xs in
  match length v with
  | 0 | 1 => NaN
  | S n =>
      fdiv (fsum ((fun x => fmul (fsub x m) (fsub x m)) <$> v)) (of_nat n)
  end.

(** The square root of a float, kept as a term: [SqrtOf v] stands for the
    real number √v, so that no approximation of it enters the model. *)
Inductive sqrtval : Type := SqrtOf (v : fval).

(** [s.std()] *)
Definition std (xs : list fval) : sqrtval := SqrtOf (variance xs).

Definition sqrt_is_zero (d : sqrtval) : bool :=
  match d with
  | SqrtOf (Fin v) => Qzero v
  | _ => false
  end.

(** [AbsQuot x d] stands for the float [abs(x / d)]. *)
Inductive absquot : Type := AbsQuot (x : fval) (d : sqrtval).

Definition denominator (z : absquot) : sqrtval :=
  match z with AbsQuot _ d => d end.

(** [abs(x / √v) > k] for a positive [k], decided exactly: over a zero
    root the quotient is NaN for a zero [x] and infinite otherwise; over a
    positive root the comparison is the one of the squares. *)
Definition absquot_gt (z : absquot) (k : Q) : bool :=
  match z with
  | AbsQuot NaN _ => false
  | AbsQuot _ (SqrtOf NaN) => false
  | AbsQuot _ (SqrtOf NInf) => false
  | AbsQuot (Fin _) (SqrtOf PInf) => false
  | AbsQuot _ (SqrtOf PInf) => false
  | AbsQuot (PInf | NInf) (SqrtOf (Fin v)) => Qle_bool 0 v
  | AbsQuot (Fin x) (SqrtOf (Fin v)) =>
      if Qzero v then negb (Qzero x)
      else if Qltb v 0 then false
      else Qltb (k * k * v) (x * x)
  end.

(** Ascending order of the present values. *)
Fixpoint insert_sorted (x : fval) (l : list fval) : list fval :=
  match l with
  | [] => [x]
  | y :: r => if fle x y then x :: l else y :: insert_sorted x r
  end.

Definition sort (l : list fval) : list fval := foldr insert_sorted [] l.

(** numpy's linear interpolation between two neighbours. *)
Definition lerp (a b : fval) (t : Q) : fval :=
  let diff_b_a := fsub b a in
  if Qle_bool (1 # 2) t then fsub b (fmul diff_b_a (Fin (1 - t)))
  else fadd a (fmul diff_b_a (Fin t)).

(** [s.quantile(q)] with the default linear interpolation: the value at
    the virtual index [(n - 1) * q] of the sorted present values. *)
Definition quantile (q : Q) (xs : list fval) : fval :=
  let v := sort (dropna xs) in
  match v with
  | [] => NaN
  | _ =>
      let n := length v in
      let virtual := (inject_Z (Z.of_nat (n - 1)) * q)%Q in
      let previous := Z.to_nat (Qfloor virtual) in
      let next := Nat.min (previous + 1) (n - 1) in
      let gamma := (virtual - inject_Z (Qfloor virtual))%Q in
      match v !! previous, v !! next with
      | Some a, Some b => lerp a b gamma
      | _, _ => NaN
      end
  end.

(** *** detect_outliers *)

(** The fences, exactly; the binary64 fences of the source are
    [Float64.iqr_bounds]. *)
Definition iqr_bounds (xs : list fval) : fval * fval :=
  let Q1 := quantile (1 # 4) xs in
  let Q3 := quantile (3 # 4) xs in
  let IQR := fsub Q3 Q1 in
  let lower_bound := fsub Q1 (fmul (Fin (3 # 2)) IQR) in
  let upper_bound := fadd Q3 (fmul (Fin (3 # 2)) IQR) in
  (lower_bound, upper_bound).

Definition iqr_mask (xs : list fval) : list bool :=
  let '(lower_bound, upper_bound) := iqr_bounds xs in
  mask_or ((fun x => flt x lower_bound) <$> xs)
          ((fun x => fgt x upper_bound) <$> xs).

(** [np.abs((df[column] - df[column].mean()) / df[column].std())] *)
Definition z_scores (xs : list fval) : list absquot :=
  let m := mean xs in
  let d := std xs in
  (fun x => AbsQuot (fsub x m) d) <$> xs.

Definition zscore_mask (xs : list fval) : list bool :=
  (fun z => absquot_gt z 3) <$> z_scores xs.

Definition detect_outliers (df : frame) (column : string) (method : string)
  : result (list bool) :=
  if String.eqb method "iqr" then
    xs <- get_num column df; Ok (iqr_mask xs)
  else if String.eqb method "zscore" then
    xs <- get_num column df; Ok (zscore_mask xs)
  else Raise ValueError.

(** *** generate_data_quality_report *)

(** [s.isnull()] *)
Definition isnull (s : series) : list bool :=
  match s with
  | SNum xs => isnan <$> xs
  | SBool xs => (fun x => bool_decide (x = None)) <$> xs
  | SStr xs => (fun x => bool_decide (x = None)) <$> xs
  end.

(** A present cell, as a key of a dict or a member of a set of values. *)
Inductive cell : Type :=
  | CNum (x : fval)
  | CBool (b : bool)
  | CStr (s : pystr).

Definition cell_eqb (a b : cell) : bool :=
  match a, b with
  | CNum x, CNum y => feq x y
  | CBool x, CBool y => Bool.eqb x y
  | CStr x, CStr y => bool_decide (x = y)
  | _, _ => false
  end.

(** The present cells of a column, in order. *)
Definition present (s : series) : list cell :=
  match s with
  | SNum xs => CNum <$> dropna xs
  | SBool xs => CBool <$> omap id xs
  | SStr xs => CStr <$> omap id xs
  end.

(** Occurrence counts of the distinct cells, in order of first
    occurrence. *)
Fixpoint count_in (c : cell) (acc : list (cell * nat)) : list (cell * nat) :=
  match acc with
  | [] => [(c, 1)]
  | (k, n) :: r => if cell_eqb k c then (k, S n) :: r else (k, n) :: count_in c r
  end.

Definition counts (cs : list cell) : list (cell * nat) :=
  foldl (fun acc c => count_in c acc) [] cs.

(** [s.nunique()] *)
Definition nunique (s : series) : nat := length (counts (present s)).

Fixpoint insert_by_count (e : cell * nat) (l : list (cell * nat))
  : list (cell * nat) :=
  match l with
  | [] => [e]
  | y :: r => if Nat.ltb (snd y) (snd e) then e :: l else y :: insert_by_count e r
  end.

(** [s.value_counts()]: most frequent first (pandas leaves the order of
    equal counts to its sorting algorithm; here they keep the order of
    first occurrence). *)
Definition value_counts (s : series) : list (cell * nat) :=
  foldr insert_by_count [] (counts (present s)).

(** [str(dtype)].  Every number is held as a float here, so a column that
    pandas holds as int64 reads float64. *)
Definition dtype_name (s : series) : string :=
  match s with
  | SNum _ => "float64"
  | SBool xs => if forallb (fun x => bool_decide (x ≠ None)) xs then "bool" else "object"
  | SStr _ => "object"
  end.

(** [int(x)] of a float. *)
Definition int_of_float (x : fval) : result Z :=
  match x with
  | Fin q => Ok (Qtrunc q)
  | NaN => Raise ValueError
  | PInf | NInf => Raise OverflowError
  end.

(** [round((count / len(df)) * 100, 2)], the count being a numpy integer:
    a zero length gives NaN or an infinity, not an exception. *)
Definition percentage_of (count len : nat) : fval :=
  fround2 (fmul (fdiv (of_nat count) (of_nat len)) (Fin 100)).

Record price_stats : Type := mkPriceStats {
  avg_mrp : fval;
  avg_selling_price : fval;
  avg_discount : fval;
  max_discount : Z;
  min_discount : Z
}.

Record report : Type := mkReport {
  total_rows : nat;
  total_columns : nat;
  missing_values : list (string * (Z * fval));
  data_types : list (string * string);
  unique_counts : list (string * Z);
  outliers : list (string * (Z * fval));
  category_distribution : list (cell * Z);
  price_statistics : option price_stats
}.

(** The loop over [numeric_columns], the entries added in its order. *)
Fixpoint outliers_loop (df : frame) (numeric_columns : list string)
  : result (list (string * (Z * fval))) :=
  match numeric_columns with
  | [] => Ok []
  | col :: rest =>
      if has_col col df then
        outliers <- detect_outliers df col "iqr";
        let entry :=
          (col, (Z.of_nat (mask_sum outliers),
                 percentage_of (mask_sum outliers) (nrows df))) in
        r <- outliers_loop df rest;
        Ok (entry :: r)
      else outliers_loop df rest
  end.

Definition generate_data_quality_report (df : frame) : result report :=
  (* Missing values analysis *)
  let missing_values :=
    (fun '(col, s) =>
       let missing_count := mask_sum (isnull s) in
       let missing_percentage := percentage_of missing_count (nrows df) in
       (col, (Z.of_nat missing_count, missing_percentage))) <$> columns df in
  (* Data types *)
  let data_types := (fun '(col, s) => (col, dtype_name s)) <$> columns df in
  (* Unique value counts *)
  let unique_counts :=
    (fun '(col, s) => (col, Z.of_nat (nunique s))) <$> columns df in
  (* Outlier detection for numeric columns *)
  outliers <-
    outliers_loop df
      ["mrp"; "discounted_selling_price"; "discount_percent"; "weight_in_gms"];
  (* Category distribution *)
  category_distribution <-
    (if has_col "category" df then
       s <- get_col "category" df;
       Ok ((fun '(cat, count) => (cat, Z.of_nat count)) <$> value_counts s)
     else Ok []);
  (* Price statistics *)
  price_statistics <-
    (if has_col "mrp" df && has_col "discounted_selling_price" df then
       mrp <- get_num "mrp" df;
       dsp <- get_num "discounted_selling_price" df;
       dp <- get_num "discount_percent" df;
       max_d <- int_of_float (fmax dp);
       min_d <- int_of_float (fmin dp);
       Ok (Some (mkPriceStats (fround2 (mean mrp)) (fround2 (mean dsp))
                              (fround2 (mean dp)) max_d min_d))
     else Ok None);
  Ok (mkReport (nrows df) (length (columns df)) missing_values data_types
               unique_counts outliers category_distribution price_statistics).

(** *** clean_currency_values *)

(** [s.replace(c, '')] for a one-character [c]. *)
Definition str_remove (c : N) (s : pystr) : pystr :=
  List.filter (fun x => negb (N.eqb x c)) s.

(** The rupee sign U+20B9 and the comma. *)
Definition rupee : N := 8377%N.
Definition comma : N := 44%N.

Section Conversions.

(** Two conversions of the library are taken as they are: the text that
    [astype(str)] gives for a float, and the float that
    [pd.to_numeric(errors='coerce')] reads in a text (NaN where none). *)
Variable float_str : fval -> pystr.
Variable parse_float : pystr -> fval.

(** [s.astype(str)] *)
Definition astype_str (s : series) : list pystr :=
  match s with
  | SStr xs => (fun x => default (py "nan") x) <$> xs
  | SNum xs => float_str <$> xs
  | SBool xs =>
      (fun x => match x with
                | Some true => py "True"
                | Some false => py "False"
                | None => py "nan"
                end) <$> xs
  end.

(** [pd.to_numeric(s, errors='coerce')] *)
Definition to_numeric (s : series) : list fval :=
  match s with
  | SNum xs => xs
  | SStr xs => (fun x => from_option parse_float NaN x) <$> xs
  | SBool xs =>
      (fun x => match x with
                | Some true => Fin 1
                | Some false => Fin 0
                | None => NaN
                end) <$> xs
  end.

(** The body of the loop, for one listed column. *)
Definition clean_currency_column (cleaned_df : frame) (col : string)
  : result frame :=
  if has_col col cleaned_df then
    (* Remove currency symbols and convert to numeric *)
    s <- get_col col cleaned_df;
    let cleaned_df :=
      set_col col
        (SStr ((fun x => Some (str_remove comma (str_remove rupee x)))
                 <$> astype_str s)) cleaned_df in
    s <- get_col col cleaned_df;
    let cleaned_df := set_col col (SNum (to_numeric s)) cleaned_df in
    (* Convert to paise (multiply by 100) if values seem to be in rupees *)
    xs <- get_num col cleaned_df;
    if fgt (mean xs) (Fin 100) then Ok cleaned_df
    else
      xs <- get_num col cleaned_df;
      Ok (set_col col (SNum ((fun x => fmul x (Fin 100)) <$> xs)) cleaned_df)
  else Ok cleaned_df.

Definition clean_currency_values (df : frame) (currency_columns : list string)
  : result frame :=
  let cleaned_df := df in
  foldl (fun acc col => cleaned_df <- acc; clean_currency_column cleaned_df col)
        (Ok cleaned_df) currency_columns.

End Conversions.

(** *** standardize_category_names *)

(** The characters that [str.strip()] removes. *)
Definition py_isspace (c : N) : bool :=
  bool_decide (c ∈ [9; 10; 11; 12; 13; 28; 29; 30; 31; 32; 133; 160; 5760;
                    8192; 8193; 8194; 8195; 8196; 8197; 8198; 8199; 8200;
                    8201; 8202; 8232; 8233; 8239; 8287; 12288]%N).

Fixpoint lstrip (s : pystr) : pystr :=
  match s with
  | c :: r => if py_isspace c then lstrip r else s
  | [] => []
  end.

Definition py_strip (s : pystr) : pystr := rev (lstrip (rev (lstrip s))).

Definition category_mapping : list (pystr * pystr) :=
  [(py "Fruits & Vegetables", py "Fruits & Vegetables");
   (py "Fruits and Vegetables", py "Fruits & Vegetables");
   (py "Fruits&Vegetables", py "Fruits & Vegetables");
   (py "Cooking Essentials", py "Cooking Essentials");
   (py "CookingEssentials", py "Cooking Essentials");
   (py "Cooking essentials", py "Cooking Essentials")].

Fixpoint dict_get (k : pystr) (d : list (pystr * pystr)) : option pystr :=
  match d with
  | [] => None
  | (k', v) :: r => if bool_decide (k' = k) then Some v else dict_get k r
  end.

(** [s.replace(mapping)]: a value that is a key is replaced. *)
Definition replace_map (d : list (pystr * pystr)) (x : option pystr)
  : option pystr :=
  match x with
  | Some s => Some (default s (dict_get s d))
  | None => None
  end.

(** The [.str] accessor exists on text columns only. *)
Definition str_accessor (s : series) : result (list (option pystr)) :=
  match s with
  | SStr xs => Ok xs
  | _ => Raise AttributeError
  end.

Definition standardize_category_names (df : frame) : result frame :=
  let cleaned_df := df in
  if has_col "category" cleaned_df then
    (* Remove leading/trailing spaces and normalize *)
    s <- get_col "category" cleaned_df;
    xs <- str_accessor s;
    let cleaned_df := set_col "category" (SStr (option_map py_strip <$> xs)) cleaned_df in
    (* Fix common naming inconsistencies *)
    s <- get_col "category" cleaned_df;
    xs <- str_accessor s;
    Ok (set_col "category" (SStr (replace_map category_mapping <$> xs)) cleaned_df)
  else Ok cleaned_df.

(** *** enrich_data *)

(** [s.replace([np.inf, -np.inf], 0)] *)
Definition replace_inf (x : fval) : fval :=
  match x with
  | PInf | NInf => Fin 0
  | _ => x
  end.

(** [pd.cut(s, bins, labels)]: the label of the bin, open on the left and
    closed on the right, that holds the value; missing when none does. *)
Fixpoint cut1 (x lo : fval) (bins : list fval) (labels : list pystr)
  : option pystr :=
  match bins, labels with
  | hi :: bins', l :: labels' =>
      if flt lo x && fle x hi then Some l else cut1 x hi bins' labels'
  | _, _ => None
  end.

Definition cut (xs : list fval) (bins : list fval) (labels : list pystr)
  : series :=
  match bins with
  | lo :: bins' => SStr ((fun x => cut1 x lo bins' labels) <$> xs)
  | [] => SStr ((fun _ => None) <$> xs)
  end.

Definition weight_labels : list pystr :=
  [py "Very Light (<100g)"; py "Light (100-500g)"; py "Medium (500g-1kg)";
   py "Heavy (1-5kg)"; py "Very Heavy (>5kg)"].

(** The two price labels that hold a rupee sign are spelled by code
    point. *)
Definition price_labels : list pystr :=
  [py "Budget (<" ++ [rupee] ++ py "10)";
   py "Affordable (" ++ [rupee] ++ py "10-50)";
   py "Mid-range (" ++ [rupee] ++ py "50-100)";
   py "Premium (" ++ [rupee] ++ py "100-500)";
   py "Luxury (>" ++ [rupee] ++ py "500)"].

Definition discount_labels : list pystr :=
  [py "Minimal (0-5%)"; py "Low (5-15%)"; py "Medium (15-25%)";
   py "High (25-50%)"; py "Very High (50%+)"].

Definition enrich_data (df : frame) : result frame :=
  let enriched_df := df in
  (* Calculate savings amount *)
  mrp <- get_num "mrp" enriched_df;
  dsp <- get_num "discounted_selling_price" enriched_df;
  let enriched_df := set_col "savings_amount" (SNum (zip_with fsub mrp dsp)) enriched_df in
  (* Calculate price per gram for weight-based comparison *)
  dsp <- get_num "discounted_selling_price" enriched_df;
  w <- get_num "weight_in_gms" enriched_df;
  let enriched_df := set_col "price_per_gram" (SNum (zip_with fdiv dsp w)) enriched_df in
  ppg <- get_num "price_per_gram" enriched_df;
  let enriched_df := set_col "price_per_gram" (SNum (replace_inf <$> ppg)) enriched_df in
  (* Create weight categories *)
  w <- get_num "weight_in_gms" enriched_df;
  let enriched_df :=
    set_col "weight_category"
      (cut w [Fin 0; Fin 100; Fin 500; Fin 1000; Fin 5000; PInf] weight_labels)
      enriched_df in
  (* Create price categories *)
  dsp <- get_num "discounted_selling_price" enriched_df;
  let enriched_df :=
    set_col "price_category"
      (cut dsp [Fin 0; Fin 1000; Fin 5000; Fin 10000; Fin 50000; PInf] price_labels)
      enriched_df in
  (* Create discount categories *)
  dp <- get_num "discount_percent" enriched_df;
  let enriched_df :=
    set_col "discount_category"
      (cut dp [Fin 0; Fin 5; Fin 15; Fin 25; Fin 50; Fin 100] discount_labels)
      enriched_df in
  Ok enriched_df.

End DataProcessor.


(** ** etl_pipeline.py: the normalizer *)

Module Pipeline.

Definition column_mapping : list (string * string) :=
  [("Category", "category"); ("name", "name"); ("mrp", "mrp");
   ("discountPercent", "discount_percent");
   ("availableQuantity", "available_quantity");
   ("discountedSellingPrice", "discounted_selling_price");
   ("weightInGms", "weight_in_gms"); ("outOfStock", "out_of_stock");
   ("quantity", "quantity")].

Fixpoint renamed (mapping : list (string * string)) (name : string) : string :=
  match mapping with
  | [] => name
  | (old, new) :: r => if String.eqb old name then new else renamed r name
  end.

(** [df.rename(columns=mapping)].  A table that has a column under a raw
    name and another under its canonical name gets the label twice;
    pandas then gives no single column for the label, which the lookup by
    name here does not model: statements that claim a return of the
    normalizer take the labels to be distinct. *)
Definition rename (mapping : list (string * string)) (df : frame) : frame :=
  mkFrame (nrows df) (prod_map (renamed mapping) id <$> columns df).

(** [s.map({'TRUE': True, 'FALSE': False, True: True, False: False})]: a
    value that is no key becomes missing; the numbers 1 and 0 are the keys
    True and False. *)
Definition map_bool (s : series) : list (option bool) :=
  match s with
  | SBool xs => xs
  | SStr xs =>
      (fun x => match x with
                | Some t => if bool_decide (t = py "TRUE") then Some true
                            else if bool_decide (t = py "FALSE") then Some false
                            else None
                | None => None
                end) <$> xs
  | SNum xs =>
      (fun x => if feq x (Fin 1) then Some true
                else if feq x (Fin 0) then Some false else None) <$> xs
  end.

(** [s.fillna(v)] *)
Definition fillna (v : fval) (xs : list fval) : list fval :=
  (fun x => if isnan x then v else x) <$> xs.

Section Conversions.

Variable float_str : fval -> pystr.
Variable parse_float : pystr -> fval.

(** The loop [for col in cols: df[col] = f(df[col])]. *)
Fixpoint convert_columns (f : series -> series) (cols : list string)
    (df : frame) : result frame :=
  match cols with
  | [] => Ok df
  | col :: rest =>
      s <- get_col col df;
      convert_columns f rest (set_col col (f s) df)
  end.

Definition transform_data (df : frame) : result frame :=
  let transformed_df := df in
  let transformed_df := rename column_mapping transformed_df in
  (* Ensure numeric columns are properly typed *)
  transformed_df <-
    convert_columns (fun s => SNum (DataProcessor.to_numeric parse_float s))
      ["mrp"; "discount_percent"; "available_quantity";
       "discounted_selling_price"; "weight_in_gms"; "quantity"]
      transformed_df;
  (* Handle boolean column *)
  s <- get_col "out_of_stock" transformed_df;
  let transformed_df := set_col "out_of_stock" (SBool (map_bool s)) transformed_df in
  (* Clean text fields *)
  transformed_df <-
    convert_columns
      (fun s => SStr ((fun x => Some (DataProcessor.py_strip x))
                        <$> DataProcessor.astype_str float_str s))
      ["category"; "name"] transformed_df;
  (* Remove rows with missing essential data *)
  category <- get_col "category" transformed_df;
  name <- get_col "name" transformed_df;
  mrp <- get_col "mrp" transformed_df;
  dsp <- get_col "discounted_selling_price" transformed_df;
  let missing :=
    mask_or (mask_or (DataProcessor.isnull category) (DataProcessor.isnull name))
            (mask_or (DataProcessor.isnull mrp) (DataProcessor.isnull dsp)) in
  let transformed_df := select_rows (mask_not missing) transformed_df in
  (* Ensure prices are positive *)
  mrp <- get_num "mrp" transformed_df;
  dsp <- get_num "discounted_selling_price" transformed_df;
  let transformed_df :=
    select_rows (mask_and ((fun x => fgt x (Fin 0)) <$> mrp)
                          ((fun x => fgt x (Fin 0)) <$> dsp)) transformed_df in
  (* Ensure discount percent is between 0 and 100 *)
  dp <- get_num "discount_percent" transformed_df;
  let transformed_df :=
    select_rows (mask_and ((fun x => fge x (Fin 0)) <$> dp)
                          ((fun x => fle x (Fin 100)) <$> dp)) transformed_df in
  (* Fill missing values with defaults *)
  aq <- get_num "available_quantity" transformed_df;
  let transformed_df := set_col "available_quantity" (SNum (fillna (Fin 0) aq)) transformed_df in
  w <- get_num "weight_in_gms" transformed_df;
  let transformed_df := set_col "weight_in_gms" (SNum (fillna (Fin 0) w)) transformed_df in
  q <- get_num "quantity" transformed_df;
  let transformed_df := set_col "quantity" (SNum (fillna (Fin 1) q)) transformed_df in
  oos <- get_col "out_of_stock" transformed_df;
  let transformed_df :=
    set_col "out_of_stock"
      (SBool (match oos with
              | SBool xs => (fun x => Some (default false x)) <$> xs
              | _ => []
              end)) transformed_df in
  Ok transformed_df.

End Conversions.

End Pipeline.

(** ** The object store

    The four transformations of [DataProcessor] start with [df.copy()] and
    then assign into the copy.  To state what happens to the caller's
    table, the frames live in a store and a variable holds a reference;
    [df[col] = s] and [df.loc[mask, col] = v] update the referenced frame
    where it is, [df.copy()], [df[mask]] and [df.drop(...)] make a new
    one. *)

Module Heap.

(** A reference is an address of the store, the store a list of frames. *)
Definition loc : Type := nat.

(** A computation on the store that may raise; the store outlives the
    exception. *)
Definition M (A : Type) : Type := list frame -> list frame * result A.

Definition ret {A} (a : A) : M A := fun h => (h, Ok a).

Definition mbind {A B} (m : M A) (f : A -> M B) : M B := fun h =>
  match m h with
  | (h', Ok a) => f a h'
  | (h', Raise e) => (h', Raise e)
  end.

Notation "x <~ m ; k" := (mbind m (fun x => k))
  (at level 20, m at level 100, k at level 200, only parsing).
Notation "' p <~ m ; k" := (mbind m (fun x => let 'p := x in k))
  (at level 20, p pattern, m at level 100, k at level 200, only parsing).

Definition lift {A} (r : result A) : M A := fun h => (h, r).

(** Reading through a reference; a reference always denotes a frame, and
    the model reads the empty frame at an address that holds none. *)
Definition load (l : loc) : M frame := fun h =>
  (h, Ok (default (mkFrame 0 []) (h !! l))).

(** Updating the referenced frame where it is. *)
Definition store (l : loc) (df : frame) : M unit := fun h =>
  (<[l := df]> h, Ok tt).

(** A new frame at a fresh address. *)
Definition alloc (df : frame) : M loc := fun h => (h ++ [df], Ok (length h)).

(** [df.copy()] *)
Definition copy (l : loc) : M loc := df <~ load l; alloc df.

(** [df[name] = s] *)
Definition setitem (l : loc) (name : string) (s : series) : M unit :=
  df <~ load l; store l (set_col name s df).

(** [df[name]] as numbers, and as it is. *)
Definition getnum (l : loc) (name : string) : M (list fval) :=
  df <~ load l; lift (get_num name df).

Definition getitem (l : loc) (name : string) : M series :=
  df <~ load l; lift (get_col name df).

Fixpoint for_each {A} (xs : list A) (body : A -> M unit) : M unit :=
  match xs with
  | [] => ret tt
  | x :: r => _ <~ body x; for_each r body
  end.

Section Conversions.

Variable float_str : fval -> pystr.
Variable parse_float : pystr -> fval.

Definition clean_currency_column (cleaned_df : loc) (col : string) : M unit :=
  df <~ load cleaned_df;
  if has_col col df then
    s <~ getitem cleaned_df col;
    _ <~ setitem cleaned_df col
           (SStr ((fun x => Some (DataProcessor.str_remove DataProcessor.comma
                                    (DataProcessor.str_remove DataProcessor.rupee x)))
                    <$> DataProcessor.astype_str float_str s));
    s <~ getitem cleaned_df col;
    _ <~ setitem cleaned_df col (SNum (DataProcessor.to_numeric parse_float s));
    xs <~ getnum cleaned_df col;
    if fgt (DataProcessor.mean xs) (Fin 100) then ret tt
    else
      xs <~ getnum cleaned_df col;
      setitem cleaned_df col (SNum ((fun x => fmul x (Fin 100)) <$> xs))
  else ret tt.

Definition clean_currency_values (df : loc) (currency_columns : list string)
  : M loc :=
  cleaned_df <~ copy df;
  _ <~ for_each currency_columns (clean_currency_column cleaned_df);
  ret cleaned_df.

End Conversions.

Definition rule1 (valid_df : loc) (validation_messages : list string)
  : M (loc * list string) :=
  mrp <~ getnum valid_df "mrp";
  dsp <~ getnum valid_df "discounted_selling_price";
  let invalid_pricing := zip_with flt mrp dsp in
  if mask_any invalid_pricing then
    let count := mask_sum invalid_pricing in
    let validation_messages :=
      validation_messages ++
        ["Removed " +:+ pretty count +:+ " products with MRP < Selling Price"] in
    df <~ load valid_df;
    valid_df <~ alloc (select_rows (mask_not invalid_pricing) df);
    ret (valid_df, validation_messages)
  else ret (valid_df, validation_messages).

Definition rule2 (valid_df : loc) (validation_messages : list string)
  : M (loc * list string) :=
  mrp <~ getnum valid_df "mrp";
  dsp <~ getnum valid_df "discounted_selling_price";
  _ <~ setitem valid_df "calculated_discount"
         (SNum (zip_with DataProcessor.calculated_discount mrp dsp));
  dp <~ getnum valid_df "discount_percent";
  calc <~ getnum valid_df "calculated_discount";
  let discount_mismatch := zip_with DataProcessor.mismatch dp calc in
  validation_messages <~
    (if mask_any discount_mismatch then
       let count := mask_sum discount_mismatch in
       let validation_messages :=
         validation_messages ++
           ["Fixed " +:+ pretty count +:+
            " products with incorrect discount percentages"] in
       calc <~ getnum valid_df "calculated_discount";
       rhs <~ lift (astype_int (fround <$> select discount_mismatch calc));
       dp <~ getnum valid_df "discount_percent";
       _ <~ setitem valid_df "discount_percent"
              (SNum (scatter discount_mismatch (of_Z <$> rhs) dp));
       ret validation_messages
     else ret validation_messages);
  df <~ load valid_df;
  dropped <~ lift (drop "calculated_discount" df);
  valid_df <~ alloc dropped;
  ret (valid_df, validation_messages).

Definition rule3 (valid_df : loc) (validation_messages : list string)
  : M (loc * list string) :=
  oos <~ getitem valid_df "out_of_stock";
  avail <~ getnum valid_df "available_quantity";
  let invalid_stock :=
    mask_and (eq_bool true oos) ((fun a => fgt a (Fin 0)) <$> avail) in
  if mask_any invalid_stock then
    let count := mask_sum invalid_stock in
    _ <~ setitem valid_df "available_quantity"
           (SNum (assign_where invalid_stock (Fin 0) avail));
    ret (valid_df,
         validation_messages ++
           ["Fixed " +:+ pretty count +:+
            " out-of-stock products with non-zero availability"])
  else ret (valid_df, validation_messages).

Definition rule4 (valid_df : loc) (validation_messages : list string)
  : M (loc * list string) :=
  avail <~ getnum valid_df "available_quantity";
  oos <~ getitem valid_df "out_of_stock";
  let zero_quantity :=
    mask_and ((fun a => feq a (Fin 0)) <$> avail) (eq_bool false oos) in
  if mask_any zero_quantity then
    let count := mask_sum zero_quantity in
    _ <~ setitem valid_df "out_of_stock" (assign_true zero_quantity oos);
    ret (valid_df,
         validation_messages ++
           ["Marked " +:+ pretty count +:+
            " zero-quantity products as out of stock"])
  else ret (valid_df, validation_messages).

Definition validate_business_rules (df : loc) : M (loc * list string) :=
  let validation_messages := [] in
  valid_df <~ copy df;
  '(valid_df, validation_messages) <~ rule1 valid_df validation_messages;
  '(valid_df, validation_messages) <~ rule2 valid_df validation_messages;
  '(valid_df, validation_messages) <~ rule3 valid_df validation_messages;
  '(valid_df, validation_messages) <~ rule4 valid_df validation_messages;
  ret (valid_df, validation_messages).

Definition standardize_category_names (df : loc) : M loc :=
  cleaned_df <~ copy df;
  f <~ load cleaned_df;
  if has_col "category" f then
    s <~ getitem cleaned_df "category";
    xs <~ lift (DataProcessor.str_accessor s);
    _ <~ setitem cleaned_df "category"
           (SStr (option_map DataProcessor.py_strip <$> xs));
    s <~ getitem cleaned_df "category";
    xs <~ lift (DataProcessor.str_accessor s);
    _ <~ setitem cleaned_df "category"
           (SStr (DataProcessor.replace_map DataProcessor.category_mapping <$> xs));
    ret cleaned_df
  else ret cleaned_df.

Definition enrich_data (df : loc) : M loc :=
  enriched_df <~ copy df;
  mrp <~ getnum enriched_df "mrp";
  dsp <~ getnum enriched_df "discounted_selling_price";
  _ <~ setitem enriched_df "savings_amount" (SNum (zip_with fsub mrp dsp));
  dsp <~ getnum enriched_df "discounted_selling_price";
  w <~ getnum enriched_df "weight_in_gms";
  _ <~ setitem enriched_df "price_per_gram" (SNum (zip_with fdiv dsp w));
  ppg <~ getnum enriched_df "price_per_gram";
  _ <~ setitem enriched_df "price_per_gram"
         (SNum (DataProcessor.replace_inf <$> ppg));
  w <~ getnum enriched_df "weight_in_gms";
  _ <~ setitem enriched_df "weight_category"
         (DataProcessor.cut w
            [Fin 0; Fin 100; Fin 500; Fin 1000; Fin 5000; PInf]
            DataProcessor.weight_labels);
  dsp <~ getnum enriched_df "discounted_selling_price";
  _ <~ setitem enriched_df "price_category"
         (DataProcessor.cut dsp
            [Fin 0; Fin 1000; Fin 5000; Fin 10000; Fin 50000; PInf]
            DataProcessor.price_labels);
  dp <~ getnum enriched_df "discount_percent";
  _ <~ setitem enriched_df "discount_category"
         (DataProcessor.cut dp
            [Fin 0; Fin 5; Fin 15; Fin 25; Fin 50; Fin 100]
            DataProcessor.discount_labels);
  ret enriched_df.

End Heap.

(** ** Vocabulary of the statements *)

Import DataProcessor.

(** What [round().astype(int)] stores for a value. *)
Definition stored_int (c : fval) : fval :=
  of_Z (match fround c with Fin q => Qtrunc q | _ => 0%Z end).

(** The columns that [validate_business_rules] computes, from the columns
    it reads. *)

(** The rows that rule 1 keeps: [~invalid_pricing]. *)
Definition keep_mask (mrp dsp : list fval) : list bool :=
  mask_not (zip_with flt mrp dsp).

Definition calc_column (mrp dsp : list fval) : list fval :=
  zip_with calculated_discount mrp dsp.

Definition mismatch_mask (mrp dsp dp : list fval) : list bool :=
  zip_with mismatch dp (calc_column mrp dsp).

(** [discount_percent] after rule 2. *)
Definition repaired_dp (mrp dsp dp : list fval) : list fval :=
  scatter (mismatch_mask mrp dsp dp)
    (stored_int <$> select (mismatch_mask mrp dsp dp) (calc_column mrp dsp)) dp.

Definition invalid_stock_mask (oos : series) (avail : list fval) : list bool :=
  mask_and (eq_bool true oos) ((fun a => fgt a (Fin 0)) <$> avail).

(** [available_quantity] after rule 3. *)
Definition zeroed_avail (oos : series) (avail : list fval) : list fval :=
  assign_where (invalid_stock_mask oos avail) (Fin 0) avail.

Definition zero_quantity_mask (oos : series) (avail : list fval) : list bool :=
  mask_and ((fun a => feq a (Fin 0)) <$> avail) (eq_bool false oos).

(** [out_of_stock] after rule 4, which reads the quantities of rule 3. *)
Definition flagged_oos (oos : series) (avail : list fval) : series :=
  assign_true (zero_quantity_mask oos (zeroed_avail oos avail)) oos.

(** The three invariants of a row, on its cells. *)
Definition price_invariant (mrp dsp : fval) : Prop := fge mrp dsp = true.

Definition discount_invariant (mrp dsp dp : fval) : Prop :=
  fle (fabs (fsub dp (fdiv (fmul (Fin 100) (fsub mrp dsp)) mrp))) (Fin 1) = true.

Definition stock_invariant (avail : fval) (oos : option bool) : Prop :=
  oos = Some (feq avail (Fin 0)).

(** A cell that holds a number equal to [c]. *)
Definition holds (c : Q) (x : fval) : Prop := exists q, x = Fin q /\ (q == c)%Q.

(** The names other than a given one. *)
Definition other_than (n : string) : string -> bool :=
  fun x => negb (String.eqb x n).

(** ** Sample tables *)

(** One row of the five columns that the rule engine reads. *)
Definition one_row (mrp dsp dp avail : fval) (oos : option bool) : frame :=
  mkFrame 1 [("mrp", SNum [mrp]);
             ("discounted_selling_price", SNum [dsp]);
             ("discount_percent", SNum [dp]);
             ("available_quantity", SNum [avail]);
             ("out_of_stock", SBool [oos])].

(** Scenario B of the specification. *)
Definition scenario_B : frame :=
  one_row (Fin 1000) (Fin 800) (Fin 5) (Fin 10) (Some false).

(** A product flagged out of stock with a negative quantity. *)
Definition negative_stock : frame :=
  one_row (Fin 1000) (Fin 800) (Fin 20) (Fin (-5)) (Some true).

(** A product whose mrp is missing. *)
Definition missing_mrp : frame :=
  one_row NaN (Fin 800) (Fin 20) (Fin 3) (Some false).

(** The catalog table with its nine columns and no row. *)
Definition empty_catalog : frame :=
  mkFrame 0 [("category", SStr []); ("name", SStr []); ("mrp", SNum []);
             ("discount_percent", SNum []); ("available_quantity", SNum []);
             ("discounted_selling_price", SNum []); ("weight_in_gms", SNum []);
             ("out_of_stock", SBool []); ("quantity", SNum [])].

(** The numbers read in a currency column once the rupee signs and the
    commas are removed, and the column that [clean_currency_values]
    leaves. *)
Definition parsed_currency (float_str : fval -> pystr) (parse_float : pystr -> fval)
    (s : series) : list fval :=
  (fun x => parse_float (str_remove comma (str_remove rupee x)))
    <$> astype_str float_str s.

Definition scaled_currency (float_str : fval -> pystr) (parse_float : pystr -> fval)
    (s : series) : list fval :=
  let xs := parsed_currency float_str parse_float s in
  if fgt (mean xs) (Fin 100) then xs else (fun x => fmul x (Fin 100)) <$> xs.

(** The rows that the normalizer keeps, from the parsed mrp,
    discounted_selling_price and discount_percent: the three filters of
    [transform_data], one after the other. *)
Definition essential_mask (mrp dsp : list fval) : list bool :=
  mask_not (mask_or (isnan <$> mrp) (isnan <$> dsp)).

Definition positive_mask (mrp dsp : list fval) : list bool :=
  mask_and ((fun x => fgt x (Fin 0)) <$> mrp) ((fun x => fgt x (Fin 0)) <$> dsp).

Definition discount_mask (dp : list fval) : list bool :=
  mask_and ((fun x => fge x (Fin 0)) <$> dp) ((fun x => fle x (Fin 100)) <$> dp).

Definition normalizer_mask (mrp dsp dp : list fval) : list bool :=
  mask_and (mask_and (essential_mask mrp dsp) (positive_mask mrp dsp))
           (discount_mask dp).

(** The rule of the specification, which lets a missing discount
    through. *)
Definition lenient_discount_mask (dp : list fval) : list bool :=
  (fun x => isnan x || (fge x (Fin 0) && fle x (Fin 100))) <$> dp.

Definition lenient_normalizer_mask (mrp dsp dp : list fval) : list bool :=
  mask_and (mask_and (essential_mask mrp dsp) (positive_mask mrp dsp))
           (lenient_discount_mask dp).

(** A numeric column of the raw table under its canonical name, as the
    normalizer parses it. *)
Definition parsed_column (parse_float : pystr -> fval) (raw : frame)
    (name : string) : list fval :=
  match assoc name (columns (Pipeline.rename Pipeline.column_mapping raw)) with
  | Some s => to_numeric parse_float s
  | None => []
  end.

(** A raw export of one product whose discount cell holds no number. *)
Definition undiscounted_raw : frame :=
  mkFrame 1 [("Category", SStr [Some (py "Fruits")]);
             ("name", SStr [Some (py "Apple")]);
             ("mrp", SNum [Fin 1000]);
             ("discountPercent", SStr [Some (py "n/a")]);
             ("availableQuantity", SNum [Fin 5]);
             ("discountedSellingPrice", SNum [Fin 800]);
             ("weightInGms", SNum [Fin 250]);
             ("outOfStock", SBool [Some false]);
             ("quantity", SNum [Fin 1])].

(** The order of the sorted values. *)
Definition fle_rel (a b : fval) : Prop := fle a b = true.

(** ** Binary64 *)

(** The operations of IEEE 754 binary64, rounding to nearest with ties to
    even, and the computations of [validate_business_rules],
    [clean_currency_values] and [detect_outliers] that rounding can
    decide, made with them. *)
Module Float64.

Definition f64 : Type := SpecFloat.spec_float.

Definition prec : Z := 53.
Definition emax : Z := 1024.

Definition of_Z (z : Z) : f64 := SpecFloat.binary_normalize prec emax z 0 false.

Definition add : f64 -> f64 -> f64 := SpecFloat.SFadd prec emax.
Definition sub : f64 -> f64 -> f64 := SpecFloat.SFsub prec emax.
Definition mul : f64 -> f64 -> f64 := SpecFloat.SFmul prec emax.
Definition div : f64 -> f64 -> f64 := SpecFloat.SFdiv prec emax.
Definition ltb : f64 -> f64 -> bool := SpecFloat.SFltb.
Definition leb : f64 -> f64 -> bool := SpecFloat.SFleb.

Definition abs : f64 -> f64 := SpecFloat.SFabs.
Definition sqrt : f64 -> f64 := SpecFloat.SFsqrt prec emax.

Definition isnan (x : f64) : bool :=
  match x with SpecFloat.S754_nan => true | _ => false end.

(** The binary64 number nearest to [n / d]: the float of the decimal
    literal [n / d] when [d] is a power of ten (0.4 is [ratio 4 10]). *)
Definition ratio (n d : Z) : f64 := div (of_Z n) (of_Z d).

(** The real number that a binary64 number is. *)
Definition exact (x : f64) : fval :=
  match x with
  | SpecFloat.S754_zero _ => Fin 0
  | SpecFloat.S754_infinity s => if s then NInf else PInf
  | SpecFloat.S754_nan => NaN
  | SpecFloat.S754_finite s m e =>
      Fin ((if s then - inject_Z (Zpos m) else inject_Z (Zpos m)) * 2 ^ e)
  end.

(** [((mrp - discounted_selling_price) / mrp) * 100] *)
Definition calculated_discount (mrp dsp : f64) : f64 :=
  mul (div (sub mrp dsp) mrp) (of_Z 100).

(** [abs(discount_percent - calculated_discount) > 1] *)
Definition mismatch (dp calc : f64) : bool :=
  ltb (of_Z 1) (abs (sub dp calc)).

Definition dropna (xs : list f64) : list f64 :=
  List.filter (fun x => negb (isnan x)) xs.

Definition fsum (xs : list f64) : f64 := foldl add (of_Z 0) xs.

(** [s.mean()]: the sum of the present values over their number. *)
Definition mean (xs : list f64) : f64 :=
  let v := dropna xs in
  match v with
  | [] => SpecFloat.S754_nan
  | _ => div (fsum v) (of_Z (Z.of_nat (length v)))
  end.

(** [s.std()]: the root of the sum of the squared deviations from the
    mean over the number of present values less one. *)
Definition std (xs : list f64) : f64 :=
  let v := dropna xs in
  let m := mean xs in
  match length v with
  | 0 | 1 => SpecFloat.S754_nan
  | S n =>
      sqrt (div (fsum ((fun x => mul (sub m x) (sub m x)) <$> v))
                (of_Z (Z.of_nat n)))
  end.

(** [np.abs((df[column] - df[column].mean()) / df[column].std()) > 3] *)
Definition zscore_mask (xs : list f64) : list bool :=
  let m := mean xs in
  let d := std xs in
  (fun x => ltb (of_Z 3) (abs (div (sub x m) d))) <$> xs.

Fixpoint insert_sorted (x : f64) (l : list f64) : list f64 :=
  match l with
  | [] => [x]
  | y :: r => if leb x y then x :: l else y :: insert_sorted x r
  end.

Definition sort (l : list f64) : list f64 := foldr insert_sorted [] l.

(** numpy's [_lerp]: [a + (b - a) * t], and [b - (b - a) * (1 - t)] where
    [t >= 0.5]. *)
Definition lerp (a b t : f64) : f64 :=
  let diff_b_a := sub b a in
  if leb (ratio 1 2) t then sub b (mul diff_b_a (sub (of_Z 1) t))
  else add a (mul diff_b_a t).

(** [s.quantile(q)].  The virtual index [(n - 1) * q] and its fractional
    part are computed as in [DataProcessor.quantile]; for the quartiles
    they are multiples of 1/4, which binary64 holds exactly. *)
Definition quantile (q : Q) (xs : list f64) : f64 :=
  let v := sort (dropna xs) in
  match v with
  | [] => SpecFloat.S754_nan
  | _ =>
      let n := length v in
      let virtual := (inject_Z (Z.of_nat (n - 1)) * q)%Q in
      let previous := Z.to_nat (Qfloor virtual) in
      let next := Nat.min (previous + 1) (n - 1) in
      let gamma := (virtual - inject_Z (Qfloor virtual))%Q in
      match v !! previous, v !! next with
      | Some a, Some b => lerp a b (ratio (Qnum gamma) (Zpos (Qden gamma)))
      | _, _ => SpecFloat.S754_nan
      end
  end.

Definition iqr_bounds (xs : list f64) : f64 * f64 :=
  let Q1 := quantile (1 # 4) xs in
  let Q3 := quantile (3 # 4) xs in
  let IQR := sub Q3 Q1 in
  let lower_bound := sub Q1 (mul (ratio 3 2) IQR) in
  let upper_bound := add Q3 (mul (ratio 3 2) IQR) in
  (lower_bound, upper_bound).

Definition iqr_mask (xs : list f64) : list bool :=
  let '(lower_bound, upper_bound) := iqr_bounds xs in
  mask_or ((fun x => ltb x lower_bound) <$> xs)
          ((fun x => ltb upper_bound x) <$> xs).

End Float64.

(** ** Vocabulary of the amended statements *)

(** A margin far above the rounding error that binary64 makes on the
    calculated discount of a row whose prices are in order (that error is
    below 10^-13). *)
Definition rounding_margin : Q := 1 # 1000000000.

(** [|dp - 100*(mrp - dsp)/mrp| <= tol] *)
Definition discount_within (tol mrp dsp dp : Q) : Prop :=
  (Qabs (dp - 100 * (mrp - dsp) / mrp) <= tol)%Q.

(** The prices of a row are in order: numbers with [0 < mrp] and
    [0 <= dsp <= mrp]. *)
Definition ordered_prices (mrp dsp : fval) : Prop :=
  exists m d : Q,
    mrp = Fin m /\ dsp = Fin d /\ (0 < m)%Q /\ (0 <= d)%Q /\ (d <= m)%Q.

(** A cell that is missing or holds a whole number of magnitude at most
    [b]. *)
Definition whole_within (b : Z) (x : fval) : Prop :=
  x = NaN \/ exists z : Z, holds (inject_Z z) x /\ (Z.abs z <= b)%Z.

(** The fences of the IQR rule, from the quartiles. *)
Definition lower_fence (q1 q3 : Q) : Q := q1 - (3 # 2) * (q3 - q1).
Definition upper_fence (q1 q3 : Q) : Q := q3 + (3 # 2) * (q3 - q1).

(** ** More sample tables *)

(** Three products: the first needs rules 2 and 3, the second is removed
    by rule 1, the third needs rule 4. *)
Definition three_products : frame :=
  mkFrame 3 [("mrp", SNum [Fin 1000; Fin 500; Fin 200]);
             ("discounted_selling_price", SNum [Fin 800; Fin 600; Fin 100]);
             ("discount_percent", SNum [Fin 5; Fin 0; Fin 50]);
             ("available_quantity", SNum [Fin 10; Fin 1; Fin 0]);
             ("out_of_stock", SBool [Some true; Some false; Some false])].

Definition three_products_repaired : frame :=
  mkFrame 2 [("mrp", SNum [Fin 1000; Fin 200]);
             ("discounted_selling_price", SNum [Fin 800; Fin 100]);
             ("discount_percent", SNum [Fin 20; Fin 50]);
             ("available_quantity", SNum [Fin 0; Fin 0]);
             ("out_of_stock", SBool [Some true; Some true])].

(** The row of scenario B, followed by a row whose mrp is 0 and whose
    selling price is negative. *)
Definition zero_mrp : frame :=
  mkFrame 2 [("mrp", SNum [Fin 1000; Fin 0]);
             ("discounted_selling_price", SNum [Fin 800; Fin (-1)]);
             ("discount_percent", SNum [Fin 5; Fin 0]);
             ("available_quantity", SNum [Fin 10; Fin 1]);
             ("out_of_stock", SBool [Some false; Some false])].

(** The prices 0.4, 1.8, 0.3, 1.6 and 3.9: as decimals, and as the
    binary64 numbers that the program holds for them. *)
Definition boundary_decimals : list Q :=
  [4 # 10; 18 # 10; 3 # 10; 16 # 10; 39 # 10].

Definition boundary_prices : list Float64.f64 :=
  (fun q => Float64.ratio (Qnum q) (Zpos (Qden q))) <$> boundary_decimals.

(** Three times the binary64 number 0.1 * 2^-500, about 3.1e-152. *)
Definition tiny_constant : list Float64.f64 :=
  replicate 3 (Float64.div (Float64.ratio 1 10) (Float64.of_Z (2 ^ 500))).

(** The prices 128.02 and 71.98 in binary64. *)
Definition hundred_mean : list Float64.f64 :=
  [Float64.ratio 12802 100; Float64.ratio 7198 100].

(** A column of five whole numbers, the last one far from the others. *)
Definition spread_column : frame :=
  mkFrame 5 [("mrp", SNum [Fin 1; Fin 2; Fin 3; Fin 4; Fin 100])].

(** *** Sample conversions *)

(** [astype(str)] on a float64 column, for a float that holds a whole
    number: its digits and ".0" ([str(100.0)] is ['100.0']). *)
Definition whole_str (x : fval) : pystr :=
  match x with
  | NaN => py "nan"
  | PInf => py "inf"
  | NInf => py "-inf"
  | Fin q => py (pretty (Qfloor q)) ++ py ".0"
  end.

(** [pd.to_numeric(errors='coerce')] on an unsigned decimal numeral, digits
    with at most one point; any other text is read as NaN here. *)
Fixpoint read_digits (s : pystr) (num : Z) (den : option positive) (seen : bool)
  : fval :=
  match s with
  | [] =>
      if seen then Fin (Qred (num # default 1%positive den)) else NaN
  | c :: r =>
      if N.eqb c 46 then
        match den with
        | None => read_digits r num (Some 1%positive) seen
        | Some _ => NaN
        end
      else if (N.leb 48 c && N.leb c 57)%bool then
        read_digits r (10 * num + Z.of_N (c - 48))%Z
          (option_map (fun d => (10 * d)%positive) den) true
      else NaN
  end.

Definition read_decimal (s : pystr) : fval := read_digits s 0%Z None false.

(** A price column in rupees, one rupee each. *)
Definition one_rupee_prices : frame :=
  mkFrame 2 [("mrp", SStr [Some (rupee :: py "1.00");
                           Some (rupee :: py "1.00")])].

(** Two price columns as texts, the first in rupees, the second in
    paise. *)
Definition price_texts : frame :=
  mkFrame 2 [("mrp", SStr [Some (rupee :: py "50.00");
                           Some (rupee :: py "120.00")]);
             ("discounted_selling_price",
              SStr [Some (py "1,250"); Some (py "80")])].

(** ** Vocabulary of the further properties *)

(** The spellings that [category_mapping] replaces by another one. *)
Definition noncanonical : list pystr :=
  fst <$> List.filter (fun kv => negb (bool_decide (fst kv = snd kv)))
            category_mapping.

(** A text without leading or trailing whitespace. *)
Definition stripped (s : pystr) : Prop := py_strip s = s.

(** A table whose categories need standardizing. *)
Definition messy_categories : frame :=
  mkFrame 3 [("category",
              SStr [Some (py "  Fruits and Vegetables "); None;
                    Some (py "Dairy ")]);
             ("mrp", SNum [Fin 1000; Fin 2000; Fin 3000])].

(** The columns that [enrich_data] adds. *)
Definition derived_columns : list string :=
  ["savings_amount"; "price_per_gram"; "weight_category"; "price_category";
   "discount_category"].

(** The text cells of a column, where it is one. *)
Definition str_at (name : string) (df : frame) (i : nat)
  : option (option pystr) :=
  match assoc name (columns df) with
  | Some (SStr xs) => xs !! i
  | _ => None
  end.

(** Two products: one discounted, one sold at full price with no weight
    on record. *)
Definition sample_products : frame :=
  mkFrame 2 [("mrp", SNum [Fin 1000; Fin 500]);
             ("discounted_selling_price", SNum [Fin 800; Fin 500]);
             ("weight_in_gms", SNum [Fin 250; Fin 0]);
             ("discount_percent", SNum [Fin 20; Fin 0])].

(** A cell that is missing or holds a number equal to [c]. *)
Definition missing_or (c : Q) (x : fval) : Prop := x = NaN \/ holds c x.

(** The sum of the counts of a distribution. *)
Definition total_count (d : list (cell * Z)) : Z :=
  foldr Z.add 0%Z (snd <$> d).

(** A column in which no present value is an infinity. *)
Definition no_infinity (xs : list fval) : Prop :=
  Forall (fun x => x = NaN \/ isfinite x = true) xs.

(** A column of the raw table under its canonical name. *)
Definition raw_column (raw : frame) (name : string) : option series :=
  assoc name (columns (Pipeline.rename Pipeline.column_mapping raw)).

(** The nine columns of the catalog, under their canonical names. *)
Definition catalog_columns : list string :=
  ["category"; "name"; "mrp"; "discount_percent"; "available_quantity";
   "discounted_selling_price"; "weight_in_gms"; "out_of_stock"; "quantity"].

(** What the normalizer stores for a text column and for the stock flag,
    before it filters the rows. *)
Definition cleaned_text (float_str : fval -> pystr) (s : series)
  : list (option pystr) :=
  (fun x => Some (py_strip x)) <$> astype_str float_str s.

Definition filled_flags (s : series) : list (option bool) :=
  (fun x => Some (default false x)) <$> Pipeline.map_bool s.

(** A table whose out_of_stock column holds booleans or missing cells. *)
Definition has_flags (df : frame) : Prop :=
  exists xs, assoc "out_of_stock" (columns df) = Some (SBool xs).

(** The rows that the normalizer keeps, and the cells that it stores for
    the text columns and for the stock flag of the raw table. *)
Definition kept_rows (parse_float : pystr -> fval) (raw : frame) : list bool :=
  normalizer_mask (parsed_column parse_float raw "mrp")
                  (parsed_column parse_float raw "discounted_selling_price")
                  (parsed_column parse_float raw "discount_percent").

Definition text_column (float_str : fval -> pystr) (raw : frame)
    (name : string) : list (option pystr) :=
  match raw_column raw name with
  | Some s => cleaned_text float_str s
  | None => []
  end.

Definition flag_column (raw : frame) : list (option bool) :=
  match raw_column raw "out_of_stock" with
  | Some s => filled_flags s
  | None => []
  end.

(** A normalized table: what [transform_data] returns.  The nine catalog
    columns are there under their canonical names, typed and complete,
    with prices above 0 and discounts between 0 and 100. *)
Definition normalized (df : frame) : Prop :=
  wf_frame df /\
  Forall (fun n => Pipeline.renamed Pipeline.column_mapping n = n)
         (column_names df) /\
  exists cat name mrp dp aq dsp w oos q,
    (assoc "category" (columns df) = Some (SStr cat) /\
     Forall (fun x => exists t, x = Some t /\ stripped t) cat) /\
    (assoc "name" (columns df) = Some (SStr name) /\
     Forall (fun x => exists t, x = Some t /\ stripped t) name) /\
    (assoc "mrp" (columns df) = Some (SNum mrp) /\
     Forall (fun x => fgt x (Fin 0) = true) mrp) /\
    (assoc "discount_percent" (columns df) = Some (SNum dp) /\
     Forall (fun x => fge x (Fin 0) = true /\ fle x (Fin 100) = true) dp) /\
    (assoc "available_quantity" (columns df) = Some (SNum aq) /\
     Forall (fun x => isnan x = false) aq) /\
    (assoc "discounted_selling_price" (columns df) = Some (SNum dsp) /\
     Forall (fun x => fgt x (Fin 0) = true) dsp) /\
    (assoc "weight_in_gms" (columns df) = Some (SNum w) /\
     Forall (fun x => isnan x = false) w) /\
    (assoc "out_of_stock" (columns df) = Some (SBool oos) /\
     Forall (fun x => exists b : bool, x = Some b) oos) /\
    (assoc "quantity" (columns df) = Some (SNum q) /\
     Forall (fun x => isnan x = false) q).

(** A raw export of two products: the first lacks its quantity on hand
    and its stock flag, the second its category. *)
Definition raw_sample : frame :=
  mkFrame 2 [("Category", SStr [Some (py " Fruits "); None]);
             ("name", SStr [Some (py "Apple"); Some (py "Pear")]);
             ("mrp", SNum [Fin 1000; Fin 600]);
             ("discountPercent", SNum [Fin 20; Fin 10]);
             ("availableQuantity", SNum [NaN; Fin 3]);
             ("discountedSellingPrice", SNum [Fin 800; Fin 500]);
             ("weightInGms", SNum [Fin 250; Fin 100]);
             ("outOfStock", SBool [None; Some false]);
             ("quantity", SNum [Fin 1; Fin 1])].

(** ** etl_pipeline.py: the loader

    [load_data] writes the rows of a table to the database through a
    psycopg2 connection.  The connection is modelled by the rows of the
    [zepto] table as they are committed and as the open transaction sees
    them: psycopg2 runs the statements of a connection in a transaction,
    [commit] makes its changes durable and [rollback] discards them.  A
    row of the table is represented by the tuple that was inserted for
    it.  Which tuples the table accepts (its types and its NOT NULL
    constraints, as the database applies them to the values sent) is left
    to a predicate; creating the table, which changes no row, is taken to
    succeed. *)

Module Loader.

Definition tuple : Type := list cell.

(** The cell of a row in [df[columns].values]: a missing cell of a
    boolean or text column is NaN. *)
Definition value_at (s : series) (i : nat) : cell :=
  match s with
  | SNum xs => CNum (default NaN (xs !! i))
  | SBool xs =>
      match xs !! i with Some (Some b) => CBool b | _ => CNum NaN end
  | SStr xs =>
      match xs !! i with Some (Some t) => CStr t | _ => CNum NaN end
  end.

(** [df[names]]: KeyError when a name is no column of the table. *)
Fixpoint get_cols (names : list string) (df : frame) : result (list series) :=
  match names with
  | [] => Ok []
  | n :: rest =>
      s <- get_col n df;
      ss <- get_cols rest df;
      Ok (s :: ss)
  end.

Definition load_columns : list string :=
  ["category"; "name"; "mrp"; "discount_percent"; "available_quantity";
   "discounted_selling_price"; "weight_in_gms"; "out_of_stock"; "quantity"].

(** [[tuple(row) for row in df[columns].values]] *)
Definition data_tuples (df : frame) : result (list tuple) :=
  cols <- get_cols load_columns df;
  Ok ((fun i => (fun s => value_at s i) <$> cols) <$> seq 0 (nrows df)).

(** [range(0, stop, step)]: a zero step raises ValueError, a negative one
    gives no index. *)
Definition py_range (stop : nat) (step : Z) : result (list nat) :=
  if (step =? 0)%Z then Raise ValueError
  else if (step <? 0)%Z then Ok []
  else
    let s := Z.to_nat step in
    Ok ((fun j => j * s) <$> seq 0 ((stop + s - 1) / s)).

(** [data[i:j]] for [0 <= i <= j]. *)
Definition slice {A} (data : list A) (i j : nat) : list A :=
  take (j - i) (skipn i data).

(** The batches of the loop
    [for i in range(0, len(data), batch_size): data[i:i + batch_size]]. *)
Definition batches {A} (data : list A) (batch_size : Z)
  : result (list (list A)) :=
  starts <- py_range (length data) batch_size;
  Ok ((fun i => slice data i (i + Z.to_nat batch_size)) <$> starts).

Record connection : Type := mkConnection {
  committed : list tuple;
  working : list tuple
}.

Definition commit (c : connection) : connection :=
  mkConnection (working c) (working c).

Definition rollback (c : connection) : connection :=
  mkConnection (committed c) (committed c).

(** [TRUNCATE TABLE zepto RESTART IDENTITY] *)
Definition truncate (c : connection) : connection :=
  mkConnection (committed c) [].

(** What a call ends with: a returned value, a Python exception of the
    code, or an error of the database. *)
Inductive failure : Type :=
  | PythonError (e : exn)
  | DatabaseError.

Inductive outcome : Type :=
  | Returned (b : bool)
  | Failed (f : failure).

Section Database.

Variable accepts : tuple -> bool.

(** [execute_values(cursor, insert_sql, batch, page_size=batch_size)]: one
    INSERT statement for the batch, which has at most [page_size] rows. *)
Definition execute_values (c : connection) (batch : list tuple)
  : option connection :=
  if forallb accepts batch
  then Some (mkConnection (committed c) (working c ++ batch))
  else None.

(** The loop over the batches; it stops at the first error. *)
Fixpoint insert_batches (c : connection) (bs : list (list tuple))
  : option connection :=
  match bs with
  | [] => Some c
  | batch :: rest =>
      match execute_values c batch with
      | Some c' => insert_batches c' rest
      | None => None
      end
  end.

Definition load_data (c : connection) (df : frame) (batch_size : Z)
  : connection * outcome :=
  (* Create table if it doesn't exist *)
  let c := commit c in
  (* Clear existing data *)
  let c := truncate c in
  (* Convert DataFrame to list of tuples *)
  match data_tuples df with
  | Raise e => (rollback c, Failed (PythonError e))
  | Ok data =>
      (* Insert data in batches *)
      match batches data batch_size with
      | Raise e => (rollback c, Failed (PythonError e))
      | Ok bs =>
          match insert_batches c bs with
          | Some c' => (commit c', Returned true)
          | None => (rollback c, Failed DatabaseError)
          end
      end
  end.

End Database.

End Loader.

(** The rows that a table sends to the database. *)
Definition rows_sent (df : frame) : list Loader.tuple :=
  match Loader.data_tuples df with
  | Ok data => data
  | Raise _ => []
  end.

(** The normalized form of [raw_sample], as a table to load. *)
Definition catalog_sample : frame :=
  mkFrame 3 [("category", SStr [Some (py "Fruits"); Some (py "Dairy");
                                Some (py "Snacks")]);
             ("name", SStr [Some (py "Apple"); Some (py "Milk");
                            Some (py "Chips")]);
             ("mrp", SNum [Fin 1000; Fin 600; Fin 200]);
             ("discount_percent", SNum [Fin 20; Fin 10; Fin 0]);
             ("available_quantity", SNum [Fin 0; Fin 3; Fin 7]);
             ("discounted_selling_price", SNum [Fin 800; Fin 540; Fin 200]);
             ("weight_in_gms", SNum [Fin 250; Fin 1000; Fin 50]);
             ("out_of_stock", SBool [Some true; Some false; Some false]);
             ("quantity", SNum [Fin 1; Fin 1; Fin 2])].

(** A database connection with nothing pending, its table holding the
    given rows. *)
Definition clean_connection (rows : list Loader.tuple) : Loader.connection :=
  Loader.mkConnection rows rows.

(** The columns that [enrich_data] reads, and those that
    [validate_business_rules] reads. *)
Definition enrich_inputs : list string :=
  ["mrp"; "discounted_selling_price"; "weight_in_gms"; "discount_percent"].


(** * Properties *)

(** ** Rationals and floats *)

Lemma Qltb_lt (x y : Q) : Qltb x y = true <-> (x < y)%Q.
Proof.
  unfold Qltb. rewrite negb_true_iff.
  destruct (Qle_bool y x) eqn:E.
  - apply Qle_bool_iff in E. split; [discriminate | intros H; lra].
  - split; [intros _ | reflexivity].
    destruct (Qlt_le_dec x y) as [H | H]; [exact H |].
    apply Qle_bool_iff in H. congruence.
Qed.

Lemma Qltb_ge (x y : Q) : Qltb x y = false <-> (y <= x)%Q.
Proof.
  unfold Qltb. rewrite negb_false_iff. apply Qle_bool_iff.
Qed.

Lemma Qzero_eq (x : Q) : Qzero x = true <-> (x == 0)%Q.
Proof. unfold Qzero. apply Qeq_bool_iff. Qed.

Lemma Qzero_neq (x : Q) : Qzero x = false <-> ~ (x == 0)%Q.
Proof.
  rewrite <- Qzero_eq. destruct (Qzero x); split; congruence.
Qed.

Lemma Qtrunc_inject_Z (z : Z) : Qtrunc (inject_Z z) = z.
Proof. unfold Qtrunc. simpl. apply Z.quot_1_r. Qed.

(** The rounded value is within one half of the number. *)
Lemma round_half_even_close (q : Q) :
  (Qabs (inject_Z (round_half_even q) - q) <= 1 # 2)%Q.
Proof.
  unfold round_half_even.
  pose proof (Qfloor_le q) as Hlo.
  pose proof (Qlt_floor q) as Hhi.
  rewrite inject_Z_plus in Hhi. change (inject_Z 1) with 1%Q in Hhi.
  apply Qabs_Qle_condition.
  destruct (Qcompare_spec (q - inject_Z (Qfloor q)) (1 # 2)) as [E | E | E].
  - destruct (Z.even (Qfloor q)).
    + split; lra.
    + rewrite inject_Z_plus. change (inject_Z 1) with 1%Q. split; lra.
  - split; lra.
  - rewrite inject_Z_plus. change (inject_Z 1) with 1%Q. split; lra.
Qed.

Lemma fround_fin (q : Q) : fround (Fin q) = of_Z (round_half_even q).
Proof. reflexivity. Qed.

(** ** Masks, selection and assignment *)

Section Lists.
Context {A B C : Type}.
Implicit Types (m : list bool) (xs : list A) (ys : list B).

Lemma mask_sum_cons b m :
  mask_sum (b :: m) = (if b then S (mask_sum m) else mask_sum m).
Proof. unfold mask_sum. simpl. by destruct b. Qed.

Lemma mask_any_cons b m : mask_any (b :: m) = b || mask_any m.
Proof. reflexivity. Qed.

Lemma mask_any_false_lookup m (i : nat) :
  mask_any m = false -> m !! i = Some true -> False.
Proof.
  revert i. induction m as [| b m IH]; intros i H Hi; [done |].
  rewrite mask_any_cons in H. apply orb_false_iff in H as [Hb Hm].
  destruct i as [| i]; simpl in Hi.
  - congruence.
  - eauto.
Qed.

Lemma mask_any_false_intro m :
  (forall i, m !! i = Some true -> False) -> mask_any m = false.
Proof.
  induction m as [| b m IH]; intros H; [done |].
  rewrite mask_any_cons. apply orb_false_iff. split.
  - destruct b; [| done]. exfalso. apply (H 0%nat). done.
  - apply IH. intros i Hi. apply (H (S i)). done.
Qed.

Lemma mask_any_false_sum m : mask_any m = false -> mask_sum m = 0.
Proof.
  induction m as [| b m IH]; [done |].
  rewrite mask_any_cons, mask_sum_cons. intros H.
  apply orb_false_iff in H as [-> Hm]. auto.
Qed.

Lemma select_nil_r m : select m (@nil A) = [].
Proof. by destruct m. Qed.

Lemma length_select m xs :
  length m <= length xs -> length (select m xs) = mask_sum m.
Proof.
  revert xs. induction m as [| b m IH]; intros xs H; [done |].
  destruct xs as [| x xs]; simpl in H; [lia |].
  rewrite mask_sum_cons. simpl. destruct b; simpl; rewrite IH; lia.
Qed.

Lemma select_fmap (f : A -> B) m xs : select m (f <$> xs) = f <$> select m xs.
Proof.
  revert xs. induction m as [| b m IH]; intros [| x xs]; simpl; try done.
  destruct b; simpl; by rewrite IH.
Qed.

Lemma select_zip_with (f : A -> B -> C) m xs ys :
  select m (zip_with f xs ys) = zip_with f (select m xs) (select m ys).
Proof.
  revert xs ys. induction m as [| b m IH]; intros [| x xs] [| y ys]; simpl;
    try done.
  - destruct b; simpl; by destruct (select m xs).
  - destruct b; simpl; by rewrite IH.
Qed.

(** Selecting with the negation of a mask that holds nowhere keeps all. *)
Lemma select_all m xs :
  mask_any m = false -> length xs <= length m -> select (mask_not m) xs = xs.
Proof.
  revert xs. induction m as [| b m IH]; intros [| x xs] H Hl; try done.
  - simpl in Hl. lia.
  - rewrite mask_any_cons in H. apply orb_false_iff in H as [-> Hm].
    simpl. f_equal. apply IH; [done | simpl in Hl; lia].
Qed.

Lemma mask_sum_not_all m : mask_any m = false -> mask_sum (mask_not m) = length m.
Proof.
  induction m as [| b m IH]; [done |].
  rewrite mask_any_cons. intros H. apply orb_false_iff in H as [-> Hm].
  simpl. rewrite mask_sum_cons. simpl. f_equal. auto.
Qed.

(** A selected element comes from a place where the mask holds. *)
Lemma select_lookup m xs (j : nat) (x : A) :
  select m xs !! j = Some x ->
  exists i, m !! i = Some true /\ xs !! i = Some x.
Proof.
  revert xs j. induction m as [| b m IH]; intros [| y xs] j H; simpl in H;
    try done.
  destruct b.
  - destruct j as [| j]; simpl in H.
    + exists 0. by inversion H.
    + destruct (IH _ _ H) as (i & ? & ?). by exists (S i).
  - destruct (IH _ _ H) as (i & ? & ?). by exists (S i).
Qed.

(** Two columns selected by one mask stay aligned. *)
Lemma select_lookup2 m xs ys (j : nat) (x : A) (y : B) :
  select m xs !! j = Some x -> select m ys !! j = Some y ->
  exists i, m !! i = Some true /\ xs !! i = Some x /\ ys !! i = Some y.
Proof.
  revert xs ys j. induction m as [| b m IH]; intros [| x0 xs] [| y0 ys] j Hx Hy;
    simpl in Hx, Hy; try done.
  destruct b.
  - destruct j as [| j]; simpl in Hx, Hy.
    + exists 0. inversion Hx; inversion Hy; by subst.
    + destruct (IH _ _ _ Hx Hy) as (i & ? & ? & ?). by exists (S i).
  - destruct (IH _ _ _ Hx Hy) as (i & ? & ? & ?). by exists (S i).
Qed.

Lemma length_scatter m (vals old : list A) : length (scatter m vals old) = length old.
Proof.
  revert vals old. induction m as [| b m IH]; intros vals [| x old]; simpl;
    try done.
  - by destruct b.
  - destruct b; [destruct vals |]; simpl; by rewrite IH.
Qed.

Lemma scatter_none m (vals old : list A) :
  mask_any m = false -> scatter m vals old = old.
Proof.
  revert old. induction m as [| b m IH]; intros [| x old] H; try done.
  - by destruct b.
  - rewrite mask_any_cons in H. apply orb_false_iff in H as [-> Hm].
    simpl. f_equal. auto.
Qed.

(** Reading back an assignment [old[m] = f(src[m])]. *)
Lemma scatter_select_lookup (f : B -> A) m ys (old : list A)
    (i : nat) (b : bool) (y : B) (x : A) :
  m !! i = Some b -> ys !! i = Some y -> old !! i = Some x ->
  scatter m (f <$> select m ys) old !! i = Some (if b then f y else x).
Proof.
  revert ys old i. induction m as [| b0 m IH]; intros [| y0 ys] [| x0 old] i;
    try done.
  destruct i as [| i]; simpl.
  - intros [= ->] [= ->] [= ->]. by destruct b.
  - intros Hm Hy Hx. destruct b0; simpl; eauto.
Qed.

(** A cell after an assignment is the old cell or one of the values. *)
Lemma scatter_lookup_cases m (vals old : list A) (i : nat) (x : A) :
  scatter m vals old !! i = Some x -> old !! i = Some x \/ x ∈ vals.
Proof.
  revert vals old i. induction m as [| b m IH]; intros vals [| x0 old] i H;
    try (by left).
  - destruct b; by left.
  - destruct b.
    + destruct vals as [| v vs]; simpl in H.
      * destruct i as [| i]; [by left |]. simpl in *.
        destruct (IH _ _ _ H) as [? | ?]; [by left | by right].
      * destruct i as [| i]; simpl in *.
        { injection H as <-. right. left. }
        destruct (IH _ _ _ H) as [? | ?]; [by left | right; by right].
    + simpl in H. destruct i as [| i]; [by left |]. simpl in *. eauto.
Qed.

Lemma assign_where_lookup m (v : A) (old : list A) (i : nat) (b : bool) (x : A) :
  m !! i = Some b -> old !! i = Some x ->
  assign_where m v old !! i = Some (if b then v else x).
Proof.
  unfold assign_where. revert old i.
  induction m as [| b0 m IH]; intros [| x0 old] i; try done.
  rewrite mask_sum_cons.
  destruct i as [| i]; simpl.
  - intros [= ->] [= ->]. by destruct b.
  - intros Hm Hx. destruct b0; simpl; eauto.
Qed.

Lemma length_assign_where m (v : A) (old : list A) :
  length (assign_where m v old) = length old.
Proof. apply length_scatter. Qed.

Lemma assign_where_none m (v : A) (old : list A) :
  mask_any m = false -> assign_where m v old = old.
Proof. apply scatter_none. Qed.

End Lists.

(** ** Exceptions *)

Lemma bind_Ok {A B} (m : result A) (f : A -> result B) (b : B) :
  bind m f = Ok b -> exists a, m = Ok a /\ f a = Ok b.
Proof. destruct m as [a | e]; simpl; [eauto | discriminate]. Qed.

Tactic Notation "inv_bind" hyp(H) "as" ident(a) ident(Ha) :=
  apply bind_Ok in H as (a & Ha & H).

(** ** Columns by name *)

Section Assoc.
Implicit Types (n : string) (s : series) (cs : list (string * series)).

Lemma assoc_set_eq n s cs : assoc n (assoc_set n s cs) = Some s.
Proof.
  induction cs as [| [n0 s0] cs IH]; simpl.
  - by rewrite String.eqb_refl.
  - destruct (String.eqb n0 n) eqn:E; simpl; by rewrite E.
Qed.

Lemma assoc_set_ne n n' s cs :
  n <> n' -> assoc n' (assoc_set n s cs) = assoc n' cs.
Proof.
  intros Hne. induction cs as [| [n0 s0] cs IH]; simpl.
  - apply String.eqb_neq in Hne. by rewrite Hne.
  - destruct (String.eqb n0 n) eqn:E; simpl.
    + apply String.eqb_eq in E as ->.
      apply String.eqb_neq in Hne. by rewrite Hne.
    + by rewrite IH.
Qed.

Lemma assoc_set_id n s cs : assoc n cs = Some s -> assoc_set n s cs = cs.
Proof.
  induction cs as [| [n0 s0] cs IH]; simpl; [done |].
  destruct (String.eqb n0 n) eqn:E.
  - by intros [= ->].
  - intros H. by rewrite IH.
Qed.

Lemma assoc_del_eq n cs : assoc n (assoc_del n cs) = None.
Proof.
  induction cs as [| [n0 s0] cs IH]; simpl; [done |].
  destruct (String.eqb n0 n) eqn:E; simpl; [done |]. by rewrite E.
Qed.

Lemma assoc_del_ne n n' cs : n <> n' -> assoc n' (assoc_del n cs) = assoc n' cs.
Proof.
  intros Hne. induction cs as [| [n0 s0] cs IH]; simpl; [done |].
  destruct (String.eqb n0 n) eqn:E; simpl.
  - apply String.eqb_eq in E as ->.
    apply String.eqb_neq in Hne. by rewrite Hne.
  - by rewrite IH.
Qed.

Lemma assoc_del_absent n cs : assoc n cs = None -> assoc_del n cs = cs.
Proof.
  induction cs as [| [n0 s0] cs IH]; simpl; [done |].
  destruct (String.eqb n0 n) eqn:E; simpl; [done |].
  intros H. by rewrite IH.
Qed.

(** Adding a scratch column and dropping it again changes nothing. *)
Lemma assoc_del_set_absent n s cs :
  assoc n cs = None -> assoc_del n (assoc_set n s cs) = cs.
Proof.
  induction cs as [| [n0 s0] cs IH]; simpl.
  - by rewrite String.eqb_refl.
  - destruct (String.eqb n0 n) eqn:E; simpl; [done |].
    intros H. rewrite E. simpl. by rewrite IH.
Qed.

Lemma assoc_del_set_ne n n' s cs :
  n <> n' -> assoc n' cs <> None ->
  assoc_del n (assoc_set n' s cs) = assoc_set n' s (assoc_del n cs).
Proof.
  intros Hne. induction cs as [| [n0 s0] cs IH]; simpl; [done |].
  destruct (String.eqb n0 n') eqn:E'; simpl.
  - apply String.eqb_eq in E' as ->. intros _.
    assert (String.eqb n' n = false) as -> by (apply String.eqb_neq; congruence).
    simpl. by rewrite String.eqb_refl.
  - intros H. destruct (String.eqb n0 n) eqn:E; simpl.
    + by apply IH.
    + rewrite E'. f_equal. by apply IH.
Qed.

Lemma assoc_fmap (f : series -> series) n cs :
  assoc n (prod_map id f <$> cs) = f <$> assoc n cs.
Proof.
  induction cs as [| [n0 s0] cs IH]; simpl; [done |].
  by destruct (String.eqb n0 n).
Qed.

Lemma assoc_elem n cs : n ∈ cs.*1 <-> assoc n cs <> None.
Proof.
  induction cs as [| [n0 s0] cs IH]; simpl.
  - rewrite elem_of_nil. split; [tauto | congruence].
  - rewrite elem_of_cons. destruct (String.eqb n0 n) eqn:E.
    + apply String.eqb_eq in E. split; [discriminate | intros _; by left].
    + apply String.eqb_neq in E. rewrite IH. split; [| tauto].
      intros [-> | H]; [congruence | exact H].
Qed.

Lemma names_assoc_set n s cs :
  assoc n cs <> None -> (assoc_set n s cs).*1 = cs.*1.
Proof.
  induction cs as [| [n0 s0] cs IH]; simpl; [done |].
  destruct (String.eqb n0 n) eqn:E; simpl; [done |].
  intros H. f_equal. by apply IH.
Qed.

End Assoc.

Lemma has_col_assoc n df : has_col n df = true <-> assoc n (columns df) <> None.
Proof.
  unfold has_col, column_names. rewrite bool_decide_eq_true. apply assoc_elem.
Qed.

Lemma has_col_false n df : has_col n df = false <-> assoc n (columns df) = None.
Proof.
  pose proof (has_col_assoc n df) as [H1 H2].
  destruct (has_col n df), (assoc n (columns df)); split; try done.
  - intros _. by destruct H1.
  - intros _. by discriminate H2.
Qed.

Lemma get_col_Ok n df s : get_col n df = Ok s <-> assoc n (columns df) = Some s.
Proof.
  unfold get_col. destruct (assoc n (columns df)); naive_solver.
Qed.

Lemma get_num_Ok n df xs :
  get_num n df = Ok xs <-> assoc n (columns df) = Some (SNum xs).
Proof.
  unfold get_num, get_col.
  destruct (assoc n (columns df)) as [[| |] |]; simpl; naive_solver.
Qed.

Lemma wf_assoc df n s : wf_frame df -> assoc n (columns df) = Some s -> slen s = nrows df.
Proof.
  unfold wf_frame. generalize (nrows df) as k. intros k.
  induction (columns df) as [| [n0 s0] cs IH]; simpl; [done |].
  intros H. apply Forall_cons in H as [H0 H].
  destruct (String.eqb n0 n); [by intros [= <-] | auto].
Qed.

Lemma select_series_all m s :
  mask_any m = false -> slen s <= length m -> select_series (mask_not m) s = s.
Proof.
  intros Hm. destruct s; simpl; intros Hl; f_equal; by apply select_all.
Qed.

Lemma slen_select_series m s :
  length m <= slen s -> slen (select_series m s) = mask_sum m.
Proof. destruct s; simpl; apply length_select. Qed.

Lemma select_rows_all m df :
  wf_frame df -> mask_any m = false -> length m = nrows df ->
  select_rows (mask_not m) df = df.
Proof.
  intros Hwf Hm Hl. destruct df as [k cs]. unfold select_rows, wf_frame in *.
  simpl in *. f_equal.
  - rewrite mask_sum_not_all; done.
  - induction cs as [| [n0 s0] cs IH]; simpl; [done |].
    apply Forall_cons in Hwf as [H0 H]. simpl in H0.
    f_equal; [| by apply IH].
    unfold prod_map. simpl. f_equal.
    apply select_series_all; [done | lia].
Qed.

Lemma wf_select_rows m df :
  wf_frame df -> length m = nrows df -> wf_frame (select_rows m df).
Proof.
  unfold wf_frame, select_rows. simpl. intros Hwf Hl.
  apply Forall_fmap. eapply Forall_impl; [exact Hwf |].
  intros [n s] Hs. simpl in *. apply slen_select_series. lia.
Qed.

Ltac assoc_simpl :=
  repeat first
    [ rewrite assoc_set_eq
    | rewrite assoc_del_eq
    | rewrite assoc_set_ne by discriminate
    | rewrite assoc_del_ne by discriminate ].

(** ** The four rules, one by one *)


Lemma stored_int_fin (q : Q) : stored_int (Fin q) = of_Z (round_half_even q).
Proof. unfold stored_int. simpl. by rewrite Qtrunc_inject_Z. Qed.

Lemma astype_int_Ok (xs : list fval) (zs : list Z) :
  astype_int (fround <$> xs) = Ok zs ->
  of_Z <$> zs = stored_int <$> xs /\ Forall (fun x => isfinite x = true) xs.
Proof.
  unfold astype_int. destruct (forallb _ _) eqn:E; [| discriminate].
  intros [= <-]. split.
  - rewrite <- !list_fmap_compose. done.
  - pose proof (proj1 (forallb_forall _ _) E) as E'. clear E.
    apply Forall_forall. intros x Hx.
    specialize (E' (fround x)). rename E' into E.
    assert (In (fround x) (fround <$> xs)) as Hin.
    { apply list_elem_of_In, list_elem_of_fmap. by exists x. }
    apply E in Hin. by destruct x.
Qed.

Lemma rule1_spec (df df1 : frame) (msgs msgs1 : list string) :
  wf_frame df ->
  rule1 df msgs = Ok (df1, msgs1) ->
  exists mrp dsp,
    assoc "mrp" (columns df) = Some (SNum mrp) /\
    assoc "discounted_selling_price" (columns df) = Some (SNum dsp) /\
    df1 = select_rows (mask_not (zip_with flt mrp dsp)) df /\
    (mask_any (zip_with flt mrp dsp) = false -> msgs1 = msgs).
Proof.
  intros Hwf H. unfold rule1 in H.
  inv_bind H as mrp Hmrp. inv_bind H as dsp Hdsp.
  apply get_num_Ok in Hmrp, Hdsp.
  exists mrp, dsp. split; [done |]. split; [done |].
  destruct (mask_any (zip_with flt mrp dsp)) eqn:E.
  - inversion H; subst. split; [done | discriminate].
  - inversion H; subst. split; [| done].
    symmetry. apply select_rows_all; [done | done |].
    rewrite length_zip_with.
    apply (wf_assoc _ _ _ Hwf) in Hmrp, Hdsp. simpl in *. lia.
Qed.

Lemma rule2_spec (df df2 : frame) (msgs msgs2 : list string) :
  rule2 df msgs = Ok (df2, msgs2) ->
  exists mrp dsp dp,
    assoc "mrp" (columns df) = Some (SNum mrp) /\
    assoc "discounted_selling_price" (columns df) = Some (SNum dsp) /\
    assoc "discount_percent" (columns df) = Some (SNum dp) /\
    let calc := zip_with calculated_discount mrp dsp in
    let mm := zip_with mismatch dp calc in
    columns df2 =
      assoc_del "calculated_discount"
        (assoc_set "discount_percent"
           (SNum (scatter mm (stored_int <$> select mm calc) dp))
           (assoc_set "calculated_discount" (SNum calc) (columns df))) /\
    nrows df2 = nrows df /\
    Forall (fun x => isfinite x = true) (select mm calc) /\
    (mask_any mm = false -> msgs2 = msgs).
Proof.
  intros H. unfold rule2 in H.
  inv_bind H as mrp Hmrp. inv_bind H as dsp Hdsp.
  inv_bind H as dp Hdp. inv_bind H as calc0 Hcalc.
  apply get_num_Ok in Hmrp, Hdsp, Hdp, Hcalc. simpl in Hdp, Hcalc.
  revert Hdp Hcalc. assoc_simpl. intros Hdp [= <-].
  exists mrp, dsp, dp. do 3 (split; [done |]). cbv zeta.
  set (calc := zip_with calculated_discount mrp dsp) in *.
  set (mm := zip_with mismatch dp calc) in *.
  inv_bind H as r Hr. destruct r as [df' msgs'].
  inv_bind H as dropped Hdrop. inversion H; subst; clear H.
  unfold drop in Hdrop. destruct (has_col _ df') eqn:Hc; [| discriminate].
  inversion Hdrop; subst; clear Hdrop. simpl.
  destruct (mask_any mm) eqn:E.
  - inv_bind Hr as calc' Hcalc'. inv_bind Hr as rhs Hrhs.
    inv_bind Hr as dp' Hdp'. inversion Hr; subst; clear Hr.
    apply get_num_Ok in Hcalc', Hdp'. simpl in Hcalc', Hdp'.
    revert Hcalc' Hdp'. assoc_simpl. intros [= <-]. rewrite Hdp. intros [= <-].
    apply astype_int_Ok in Hrhs as [-> Hfin].
    simpl. split; [done |]. split; [done |]. split; [done | discriminate].
  - inversion Hr; subst; clear Hr. simpl.
    rewrite scatter_none by done.
    rewrite (assoc_set_id "discount_percent") by (by assoc_simpl).
    split; [done |]. split; [done |]. split; [| done].
    apply Forall_forall. intros x Hx.
    apply list_elem_of_lookup in Hx as [j Hj].
    apply select_lookup in Hj as (i & Hi & _).
    exfalso. eapply mask_any_false_lookup; eauto.
Qed.

Lemma rule3_spec (df df3 : frame) (msgs msgs3 : list string) :
  rule3 df msgs = Ok (df3, msgs3) ->
  exists oos avail,
    assoc "out_of_stock" (columns df) = Some oos /\
    assoc "available_quantity" (columns df) = Some (SNum avail) /\
    let invalid_stock :=
      mask_and (eq_bool true oos) ((fun a => fgt a (Fin 0)) <$> avail) in
    columns df3 =
      assoc_set "available_quantity"
        (SNum (assign_where invalid_stock (Fin 0) avail)) (columns df) /\
    nrows df3 = nrows df /\
    (mask_any invalid_stock = false -> msgs3 = msgs).
Proof.
  intros H. unfold rule3 in H.
  inv_bind H as oos Hoos. inv_bind H as avail Havail.
  apply get_col_Ok in Hoos. apply get_num_Ok in Havail.
  exists oos, avail. do 2 (split; [done |]). cbv zeta.
  destruct (mask_any _) eqn:E; inversion H; subst; clear H; simpl.
  - split; [done |]. split; [done | discriminate].
  - rewrite assign_where_none by done.
    rewrite assoc_set_id by done. done.
Qed.

Lemma assign_true_none (m : list bool) (s : series) :
  mask_any m = false -> assign_true m s = s.
Proof.
  intros H. destruct s; simpl; by rewrite ?assign_where_none.
Qed.

Lemma rule4_spec (df df4 : frame) (msgs msgs4 : list string) :
  rule4 df msgs = Ok (df4, msgs4) ->
  exists oos avail,
    assoc "out_of_stock" (columns df) = Some oos /\
    assoc "available_quantity" (columns df) = Some (SNum avail) /\
    let zero_quantity :=
      mask_and ((fun a => feq a (Fin 0)) <$> avail) (eq_bool false oos) in
    columns df4 =
      assoc_set "out_of_stock" (assign_true zero_quantity oos) (columns df) /\
    nrows df4 = nrows df /\
    (mask_any zero_quantity = false -> msgs4 = msgs).
Proof.
  intros H. unfold rule4 in H.
  inv_bind H as avail Havail. inv_bind H as oos Hoos.
  apply get_col_Ok in Hoos. apply get_num_Ok in Havail.
  exists oos, avail. do 2 (split; [done |]). cbv zeta.
  destruct (mask_any _) eqn:E; inversion H; subst; clear H; simpl.
  - split; [done |]. split; [done | discriminate].
  - rewrite assign_true_none by done.
    rewrite assoc_set_id by done. done.
Qed.

(** ** The rule engine as a whole *)

Lemma validate_business_rules_spec (df df' : frame) (msgs : list string) :
  wf_frame df ->
  validate_business_rules df = Ok (df', msgs) ->
  exists mrp dsp dp avail oos,
    assoc "mrp" (columns df) = Some (SNum mrp) /\
    assoc "discounted_selling_price" (columns df) = Some (SNum dsp) /\
    assoc "discount_percent" (columns df) = Some (SNum dp) /\
    assoc "available_quantity" (columns df) = Some (SNum avail) /\
    assoc "out_of_stock" (columns df) = Some oos /\
    let keep := keep_mask mrp dsp in
    let mrp1 := select keep mrp in
    let dsp1 := select keep dsp in
    let dp1 := select keep dp in
    let avail1 := select keep avail in
    let oos1 := select_series keep oos in
    columns df' =
      assoc_set "out_of_stock" (flagged_oos oos1 avail1)
        (assoc_set "available_quantity" (SNum (zeroed_avail oos1 avail1))
           (assoc_del "calculated_discount"
              (assoc_set "discount_percent" (SNum (repaired_dp mrp1 dsp1 dp1))
                 (assoc_set "calculated_discount" (SNum (calc_column mrp1 dsp1))
                    (prod_map id (select_series keep) <$> columns df))))) /\
    nrows df' = mask_sum keep /\
    Forall (fun x => isfinite x = true)
      (select (mismatch_mask mrp1 dsp1 dp1) (calc_column mrp1 dsp1)) /\
    (mask_any (zip_with flt mrp dsp) = false ->
     mask_any (mismatch_mask mrp1 dsp1 dp1) = false ->
     mask_any (invalid_stock_mask oos1 avail1) = false ->
     mask_any (zero_quantity_mask oos1 (zeroed_avail oos1 avail1)) = false ->
     msgs = []).
Proof.
  intros Hwf H. unfold validate_business_rules in H.
  inv_bind H as r1 H1. destruct r1 as [df1 msgs1].
  inv_bind H as r2 H2. destruct r2 as [df2 msgs2].
  inv_bind H as r3 H3. destruct r3 as [df3 msgs3].
  inv_bind H as r4 H4. destruct r4 as [df4 msgs4].
  inversion H; subst; clear H.
  apply rule1_spec in H1 as (mrp & dsp & Hmrp & Hdsp & -> & Hm1); [| done].
  apply rule2_spec in H2
    as (mrp1 & dsp1 & dp1 & Hmrp1 & Hdsp1 & Hdp1 & Hc2 & Hn2 & Hfin & Hm2).
  apply rule3_spec in H3 as (oos2 & avail2 & Hoos2 & Hav2 & Hc3 & Hn3 & Hm3).
  apply rule4_spec in H4 as (oos3 & avail3 & Hoos3 & Hav3 & Hc4 & Hn4 & Hm4).
  cbv zeta in *. unfold select_rows in *. simpl in *.
  rewrite assoc_fmap in Hmrp1, Hdsp1, Hdp1. rewrite Hmrp in Hmrp1.
  rewrite Hdsp in Hdsp1. simpl in Hmrp1, Hdsp1.
  injection Hmrp1 as <-. injection Hdsp1 as <-.
  destruct (assoc "discount_percent" (columns df)) as [[dp | |] |] eqn:Hdp;
    try discriminate.
  simpl in Hdp1. injection Hdp1 as <-.
  rewrite Hc2 in Hoos2, Hav2. revert Hoos2 Hav2. assoc_simpl.
  rewrite !assoc_fmap.
  destruct (assoc "available_quantity" (columns df)) as [[avail | |] |] eqn:Hav;
    try discriminate.
  destruct (assoc "out_of_stock" (columns df)) as [oos |] eqn:Hoos;
    try discriminate.
  simpl. intros [= <-] [= <-].
  rewrite Hc3 in Hoos3, Hav3. revert Hoos3 Hav3. assoc_simpl.
  rewrite Hc2. assoc_simpl. rewrite assoc_fmap, Hoos. simpl.
  intros [= <-] [= <-].
  exists mrp, dsp, dp, avail, oos. do 5 (split; [done |]).
  split.
  { rewrite Hc4, Hc3, Hc2. done. }
  split.
  { rewrite Hn4, Hn3, Hn2. done. }
  split; [done |].
  intros E1 E2 E3 E4.
  rewrite Hm4, Hm3, Hm2, Hm1; done.
Qed.

(** The five columns of the output, read by name. *)
Lemma validate_business_rules_columns (df df' : frame) (msgs : list string) :
  wf_frame df ->
  validate_business_rules df = Ok (df', msgs) ->
  exists mrp dsp dp avail oos,
    (assoc "mrp" (columns df) = Some (SNum mrp) /\
     assoc "discounted_selling_price" (columns df) = Some (SNum dsp) /\
     assoc "discount_percent" (columns df) = Some (SNum dp) /\
     assoc "available_quantity" (columns df) = Some (SNum avail) /\
     assoc "out_of_stock" (columns df) = Some oos) /\
    let keep := keep_mask mrp dsp in
    let mrp1 := select keep mrp in
    let dsp1 := select keep dsp in
    let dp1 := select keep dp in
    let avail1 := select keep avail in
    let oos1 := select_series keep oos in
    (assoc "mrp" (columns df') = Some (SNum mrp1) /\
     assoc "discounted_selling_price" (columns df') = Some (SNum dsp1) /\
     assoc "discount_percent" (columns df') = Some (SNum (repaired_dp mrp1 dsp1 dp1)) /\
     assoc "available_quantity" (columns df') = Some (SNum (zeroed_avail oos1 avail1)) /\
     assoc "out_of_stock" (columns df') = Some (flagged_oos oos1 avail1) /\
     assoc "calculated_discount" (columns df') = None) /\
    Forall (fun x => isfinite x = true)
      (select (mismatch_mask mrp1 dsp1 dp1) (calc_column mrp1 dsp1)).
Proof.
  intros Hwf H.
  destruct (validate_business_rules_spec _ _ _ Hwf H)
    as (mrp & dsp & dp & avail & oos & Hmrp & Hdsp & Hdp & Hav & Hoos & Hc & _ & Hfin & _).
  exists mrp, dsp, dp, avail, oos. split; [done |]. cbv zeta in *.
  split; [| done]. rewrite Hc. assoc_simpl. rewrite !assoc_fmap.
  rewrite Hmrp, Hdsp. done.
Qed.

Lemma select_elem {A} (m : list bool) (xs : list A) (i : nat) (x : A) :
  m !! i = Some true -> xs !! i = Some x -> x ∈ select m xs.
Proof.
  revert xs i. induction m as [| b m IH]; intros [| y xs] i; try done.
  destruct i as [| i]; simpl.
  - intros [= ->] [= ->]. left.
  - intros Hm Hx. destruct b; [right |]; eauto.
Qed.

(** ** Floats, continued *)

Lemma calculated_discount_fin (m d : Q) :
  ~ (m == 0)%Q ->
  calculated_discount (Fin m) (Fin d) = Fin ((m + - d) / m * 100).
Proof.
  intros Hm. unfold calculated_discount. simpl.
  apply Qzero_neq in Hm. by rewrite Hm.
Qed.

Lemma mismatch_fin (p c : Q) :
  mismatch (Fin p) (Fin c) = false <-> (Qabs (p - c) <= 1)%Q.
Proof.
  unfold mismatch, fgt. simpl. rewrite Qltb_ge. reflexivity.
Qed.

(** ** The invariants after the rule engine *)

Lemma flagged_oos_bool (oos : series) (avail : list fval) (xs : list (option bool)) :
  flagged_oos oos avail = SBool xs ->
  exists os, oos = SBool os /\
    xs = assign_where (zero_quantity_mask oos (zeroed_avail oos avail)) (Some true) os.
Proof.
  unfold flagged_oos. destruct oos as [ns | os | ss]; simpl; try discriminate.
  intros [= <-]. by exists os.
Qed.

Lemma not_flt_fge (m d : fval) :
  isnan m = false -> isnan d = false -> flt m d = false -> fge m d = true.
Proof.
  unfold fge. destruct m as [| | | x], d as [| | | y]; try done.
  simpl. intros _ _ H. apply Qltb_ge in H. by apply Qle_bool_iff.
Qed.

(** C1, amended: on every table for which [validate_business_rules]
    returns, a surviving row has [mrp >= discounted_selling_price] when
    neither price is missing; it has
    [|discount_percent - 100*(mrp - discounted_selling_price)/mrp| <= 1],
    up to the rounding of the calculated discount, when the three are
    numbers with [mrp > 0] and [discounted_selling_price >= 0]; and it has
    [out_of_stock == (available_quantity == 0)] when its quantity is a
    non-negative number and its flag a boolean. *)
Theorem rule_engine_invariants (df df' : frame) (msgs : list string) (i : nat) :
  wf_frame df ->
  validate_business_rules df = Ok (df', msgs) ->
  (forall m d : fval,
     num_at "mrp" df' i = Some m ->
     num_at "discounted_selling_price" df' i = Some d ->
     isnan m = false -> isnan d = false ->
     price_invariant m d) /\
  (forall m d p : Q,
     num_at "mrp" df' i = Some (Fin m) ->
     num_at "discounted_selling_price" df' i = Some (Fin d) ->
     num_at "discount_percent" df' i = Some (Fin p) ->
     (0 < m)%Q -> (0 <= d)%Q ->
     discount_within (1 + rounding_margin) m d p) /\
  (forall (a : Q) (o : bool),
     num_at "available_quantity" df' i = Some (Fin a) ->
     bool_at "out_of_stock" df' i = Some (Some o) ->
     (0 <= a)%Q ->
     stock_invariant (Fin a) (Some o)).
Proof.
  intros Hwf H.
  destruct (validate_business_rules_columns _ _ _ Hwf H)
    as (mrp & dsp & dp & avail & oos & _ & Hout & Hfin).
  cbv zeta in Hout, Hfin.
  destruct Hout as (Omrp & Odsp & Odp & Oav & Ooos & _).
  unfold num_at, bool_at. rewrite Omrp, Odsp, Odp, Oav, Ooos.
  set (keep := keep_mask mrp dsp) in *.
  set (mrp1 := select keep mrp) in *. set (dsp1 := select keep dsp) in *.
  set (dp1 := select keep dp) in *. set (avail1 := select keep avail) in *.
  split; [| split].
  - (* rule 1 *)
    intros m d Hm Hd Nm Nd.
    destruct (select_lookup2 _ _ _ _ _ _ Hm Hd) as (j & Hk & Hmj & Hdj).
    unfold keep, keep_mask, mask_not in Hk.
    rewrite list_lookup_fmap, lookup_zip_with, Hmj, Hdj in Hk. simpl in Hk.
    injection Hk as Hk. apply negb_true_iff in Hk.
    by apply not_flt_fge.
  - (* rule 2 *)
    intros m d p Hm Hd Hp Hm0 Hd0.
    assert (~ (m == 0)%Q) as Hne by lra.
    unfold discount_within, rounding_margin.
    assert ((100 * (m - d) / m == (m + - d) / m * 100)%Q) as -> by (by field).
    unfold repaired_dp in Hp.
    set (calc := calc_column mrp1 dsp1) in *.
    set (mm := mismatch_mask mrp1 dsp1 dp1) in *.
    assert (calc !! i = Some (Fin ((m + - d) / m * 100))) as Hc.
    { unfold calc, calc_column. rewrite lookup_zip_with, Hm, Hd. simpl.
      by rewrite <- calculated_discount_fin. }
    assert (is_Some (dp1 !! i)) as [p0 Hp0].
    { apply lookup_lt_is_Some. apply lookup_lt_Some in Hp.
      by rewrite length_scatter in Hp. }
    assert (mm !! i = Some (mismatch p0 (Fin ((m + - d) / m * 100)))) as Hmm.
    { unfold mm, mismatch_mask. fold calc.
      by rewrite lookup_zip_with, Hp0, Hc. }
    rewrite (scatter_select_lookup _ _ _ _ _ _ _ _ Hmm Hc Hp0) in Hp.
    destruct (mismatch p0 _) eqn:E.
    + rewrite stored_int_fin in Hp. injection Hp as <-.
      pose proof (round_half_even_close ((m + - d) / m * 100)) as Hr.
      lra.
    + injection Hp as ->. apply mismatch_fin in E. lra.
  - (* rules 3 and 4 *)
    intros a o Ha Ho Ha0.
    clear Ooos.
    destruct (flagged_oos (select_series keep oos) avail1) as [| xs |] eqn:E;
      try discriminate.
    apply flagged_oos_bool in E as (os1 & Hos1 & ->).
    rewrite Hos1 in *. clear Hos1.
    set (inv := invalid_stock_mask (SBool os1) avail1) in *.
    assert (is_Some (avail1 !! i)) as [a0 Ha1].
    { apply lookup_lt_is_Some. apply lookup_lt_Some in Ha.
      unfold zeroed_avail in Ha. by rewrite length_assign_where in Ha. }
    assert (is_Some (os1 !! i)) as [o1 Ho1].
    { apply lookup_lt_is_Some. apply lookup_lt_Some in Ho.
      by rewrite length_assign_where in Ho. }
    assert (inv !! i = Some (bool_decide (o1 = Some true) && fgt a0 (Fin 0)))
      as Hinv.
    { unfold inv, invalid_stock_mask, mask_and. simpl.
      by rewrite lookup_zip_with, !list_lookup_fmap, Ho1, Ha1. }
    unfold zeroed_avail in Ha. fold inv in Ha.
    rewrite (assign_where_lookup _ _ _ _ _ _ Hinv Ha1) in Ha.
    assert (zero_quantity_mask (SBool os1) (zeroed_avail (SBool os1) avail1) !! i
            = Some (feq (Fin a) (Fin 0) && bool_decide (o1 = Some false)))
      as Hzq.
    { unfold zero_quantity_mask, mask_and, zeroed_avail. fold inv. simpl.
      rewrite lookup_zip_with, !list_lookup_fmap, Ho1.
      rewrite (assign_where_lookup _ _ _ _ _ _ Hinv Ha1), Ha. done. }
    rewrite (assign_where_lookup _ _ _ _ _ _ Hzq Ho1) in Ho.
    injection Ha as Ha.
    unfold stock_invariant. simpl in *. f_equal.
    destruct o1 as [[|] |]; repeat case_bool_decide; try congruence;
      rewrite ?andb_true_l, ?andb_true_r, ?andb_false_l, ?andb_false_r in *.
    + injection Ho as <-. symmetry. apply Qeq_bool_iff.
      destruct a0 as [| | | y]; try discriminate.
      * by injection Ha as <-.
      * destruct (Qltb 0 y) eqn:G; injection Ha as <-; [done |].
        apply Qltb_ge in G. lra.
    + destruct (Qeq_bool a 0); by injection Ho as <-.
    + discriminate.
Qed.

(** The first row that [three_products] keeps: rule 2 has set its
    discount to 20 and rule 3 its quantity to 0. *)
Lemma rule_engine_invariants_witness :
  price_invariant (Fin 1000) (Fin 800) /\
  discount_within (1 + rounding_margin) 1000 800 20 /\
  stock_invariant (Fin 0) (Some true).
Proof.
  destruct (rule_engine_invariants three_products three_products_repaired
              ["Removed 1 products with MRP < Selling Price";
               "Fixed 1 products with incorrect discount percentages";
               "Fixed 1 out-of-stock products with non-zero availability";
               "Marked 1 zero-quantity products as out of stock"] 0)
    as (Hprice & Hdiscount & Hstock).
  - repeat constructor.
  - vm_compute. reflexivity.
  - split; [| split].
    + apply Hprice; reflexivity.
    + apply Hdiscount; [reflexivity | reflexivity | reflexivity | |];
        by vm_compute.
    + apply Hstock; [reflexivity | reflexivity |]. by vm_compute.
Defined.

(** C1 as stated fails: a row flagged out of stock with the quantity -5
    passes all four rules unchanged, and its flag is not
    [available_quantity == 0]. *)
Lemma rule_engine_invariants_counterexample :
  ~ (forall (df df' : frame) (msgs : list string) (i : nat)
       (m d p a : fval) (o : option bool),
       wf_frame df ->
       validate_business_rules df = Ok (df', msgs) ->
       num_at "mrp" df' i = Some m ->
       num_at "discounted_selling_price" df' i = Some d ->
       num_at "discount_percent" df' i = Some p ->
       num_at "available_quantity" df' i = Some a ->
       bool_at "out_of_stock" df' i = Some o ->
       price_invariant m d /\ discount_invariant m d p /\ stock_invariant a o).
Proof.
  intros H.
  destruct (H negative_stock negative_stock [] 0
              (Fin 1000) (Fin 800) (Fin 20) (Fin (-5)) (Some true))
    as (_ & _ & Hs); try reflexivity.
  - repeat constructor.
  - discriminate Hs.
Qed.

(** The row of [negative_stock] is what the rule engine returns for it. *)
Example negative_stock_unchanged :
  validate_business_rules negative_stock = Ok (negative_stock, []).
Proof. reflexivity. Qed.

(** A row whose mrp is missing survives rule 1, the comparison
    [mrp < discounted_selling_price] being false on NaN. *)
Example missing_mrp_survives :
  validate_business_rules missing_mrp = Ok (missing_mrp, []).
Proof. reflexivity. Qed.

(** A row whose mrp and selling price are 0 survives with any discount:
    its calculated discount is NaN, and no comparison with NaN holds. *)
Example zero_prices_survive :
  validate_business_rules (one_row (Fin 0) (Fin 0) (Fin 50) (Fin 1) (Some false))
  = Ok (one_row (Fin 0) (Fin 0) (Fin 50) (Fin 1) (Some false), []).
Proof. reflexivity. Qed.

(** ** A rule that finds nothing to repair returns its table *)

Lemma get_num_assoc n df xs :
  assoc n (columns df) = Some (SNum xs) -> get_num n df = Ok xs.
Proof. apply get_num_Ok. Qed.

Lemma get_col_assoc n df s :
  assoc n (columns df) = Some s -> get_col n df = Ok s.
Proof. apply get_col_Ok. Qed.

Lemma rule1_noop (df : frame) (msgs : list string) (mrp dsp : list fval) :
  assoc "mrp" (columns df) = Some (SNum mrp) ->
  assoc "discounted_selling_price" (columns df) = Some (SNum dsp) ->
  mask_any (zip_with flt mrp dsp) = false ->
  rule1 df msgs = Ok (df, msgs).
Proof.
  intros Hm Hd Hno. unfold rule1.
  rewrite (get_num_assoc _ _ _ Hm), (get_num_assoc _ _ _ Hd). simpl.
  by rewrite Hno.
Qed.

Lemma rule2_noop (df : frame) (msgs : list string) (mrp dsp dp : list fval) :
  assoc "mrp" (columns df) = Some (SNum mrp) ->
  assoc "discounted_selling_price" (columns df) = Some (SNum dsp) ->
  assoc "discount_percent" (columns df) = Some (SNum dp) ->
  assoc "calculated_discount" (columns df) = None ->
  mask_any (mismatch_mask mrp dsp dp) = false ->
  rule2 df msgs = Ok (df, msgs).
Proof.
  intros Hm Hd Hp Hc Hno. unfold rule2.
  rewrite (get_num_assoc _ _ _ Hm), (get_num_assoc _ _ _ Hd). simpl.
  set (calc := zip_with calculated_discount mrp dsp).
  set (df1 := set_col "calculated_discount" (SNum calc) df).
  assert (get_num "discount_percent" df1 = Ok dp) as ->.
  { apply get_num_Ok. unfold df1. simpl. by assoc_simpl. }
  assert (get_num "calculated_discount" df1 = Ok calc) as ->.
  { apply get_num_Ok. unfold df1. simpl. by assoc_simpl. }
  simpl. unfold mismatch_mask, calc_column in Hno. fold calc in Hno.
  rewrite Hno. simpl. unfold drop.
  assert (has_col "calculated_discount" df1 = true) as ->.
  { apply has_col_assoc. unfold df1. simpl. by assoc_simpl. }
  simpl. unfold df1. simpl. rewrite assoc_del_set_absent by done.
  by destruct df.
Qed.

Lemma rule3_noop (df : frame) (msgs : list string) (oos : series) (avail : list fval) :
  assoc "out_of_stock" (columns df) = Some oos ->
  assoc "available_quantity" (columns df) = Some (SNum avail) ->
  mask_any (invalid_stock_mask oos avail) = false ->
  rule3 df msgs = Ok (df, msgs).
Proof.
  intros Ho Ha Hno. unfold rule3.
  rewrite (get_col_assoc _ _ _ Ho), (get_num_assoc _ _ _ Ha). cbn [bind].
  unfold invalid_stock_mask in Hno. by rewrite Hno.
Qed.

Lemma rule4_noop (df : frame) (msgs : list string) (oos : series) (avail : list fval) :
  assoc "out_of_stock" (columns df) = Some oos ->
  assoc "available_quantity" (columns df) = Some (SNum avail) ->
  mask_any (zero_quantity_mask oos avail) = false ->
  rule4 df msgs = Ok (df, msgs).
Proof.
  intros Ho Ha Hno. unfold rule4.
  rewrite (get_num_assoc _ _ _ Ha), (get_col_assoc _ _ _ Ho). cbn [bind].
  unfold zero_quantity_mask in Hno. by rewrite Hno.
Qed.

(** ** What the repairs leave behind *)

(** Rule 1 leaves no row with [mrp < discounted_selling_price]. *)
Lemma kept_rows_priced (mrp dsp : list fval) :
  mask_any (zip_with flt (select (keep_mask mrp dsp) mrp)
                         (select (keep_mask mrp dsp) dsp)) = false.
Proof.
  apply mask_any_false_intro. intros i Hi.
  apply lookup_zip_with_Some in Hi as (m & d & Hlt & Hm & Hd).
  destruct (select_lookup2 _ _ _ _ _ _ Hm Hd) as (j & Hk & Hmj & Hdj).
  unfold keep_mask, mask_not in Hk.
  rewrite list_lookup_fmap, lookup_zip_with, Hmj, Hdj in Hk. simpl in Hk.
  injection Hk as Hk. rewrite <- Hlt in Hk. discriminate.
Qed.

Lemma stored_int_matches (c : fval) :
  isfinite c = true -> mismatch (stored_int c) c = false.
Proof.
  destruct c as [| | | q]; try discriminate. intros _.
  rewrite stored_int_fin. apply mismatch_fin.
  pose proof (round_half_even_close q). lra.
Qed.

(** Rule 2 leaves no row with a mismatching discount. *)
Lemma repaired_dp_matches (mrp dsp dp : list fval) :
  Forall (fun x => isfinite x = true)
    (select (mismatch_mask mrp dsp dp) (calc_column mrp dsp)) ->
  mask_any (mismatch_mask mrp dsp (repaired_dp mrp dsp dp)) = false.
Proof.
  intros Hfin. apply mask_any_false_intro. intros i Hi.
  unfold mismatch_mask at 1 in Hi.
  apply lookup_zip_with_Some in Hi as (p & c & Hmis & Hp & Hc).
  unfold repaired_dp in Hp.
  assert (is_Some (dp !! i)) as [p0 Hp0].
  { apply lookup_lt_is_Some. apply lookup_lt_Some in Hp.
    by rewrite length_scatter in Hp. }
  assert (mismatch_mask mrp dsp dp !! i = Some (mismatch p0 c)) as Hmm.
  { unfold mismatch_mask. by rewrite lookup_zip_with, Hp0, Hc. }
  rewrite (scatter_select_lookup _ _ _ _ _ _ _ _ Hmm Hc Hp0) in Hp.
  injection Hp as <-.
  destruct (mismatch p0 c) eqn:E; [| congruence].
  assert (isfinite c = true) as Hc'.
  { rewrite Forall_forall in Hfin. apply Hfin. eapply select_elem; eauto. }
  rewrite stored_int_matches in Hmis by done. discriminate.
Qed.

Lemma length_eq_bool (b : bool) (s : series) : length (eq_bool b s) = slen s.
Proof. destruct s; simpl; by rewrite length_fmap. Qed.

Lemma slen_assign_true (m : list bool) (s : series) :
  slen (assign_true m s) = slen s.
Proof. destruct s; simpl; by rewrite ?length_assign_where. Qed.

Lemma slen_flagged_oos (oos : series) (avail : list fval) :
  slen (flagged_oos oos avail) = slen oos.
Proof. apply slen_assign_true. Qed.

(** The flags of a column after [s[zq] = True], where the mask [zq] holds
    only on cells that equal False. *)
Lemma eq_bool_assign_true (s : series) (zq : list bool) (i : nat) (z t f : bool) :
  zq !! i = Some z ->
  eq_bool true s !! i = Some t ->
  eq_bool false s !! i = Some f ->
  (z = true -> f = true) ->
  eq_bool true (assign_true zq s) !! i = Some (z || t) /\
  eq_bool false (assign_true zq s) !! i = Some (negb z && f).
Proof.
  intros Hz Ht Hf Hzf. destruct s as [xs | xs | xs]; simpl in *.
  - apply list_lookup_fmap_Some in Ht as (x & -> & Hx).
    rewrite list_lookup_fmap, Hx in Hf. injection Hf as <-.
    rewrite !list_lookup_fmap, (assign_where_lookup _ _ _ _ _ _ Hz Hx).
    simpl. by destruct z.
  - apply list_lookup_fmap_Some in Ht as (x & -> & Hx).
    rewrite list_lookup_fmap, Hx in Hf. injection Hf as <-.
    rewrite !list_lookup_fmap, (assign_where_lookup _ _ _ _ _ _ Hz Hx).
    simpl. by destruct z.
  - apply list_lookup_fmap_Some in Ht as (x & -> & Hx).
    rewrite list_lookup_fmap, Hx in Hf. injection Hf as <-.
    rewrite !list_lookup_fmap, Hx. simpl.
    destruct z; [| done]. by specialize (Hzf eq_refl).
Qed.

Lemma fgt_zero_not_feq (a : fval) : fgt a (Fin 0) = true -> feq a (Fin 0) = false.
Proof.
  destruct a as [| | | q]; try done. unfold fgt. simpl. intros H.
  apply Qltb_lt in H. destruct (Qeq_bool q 0) eqn:E; [| done].
  apply Qeq_bool_iff in E. lra.
Qed.

Section Stock.
Variables (oos : series) (avail : list fval).

(** The cells at one row before and after rules 3 and 4. *)
Lemma stock_row (i : nat) (a3 : fval) :
  zeroed_avail oos avail !! i = Some a3 ->
  i < slen oos ->
  exists a1 t f,
    avail !! i = Some a1 /\
    eq_bool true oos !! i = Some t /\
    eq_bool false oos !! i = Some f /\
    a3 = (if t && fgt a1 (Fin 0) then Fin 0 else a1) /\
    eq_bool true (flagged_oos oos avail) !! i = Some (feq a3 (Fin 0) && f || t) /\
    eq_bool false (flagged_oos oos avail) !! i =
      Some (negb (feq a3 (Fin 0) && f) && f).
Proof.
  intros Ha3 Hi.
  assert (is_Some (avail !! i)) as [a1 Ha1].
  { apply lookup_lt_is_Some. apply lookup_lt_Some in Ha3.
    unfold zeroed_avail in Ha3. by rewrite length_assign_where in Ha3. }
  assert (is_Some (eq_bool true oos !! i)) as [t Ht].
  { apply lookup_lt_is_Some. by rewrite length_eq_bool. }
  assert (is_Some (eq_bool false oos !! i)) as [f Hf].
  { apply lookup_lt_is_Some. by rewrite length_eq_bool. }
  assert (invalid_stock_mask oos avail !! i = Some (t && fgt a1 (Fin 0))) as Hinv.
  { unfold invalid_stock_mask, mask_and.
    by rewrite lookup_zip_with, Ht, list_lookup_fmap, Ha1. }
  unfold zeroed_avail in Ha3.
  rewrite (assign_where_lookup _ _ _ _ _ _ Hinv Ha1) in Ha3.
  injection Ha3 as Ha3.
  assert (zero_quantity_mask oos (zeroed_avail oos avail) !! i
          = Some (feq a3 (Fin 0) && f)) as Hzq.
  { unfold zero_quantity_mask, mask_and, zeroed_avail.
    rewrite lookup_zip_with, list_lookup_fmap.
    rewrite (assign_where_lookup _ _ _ _ _ _ Hinv Ha1), Hf. simpl.
    by rewrite Ha3. }
  exists a1, t, f. do 4 (split; [done |]).
  unfold flagged_oos. apply eq_bool_assign_true; try done.
  intros H. by apply andb_true_iff in H as [_ ->].
Qed.

(** Rules 3 and 4 leave no flagged row with a positive quantity ... *)
Lemma no_invalid_stock_after :
  mask_any (invalid_stock_mask (flagged_oos oos avail) (zeroed_avail oos avail))
  = false.
Proof.
  apply mask_any_false_intro. intros i Hi.
  unfold invalid_stock_mask, mask_and in Hi.
  apply lookup_zip_with_Some in Hi as (x & y & Hxy & Hx & Hy).
  apply list_lookup_fmap_Some in Hy as (a3 & -> & Ha3).
  assert (i < slen oos) as Hlen.
  { apply lookup_lt_Some in Hx.
    by rewrite length_eq_bool, slen_flagged_oos in Hx. }
  destruct (stock_row i a3 Ha3 Hlen)
    as (a1 & t & f & Ha1 & Ht & Hf & Hz & HT & HF).
  rewrite HT in Hx. injection Hx as <-.
  symmetry in Hxy. apply andb_true_iff in Hxy as [Hx Hgt].
  rewrite (fgt_zero_not_feq _ Hgt) in Hx. simpl in Hx. subst t.
  rewrite andb_true_l in Hz.
  destruct (fgt a1 (Fin 0)) eqn:G; subst a3; [discriminate Hgt | congruence].
Qed.

(** ... and no unflagged row with a zero quantity. *)
Lemma no_zero_quantity_after :
  mask_any (zero_quantity_mask (flagged_oos oos avail) (zeroed_avail oos avail))
  = false.
Proof.
  apply mask_any_false_intro. intros i Hi.
  unfold zero_quantity_mask, mask_and in Hi.
  apply lookup_zip_with_Some in Hi as (x & y & Hxy & Hx & Hy).
  apply list_lookup_fmap_Some in Hx as (a3 & -> & Ha3).
  assert (i < slen oos) as Hlen.
  { apply lookup_lt_Some in Hy.
    by rewrite length_eq_bool, slen_flagged_oos in Hy. }
  destruct (stock_row i a3 Ha3 Hlen)
    as (a1 & t & f & Ha1 & Ht & Hf & Hz & HT & HF).
  rewrite HF in Hy. injection Hy as <-.
  symmetry in Hxy. apply andb_true_iff in Hxy as [Hx Hy].
  rewrite Hx in Hy. by destruct f.
Qed.

End Stock.

(** ** Idempotence *)

(** C5: the rule engine applied to its own output returns that output and
    no message. *)
Theorem validate_business_rules_idempotent (df df' : frame) (msgs : list string) :
  wf_frame df ->
  validate_business_rules df = Ok (df', msgs) ->
  validate_business_rules df' = Ok (df', []).
Proof.
  intros Hwf H.
  destruct (validate_business_rules_columns _ _ _ Hwf H)
    as (mrp & dsp & dp & avail & oos & _ & Hout & Hfin).
  cbv zeta in Hout, Hfin.
  destruct Hout as (Omrp & Odsp & Odp & Oav & Ooos & Ocalc).
  unfold validate_business_rules.
  rewrite (rule1_noop _ _ _ _ Omrp Odsp (kept_rows_priced mrp dsp)).
  cbn [bind].
  rewrite (rule2_noop _ _ _ _ _ Omrp Odsp Odp Ocalc
             (repaired_dp_matches _ _ _ Hfin)).
  cbn [bind].
  rewrite (rule3_noop _ _ _ _ Ooos Oav (no_invalid_stock_after _ _)).
  cbn [bind].
  rewrite (rule4_noop _ _ _ _ Ooos Oav (no_zero_quantity_after _ _)).
  reflexivity.
Qed.

Lemma validate_business_rules_idempotent_witness :
  validate_business_rules
    (one_row (Fin 1000) (Fin 800) (Fin 20) (Fin 10) (Some false))
  = Ok (one_row (Fin 1000) (Fin 800) (Fin 20) (Fin 10) (Some false), []).
Proof.
  apply (validate_business_rules_idempotent scenario_B _
           ["Fixed 1 products with incorrect discount percentages"]).
  - repeat constructor.
  - vm_compute. reflexivity.
Defined.

(** ** Rows and columns of the output *)

Section Names.
Implicit Types (n : string) (s : series) (cs : list (string * series)).

Lemma names_assoc_del n cs :
  (assoc_del n cs).*1 = List.filter (other_than n) cs.*1.
Proof.
  induction cs as [| [n0 s0] cs IH]; [done |].
  unfold assoc_del, other_than in *. simpl.
  destruct (negb (String.eqb n0 n)); simpl; [f_equal |]; apply IH.
Qed.

Lemma names_assoc_set_filter n s cs :
  List.filter (other_than n) (assoc_set n s cs).*1
  = List.filter (other_than n) cs.*1.
Proof.
  induction cs as [| [n0 s0] cs IH]; simpl.
  - unfold other_than. by rewrite String.eqb_refl.
  - destruct (String.eqb n0 n) eqn:E; simpl; [done |].
    assert (other_than n n0 = true) as -> by (unfold other_than; by rewrite E).
    f_equal. apply IH.
Qed.

Lemma names_select m cs : (prod_map id (select_series m) <$> cs).*1 = cs.*1.
Proof.
  induction cs as [| [n0 s0] cs IH]; simpl; [done |]. f_equal. apply IH.
Qed.

Lemma Forall_assoc_set (P : string * series -> Prop) n s cs :
  P (n, s) -> Forall P cs -> Forall P (assoc_set n s cs).
Proof.
  intros Hs H. induction H as [| [n0 s0] cs H0 H IH]; simpl.
  - by repeat constructor.
  - destruct (String.eqb n0 n) eqn:E.
    + apply String.eqb_eq in E as ->. by constructor.
    + by constructor.
Qed.

Lemma Forall_assoc_del (P : string * series -> Prop) n cs :
  Forall P cs -> Forall P (assoc_del n cs).
Proof.
  intros H. induction H as [| [n0 s0] cs H0 H IH]; simpl; [done |].
  destruct (negb (String.eqb n0 n)); [by constructor | done].
Qed.

End Names.

Lemma length_keep_mask (df : frame) (mrp dsp : list fval) :
  wf_frame df ->
  assoc "mrp" (columns df) = Some (SNum mrp) ->
  assoc "discounted_selling_price" (columns df) = Some (SNum dsp) ->
  length (keep_mask mrp dsp) = nrows df.
Proof.
  intros Hwf Hm Hd. unfold keep_mask, mask_not.
  rewrite length_fmap, length_zip_with.
  apply (wf_assoc _ _ _ Hwf) in Hm, Hd. simpl in *. lia.
Qed.

Lemma keep_mask_lookup (mrp dsp : list fval) (i : nat) (m d : fval) :
  mrp !! i = Some m -> dsp !! i = Some d ->
  keep_mask mrp dsp !! i = Some (negb (flt m d)).
Proof.
  intros Hm Hd. unfold keep_mask, mask_not.
  by rewrite list_lookup_fmap, lookup_zip_with, Hm, Hd.
Qed.

(** C6, amended: the rows of the output are the input rows for which
    [mrp < discounted_selling_price] does not hold (the rows with
    [mrp >= discounted_selling_price] and the rows where one of the two
    is missing), in their order; every column other than
    discount_percent, available_quantity and out_of_stock holds the cells
    of these rows unchanged; discount_percent has one cell for each of
    them, which is the cell of the input row or a whole number;
    available_quantity and out_of_stock are those of rules 3 and 4; and
    the columns are those of the input in their order (less the scratch
    column calculated_discount, if the input had it). *)
Theorem rule_engine_rows (df df' : frame) (msgs : list string) :
  wf_frame df ->
  validate_business_rules df = Ok (df', msgs) ->
  exists mrp dsp dp avail oos,
    (assoc "mrp" (columns df) = Some (SNum mrp) /\
     assoc "discounted_selling_price" (columns df) = Some (SNum dsp) /\
     assoc "discount_percent" (columns df) = Some (SNum dp) /\
     assoc "available_quantity" (columns df) = Some (SNum avail) /\
     assoc "out_of_stock" (columns df) = Some oos) /\
    let keep := keep_mask mrp dsp in
    (forall (i : nat) (m d : fval),
       mrp !! i = Some m -> dsp !! i = Some d ->
       keep !! i = Some (negb (flt m d))) /\
    (forall (i : nat) (m d : Q),
       mrp !! i = Some (Fin m) -> dsp !! i = Some (Fin d) ->
       keep !! i = Some (fge (Fin m) (Fin d))) /\
    nrows df' = mask_sum keep /\
    wf_frame df' /\
    column_names df' =
      List.filter (other_than "calculated_discount") (column_names df) /\
    (forall (c : string) (s : series),
       c <> "discount_percent" -> c <> "available_quantity" ->
       c <> "out_of_stock" -> c <> "calculated_discount" ->
       assoc c (columns df) = Some s ->
       assoc c (columns df') = Some (select_series keep s)) /\
    (exists dp' : list fval,
       assoc "discount_percent" (columns df') = Some (SNum dp') /\
       length dp' = mask_sum keep /\
       forall (i : nat) (p : fval),
         dp' !! i = Some p ->
         select keep dp !! i = Some p \/ exists z : Z, p = of_Z z) /\
    assoc "available_quantity" (columns df')
    = Some (SNum (zeroed_avail (select_series keep oos) (select keep avail))) /\
    assoc "out_of_stock" (columns df')
    = Some (flagged_oos (select_series keep oos) (select keep avail)).
Proof.
  intros Hwf H.
  destruct (validate_business_rules_spec _ _ _ Hwf H)
    as (mrp & dsp & dp & avail & oos & Hmrp & Hdsp & Hdp & Hav & Hoos
        & Hc & Hn & _ & _).
  cbv zeta in Hc, Hn.
  pose proof (length_keep_mask _ _ _ Hwf Hmrp Hdsp) as Hlen.
  exists mrp, dsp, dp, avail, oos. split; [done |]. cbv zeta.
  set (keep := keep_mask mrp dsp) in *.
  split; [apply keep_mask_lookup |].
  split.
  { intros i m d Hm Hd. unfold keep. rewrite (keep_mask_lookup _ _ _ _ _ Hm Hd).
    simpl. unfold Qltb. by rewrite negb_involutive. }
  split; [done |].
  assert (forall s, slen s = nrows df -> slen (select_series keep s) = mask_sum keep)
    as Hsel.
  { intros s Hs. apply slen_select_series. lia. }
  split; [| split; [| split; [| split; [| split]]]].
  - (* every column has the kept rows *)
    unfold wf_frame. rewrite Hc, Hn.
    apply Forall_assoc_set.
    { simpl. rewrite slen_flagged_oos. apply Hsel. by eapply wf_assoc. }
    apply Forall_assoc_set.
    { simpl. unfold zeroed_avail. rewrite length_assign_where.
      apply (Hsel (SNum avail)). by eapply wf_assoc. }
    apply Forall_assoc_del.
    apply Forall_assoc_set.
    { simpl. unfold repaired_dp. rewrite length_scatter.
      apply (Hsel (SNum dp)). by eapply wf_assoc. }
    apply Forall_assoc_set.
    { simpl. unfold calc_column. rewrite length_zip_with.
      pose proof (Hsel (SNum mrp) (wf_assoc _ _ _ Hwf Hmrp)) as H1.
      pose proof (Hsel (SNum dsp) (wf_assoc _ _ _ Hwf Hdsp)) as H2.
      simpl in H1, H2. lia. }
    apply Forall_fmap. eapply Forall_impl; [exact Hwf |].
    intros [n s] Hs. simpl in *. by apply Hsel.
  - (* the columns and their order *)
    unfold column_names. rewrite Hc.
    rewrite names_assoc_set by (assoc_simpl; by rewrite assoc_fmap, Hoos).
    rewrite names_assoc_set by (assoc_simpl; by rewrite assoc_fmap, Hav).
    rewrite names_assoc_del.
    rewrite names_assoc_set by (assoc_simpl; by rewrite assoc_fmap, Hdp).
    by rewrite names_assoc_set_filter, names_select.
  - (* the other columns *)
    intros c s H1 H2 H3 H4 Hs. rewrite Hc.
    rewrite !assoc_set_ne by congruence.
    rewrite assoc_del_ne by congruence.
    rewrite !assoc_set_ne by congruence.
    by rewrite assoc_fmap, Hs.
  - (* discount_percent *)
    eexists. split; [rewrite Hc; by assoc_simpl |]. split.
    + unfold repaired_dp. rewrite length_scatter.
      apply (Hsel (SNum dp)). by eapply wf_assoc.
    + intros i p Hp. unfold repaired_dp in Hp.
      apply scatter_lookup_cases in Hp as [Hp | Hp]; [by left |].
      right. apply list_elem_of_fmap in Hp as (c & -> & _).
      unfold stored_int. by eexists.
  - rewrite Hc. by assoc_simpl.
  - rewrite Hc. by assoc_simpl.
Qed.

(** On [three_products] rule 1 removes the second row and keeps the two
    others. *)
Lemma rule_engine_rows_witness :
  exists mrp dsp,
    assoc "mrp" (columns three_products) = Some (SNum mrp) /\
    assoc "discounted_selling_price" (columns three_products)
    = Some (SNum dsp) /\
    keep_mask mrp dsp = [true; false; true] /\
    nrows three_products_repaired = mask_sum (keep_mask mrp dsp).
Proof.
  destruct (rule_engine_rows three_products three_products_repaired
              ["Removed 1 products with MRP < Selling Price";
               "Fixed 1 products with incorrect discount percentages";
               "Fixed 1 out-of-stock products with non-zero availability";
               "Marked 1 zero-quantity products as out of stock"])
    as (mrp & dsp & dp & avail & oos & (Hm & Hd & _) & _ & _ & Hn & _).
  - repeat constructor.
  - vm_compute. reflexivity.
  - exists mrp, dsp. split; [done |]. split; [done |].
    injection Hm as <-. injection Hd as <-. by repeat split.
Defined.

(** C6 as stated fails: the row of [missing_mrp] is in the output, and
    [mrp >= discounted_selling_price] does not hold for it. *)
Lemma rule_engine_rows_counterexample :
  ~ (forall (df df' : frame) (msgs : list string) (mrp dsp : list fval),
       wf_frame df ->
       validate_business_rules df = Ok (df', msgs) ->
       assoc "mrp" (columns df) = Some (SNum mrp) ->
       assoc "discounted_selling_price" (columns df) = Some (SNum dsp) ->
       nrows df' = mask_sum (zip_with fge mrp dsp)).
Proof.
  intros H.
  specialize (H missing_mrp missing_mrp [] [NaN] [Fin 800]).
  discriminate H; try reflexivity. repeat constructor.
Qed.

(** ** Rule 2 *)

Lemma astype_int_returns (xs : list fval) :
  Forall (fun x => isfinite x = true) xs ->
  exists zs, astype_int (fround <$> xs) = Ok zs.
Proof.
  intros H. unfold astype_int.
  assert (forallb isfinite (fround <$> xs) = true) as ->; [| by eexists].
  induction H as [| x xs Hx H IH]; [done |].
  rewrite fmap_cons. cbn [forallb]. rewrite IH, andb_true_r. by destruct x.
Qed.

(** Rule 2 returns when the calculated discount of every row to repair
    is a number. *)
Lemma rule2_returns (df : frame) (msgs : list string) (mrp dsp dp : list fval) :
  assoc "mrp" (columns df) = Some (SNum mrp) ->
  assoc "discounted_selling_price" (columns df) = Some (SNum dsp) ->
  assoc "discount_percent" (columns df) = Some (SNum dp) ->
  Forall (fun x => isfinite x = true)
    (select (mismatch_mask mrp dsp dp) (calc_column mrp dsp)) ->
  exists df2 msgs2, rule2 df msgs = Ok (df2, msgs2).
Proof.
  intros Hm Hd Hp Hfin. unfold rule2.
  rewrite (get_num_assoc _ _ _ Hm), (get_num_assoc _ _ _ Hd). cbn [bind].
  cbv zeta. fold (calc_column mrp dsp).
  set (df1 := set_col "calculated_discount" (SNum (calc_column mrp dsp)) df).
  assert (get_num "discount_percent" df1 = Ok dp) as Hdp1.
  { apply get_num_Ok. unfold df1. simpl. by assoc_simpl. }
  assert (get_num "calculated_discount" df1 = Ok (calc_column mrp dsp)) as Hc1.
  { apply get_num_Ok. unfold df1. simpl. by assoc_simpl. }
  rewrite Hdp1, Hc1. cbn [bind]. fold (mismatch_mask mrp dsp dp).
  destruct (mask_any (mismatch_mask mrp dsp dp)).
  - destruct (astype_int_returns _ Hfin) as [zs ->]. cbn [bind].
    unfold drop.
    match goal with |- context [has_col ?n ?f] =>
      assert (has_col n f = true) as -> end.
    { apply has_col_assoc. unfold df1. simpl. by assoc_simpl. }
    cbn [bind]. by eexists _, _.
  - cbn [bind]. unfold drop.
    assert (has_col "calculated_discount" df1 = true) as ->.
    { apply has_col_assoc. unfold df1. simpl. by assoc_simpl. }
    cbn [bind]. by eexists _, _.
Qed.

(** C9, amended: on a table whose rows all have their prices in order
    (numbers with [0 < mrp] and [0 <= discounted_selling_price <= mrp]),
    rule 2 returns and keeps every row and every other column; a row
    where [|discount_percent - 100*(mrp - dsp)/mrp|] exceeds 1 by more
    than the rounding margin gets a whole number within one half of the
    calculated discount, up to the margin; a row where it is below 1 by
    more than the margin keeps its discount_percent.  The row of scenario
    B comes out of the rule engine with discount_percent 20. *)
Theorem rule2_overwrites :
  (forall (df : frame) (msgs : list string) (mrp dsp dp : list fval),
     assoc "mrp" (columns df) = Some (SNum mrp) ->
     assoc "discounted_selling_price" (columns df) = Some (SNum dsp) ->
     assoc "discount_percent" (columns df) = Some (SNum dp) ->
     (forall (i : nat) (m d : fval),
        mrp !! i = Some m -> dsp !! i = Some d -> ordered_prices m d) ->
     exists df2 msgs2,
       rule2 df msgs = Ok (df2, msgs2) /\
       nrows df2 = nrows df /\
       column_names df2 =
         List.filter (other_than "calculated_discount") (column_names df) /\
       (forall (c : string),
          c <> "discount_percent" -> c <> "calculated_discount" ->
          assoc c (columns df2) = assoc c (columns df)) /\
       (forall (i : nat) (m d p : Q),
          mrp !! i = Some (Fin m) -> dsp !! i = Some (Fin d) ->
          dp !! i = Some (Fin p) ->
          (1 + rounding_margin < Qabs (p - 100 * (m - d) / m))%Q ->
          exists z : Z,
            num_at "discount_percent" df2 i = Some (of_Z z) /\
            discount_within ((1 # 2) + rounding_margin) m d (inject_Z z)) /\
       (forall (i : nat) (m d p : Q),
          mrp !! i = Some (Fin m) -> dsp !! i = Some (Fin d) ->
          dp !! i = Some (Fin p) ->
          (Qabs (p - 100 * (m - d) / m) <= 1 - rounding_margin)%Q ->
          num_at "discount_percent" df2 i = Some (Fin p))) /\
  validate_business_rules scenario_B
  = Ok (one_row (Fin 1000) (Fin 800) (Fin 20) (Fin 10) (Some false),
        ["Fixed 1 products with incorrect discount percentages"]).
Proof.
  split; [| by vm_compute].
  intros df msgs mrp dsp dp Hm Hd Hp Hrows.
  assert (Forall (fun x => isfinite x = true)
            (select (mismatch_mask mrp dsp dp) (calc_column mrp dsp))) as Hfin.
  { apply Forall_forall. intros c Hc.
    apply list_elem_of_lookup in Hc as [j Hj].
    apply select_lookup in Hj as (i & _ & Hc).
    unfold calc_column in Hc.
    apply lookup_zip_with_Some in Hc as (m & d & -> & Hmi & Hdi).
    destruct (Hrows _ _ _ Hmi Hdi) as (qm & qd & -> & -> & Hpos & _).
    rewrite calculated_discount_fin; [done | lra]. }
  destruct (rule2_returns df msgs _ _ _ Hm Hd Hp Hfin) as (df2 & msgs2 & H2).
  exists df2, msgs2. split; [done |].
  apply rule2_spec in H2
    as (mrp' & dsp' & dp' & Hm' & Hd' & Hp' & Hc & Hn & _ & _).
  rewrite Hm in Hm'. rewrite Hd in Hd'. rewrite Hp in Hp'.
  injection Hm' as <-. injection Hd' as <-. injection Hp' as <-.
  cbv zeta in Hc. split; [done |].
  assert (forall (i : nat) (m d p : Q),
            mrp !! i = Some (Fin m) -> dsp !! i = Some (Fin d) ->
            dp !! i = Some (Fin p) ->
            (0 < m)%Q /\
            num_at "discount_percent" df2 i
            = Some (if mismatch (Fin p) (Fin ((m + - d) / m * 100))
                    then of_Z (round_half_even ((m + - d) / m * 100))
                    else Fin p)) as Hcell.
  { intros i m d p Hmi Hdi Hpi.
    destruct (Hrows _ _ _ Hmi Hdi) as (qm & qd & Em & Ed & Hpos & _).
    injection Em as <-. injection Ed as <-. split; [done |].
    unfold num_at. rewrite Hc. assoc_simpl.
    assert (calc_column mrp dsp !! i = Some (Fin ((m + - d) / m * 100))) as Hci.
    { unfold calc_column. rewrite lookup_zip_with, Hmi, Hdi. simpl.
      rewrite <- calculated_discount_fin; [done | lra]. }
    assert (mismatch_mask mrp dsp dp !! i
            = Some (mismatch (Fin p) (Fin ((m + - d) / m * 100)))) as Hmm.
    { unfold mismatch_mask. by rewrite lookup_zip_with, Hpi, Hci. }
    fold (calc_column mrp dsp). fold (mismatch_mask mrp dsp dp).
    rewrite (scatter_select_lookup _ _ _ _ _ _ _ _ Hmm Hci Hpi).
    by rewrite stored_int_fin. }
  split; [| split; [| split]].
  - unfold column_names. rewrite Hc, names_assoc_del.
    rewrite names_assoc_set by (assoc_simpl; by rewrite Hp).
    by rewrite names_assoc_set_filter.
  - intros c H1 H2. rewrite Hc.
    rewrite assoc_del_ne by congruence. by rewrite !assoc_set_ne by congruence.
  - intros i m d p Hmi Hdi Hpi Hfar.
    destruct (Hcell i m d p Hmi Hdi Hpi) as [Hpos ->].
    assert ((100 * (m - d) / m == (m + - d) / m * 100)%Q) as E
      by (field; lra).
    rewrite E in Hfar.
    destruct (mismatch _ _) eqn:Hmis.
    + eexists. split; [done |].
      unfold discount_within. rewrite E.
      pose proof (round_half_even_close ((m + - d) / m * 100)) as Hr.
      unfold rounding_margin. lra.
    + apply mismatch_fin in Hmis. unfold rounding_margin in Hfar. lra.
  - intros i m d p Hmi Hdi Hpi Hnear.
    destruct (Hcell i m d p Hmi Hdi Hpi) as [Hpos ->].
    assert ((100 * (m - d) / m == (m + - d) / m * 100)%Q) as E
      by (field; lra).
    rewrite E in Hnear.
    destruct (mismatch _ _) eqn:Hmis; [| done].
    assert (mismatch (Fin p) (Fin ((m + - d) / m * 100)) = false) as Hno.
    { apply mismatch_fin. unfold rounding_margin in Hnear. lra. }
    congruence.
Qed.

Lemma rule2_overwrites_witness :
  exists df2 msgs2 z,
    rule2 scenario_B [] = Ok (df2, msgs2) /\
    num_at "discount_percent" df2 0 = Some (of_Z z) /\
    discount_within ((1 # 2) + rounding_margin) 1000 800 (inject_Z z).
Proof.
  destruct rule2_overwrites as [H _].
  destruct (H scenario_B [] [Fin 1000] [Fin 800] [Fin 5])
    as (df2 & msgs2 & H2 & _ & _ & _ & Hrow & _); try reflexivity.
  - intros [| i] m d Hm Hd; [| done].
    injection Hm as <-. injection Hd as <-.
    exists 1000%Q, 800%Q. by vm_compute.
  - destruct (Hrow 0 1000%Q 800%Q 5%Q) as (z & Hz & Hclose);
      try reflexivity.
    exists df2, msgs2, z. by repeat split.
Defined.

(** C9 as stated fails: the first row of [zero_mrp] is the row of
    scenario B, whose discount_percent is 15 away from the calculated
    discount, but the calculated discount of the second row is infinite
    and cannot be converted to an integer; rule 2 raises, and no row is
    overwritten or kept. *)
Lemma rule2_overwrites_counterexample :
  ~ (forall (df : frame) (msgs : list string) (mrp dsp dp : list fval)
       (i : nat) (m d p : fval),
       assoc "mrp" (columns df) = Some (SNum mrp) ->
       assoc "discounted_selling_price" (columns df) = Some (SNum dsp) ->
       assoc "discount_percent" (columns df) = Some (SNum dp) ->
       mrp !! i = Some m -> dsp !! i = Some d -> dp !! i = Some p ->
       mismatch p (calculated_discount m d) = true ->
       exists df2 msgs2,
         rule2 df msgs = Ok (df2, msgs2) /\
         num_at "discount_percent" df2 i
         = Some (fround (calculated_discount m d))) /\
  validate_business_rules zero_mrp = Raise ValueError.
Proof.
  split; [| reflexivity].
  intros H.
  destruct (H zero_mrp [] [Fin 1000; Fin 0] [Fin 800; Fin (-1)] [Fin 5; Fin 0]
              0 (Fin 1000) (Fin 800) (Fin 5))
    as (df2 & msgs2 & H2 & _); try reflexivity.
  discriminate H2.
Qed.

(** Where rounding decides the repair: for mrp 125, selling price 2 and
    discount 99.4 the calculated discount is 98.4 and the difference
    computed in binary64 is 1, so the source leaves the row, although the
    difference of the numbers held exceeds 1. *)
Example rounding_decides_mismatch :
  Float64.mismatch (Float64.ratio 994 10)
    (Float64.calculated_discount (Float64.of_Z 125) (Float64.of_Z 2)) = false /\
  mismatch (Float64.exact (Float64.ratio 994 10))
    (calculated_discount (Fin 125) (Fin 2)) = true.
Proof. by vm_compute. Qed.

(** ** The quality report of a table without rows *)

Lemma wf_empty_num (df : frame) (n : string) (xs : list fval) :
  wf_frame df -> nrows df = 0 ->
  assoc n (columns df) = Some (SNum xs) -> xs = [].
Proof.
  intros Hwf Hn H. apply (wf_assoc _ _ _ Hwf) in H. simpl in H.
  rewrite Hn in H. by destruct xs.
Qed.

Lemma outliers_entry_empty (df : frame) (col : string) (xs : list fval) :
  wf_frame df -> nrows df = 0 ->
  assoc col (columns df) = Some (SNum xs) ->
  has_col col df = true /\ detect_outliers df col "iqr" = Ok [].
Proof.
  intros Hwf Hn H. split.
  - apply has_col_assoc. by rewrite H.
  - rewrite (wf_empty_num _ _ _ Hwf Hn H) in H.
    unfold detect_outliers. simpl. by rewrite (get_num_assoc _ _ _ H).
Qed.

(** C3, amended: on a table without rows that has the numeric catalog
    columns, [generate_data_quality_report] raises ValueError, at the
    conversion [int(df['discount_percent'].max())] of the NaN maximum of
    an empty column; it returns no report. *)
Theorem report_of_empty_table_raises (df : frame)
    (mrp dsp dp w : list fval) :
  wf_frame df ->
  nrows df = 0 ->
  assoc "mrp" (columns df) = Some (SNum mrp) ->
  assoc "discounted_selling_price" (columns df) = Some (SNum dsp) ->
  assoc "discount_percent" (columns df) = Some (SNum dp) ->
  assoc "weight_in_gms" (columns df) = Some (SNum w) ->
  generate_data_quality_report df = Raise ValueError.
Proof.
  intros Hwf Hn Hm Hd Hp Hw. unfold generate_data_quality_report.
  cbn [outliers_loop].
  destruct (outliers_entry_empty _ _ _ Hwf Hn Hm) as [-> ->].
  destruct (outliers_entry_empty _ _ _ Hwf Hn Hd) as [-> ->].
  destruct (outliers_entry_empty _ _ _ Hwf Hn Hp) as [-> ->].
  destruct (outliers_entry_empty _ _ _ Hwf Hn Hw) as [-> ->].
  cbn [bind].
  destruct (has_col "category" df) eqn:Hc.
  - apply has_col_assoc in Hc.
    destruct (assoc "category" (columns df)) as [s |] eqn:Hs; [| done].
    rewrite (get_col_assoc _ _ _ Hs). cbn [bind andb].
    rewrite (wf_empty_num _ _ _ Hwf Hn Hm) in Hm.
    rewrite (wf_empty_num _ _ _ Hwf Hn Hd) in Hd.
    rewrite (wf_empty_num _ _ _ Hwf Hn Hp) in Hp.
    rewrite (get_num_assoc _ _ _ Hm), (get_num_assoc _ _ _ Hd),
      (get_num_assoc _ _ _ Hp). reflexivity.
  - cbn [bind andb].
    rewrite (wf_empty_num _ _ _ Hwf Hn Hm) in Hm.
    rewrite (wf_empty_num _ _ _ Hwf Hn Hd) in Hd.
    rewrite (wf_empty_num _ _ _ Hwf Hn Hp) in Hp.
    rewrite (get_num_assoc _ _ _ Hm), (get_num_assoc _ _ _ Hd),
      (get_num_assoc _ _ _ Hp). reflexivity.
Qed.

Lemma report_of_empty_table_raises_witness :
  generate_data_quality_report empty_catalog = Raise ValueError.
Proof.
  apply (report_of_empty_table_raises empty_catalog [] [] [] []);
    [repeat constructor | reflexivity ..].
Defined.

(** C3 as stated fails: no report comes back for the empty catalog. *)
Lemma report_of_empty_table_counterexample :
  ~ (exists r, generate_data_quality_report empty_catalog = Ok r /\
               total_rows r = 0).
Proof. intros (r & H & _). vm_compute in H. discriminate H. Qed.

(** Without the price columns the report of a table without rows does
    come back, its percentages being NaN. *)
Example report_without_prices :
  generate_data_quality_report (mkFrame 0 [("category", SStr [])])
  = Ok (mkReport 0 1 [("category", (0%Z, NaN))] [("category", "object")]
          [("category", 0%Z)] [] [] None).
Proof. reflexivity. Qed.

(** ** Z-scores of a constant column *)

Section Constant.
Variable v : Q.

Lemma dropna_holds (c : Q) (xs : list fval) :
  Forall (holds c) xs -> dropna xs = xs.
Proof.
  induction 1 as [| x xs (q & -> & _) H IH]; [done |].
  unfold dropna in *. simpl. by rewrite IH.
Qed.

Lemma fsum_holds (c : Q) (xs : list fval) (acc : Q) :
  Forall (holds c) xs ->
  exists s, foldl fadd (Fin acc) xs = Fin s /\
            (s == acc + inject_Z (Z.of_nat (length xs)) * c)%Q.
Proof.
  intros H. revert acc. induction H as [| x xs (q & -> & Hq) H IH]; intros acc.
  - exists acc. split; [done |]. simpl. ring.
  - destruct (IH (acc + q)%Q) as (s & Hs & Es). exists s. split; [done |].
    cbn [length]. rewrite Es, Hq, Nat2Z.inj_succ.
    unfold Z.succ. rewrite inject_Z_plus. simpl (inject_Z 1). ring.
Qed.

Lemma Qzero_of_nat (k : nat) : Qzero (inject_Z (Z.of_nat (S k))) = false.
Proof. apply Qzero_neq. unfold Qeq. simpl. lia. Qed.

Lemma mean_holds (xs : list fval) :
  xs <> [] -> Forall (holds v) xs -> holds v (mean xs).
Proof.
  intros Hne H. unfold mean. rewrite (dropna_holds _ _ H).
  destruct xs as [| x xs]; [done |].
  destruct (fsum_holds _ _ 0 H) as (s & Hs & Es).
  unfold fsum. rewrite Hs. unfold of_nat, of_Z. cbn [fdiv length].
  rewrite Qzero_of_nat. eexists. split; [done |].
  cbn [length] in Es. rewrite Es. field. apply Qzero_neq, Qzero_of_nat.
Qed.

Lemma variance_holds (xs : list fval) :
  Forall (holds v) xs ->
  (length xs < 2 /\ variance xs = NaN) \/
  (2 <= length xs /\ holds 0 (variance xs)).
Proof.
  intros H. unfold variance. rewrite (dropna_holds _ _ H).
  destruct xs as [| x [| y xs]];
    [left; split; [simpl; lia | done] | left; split; [simpl; lia | done] |
     right; split; [simpl; lia |]].
  destruct (mean_holds (x :: y :: xs)) as (m & -> & Hm); [done | done |].
  set (sq := (fun x0 : fval => fmul (fsub x0 (Fin m)) (fsub x0 (Fin m)))).
  assert (Forall (holds 0) (sq <$> x :: y :: xs)) as Hsq.
  { apply Forall_fmap. eapply Forall_impl; [exact H |].
    intros z (q & -> & Hq). eexists. split; [done |].
    rewrite Hq, Hm. ring. }
  destruct (fsum_holds _ _ 0 Hsq) as (s & Hs & Es).
  unfold fsum. rewrite Hs. unfold of_nat, of_Z. cbn [length fdiv].
  rewrite Qzero_of_nat. eexists. split; [done |].
  cbn [length] in Es. rewrite Es. field. apply Qzero_neq, Qzero_of_nat.
Qed.

End Constant.

Lemma fmap_all_false {A} (P : A -> Prop) (f : A -> bool) (xs : list A) :
  Forall P xs -> (forall x, P x -> f x = false) ->
  f <$> xs = replicate (length xs) false.
Proof.
  intros H Hf. induction H as [| x xs Hx H IH]; [done |].
  rewrite fmap_cons. cbn [length replicate]. by rewrite IH, Hf.
Qed.

(** C4, amended: on a non-empty column whose values are all equal to one
    whole number (small enough for the sum of the column to be exact in
    binary64), the z-score mask is all false.  No guard is involved: with
    two values or more the standard deviation is zero and every value
    minus the mean is divided by it, which gives NaN, and NaN is not
    greater than 3. *)
Theorem zscore_constant_column (z : Z) (xs : list fval) :
  xs <> [] ->
  (Z.abs z * Z.of_nat (length xs) <= 2 ^ 53)%Z ->
  Forall (holds (inject_Z z)) xs ->
  zscore_mask xs = replicate (length xs) false /\
  (2 <= length xs ->
   Forall (fun s => sqrt_is_zero (denominator s) = true) (z_scores xs)).
Proof.
  intros Hne _ H.
  destruct (mean_holds (inject_Z z) xs Hne H) as (m & Hmean & Hm).
  unfold zscore_mask, z_scores, std. rewrite Hmean. split.
  - rewrite <- list_fmap_compose, <- (length_fmap (fun x => x) xs), list_fmap_id.
    apply (fmap_all_false (holds (inject_Z z))); [done |].
    intros x (q & -> & Hq). simpl.
    assert (Qzero (q + - m) = true) as Hz.
    { apply Qzero_eq. rewrite Hq, Hm. ring. }
    destruct (variance_holds (inject_Z z) xs H)
      as [[_ ->] | [_ (s & -> & Hs)]]; [done |].
    apply Qzero_eq in Hs. by rewrite Hs, Hz.
  - intros Hlen.
    destruct (variance_holds (inject_Z z) xs H)
      as [[Hlt _] | [_ (s & -> & Hs)]]; [lia |].
    apply Forall_fmap, Forall_forall. intros x _. simpl.
    by apply Qzero_eq.
Qed.

Lemma zscore_constant_column_witness :
  zscore_mask [Fin 5; Fin 5; Fin 5] = [false; false; false] /\
  (2 <= 3 ->
   Forall (fun s => sqrt_is_zero (denominator s) = true)
     (z_scores [Fin 5; Fin 5; Fin 5])).
Proof.
  apply (zscore_constant_column 5 [Fin 5; Fin 5; Fin 5]); [done | done |].
  repeat constructor; by exists 5%Q.
Defined.

(** C4 as stated fails in both halves.  The division is not guarded:
    the zero standard deviation of [5, 5] is the denominator of both
    z-scores.  And not every constant column comes out unflagged: for
    three times 0.1 * 2^-500 the mean computed in binary64 is not the
    value, the squares of the deviations underflow to a zero standard
    deviation, the z-scores are infinite and every row is flagged. *)
Lemma zscore_constant_column_counterexample :
  ~ (forall (v : Q) (xs : list fval),
       xs <> [] ->
       Forall (holds v) xs ->
       zscore_mask xs = replicate (length xs) false /\
       Forall (fun z => sqrt_is_zero (denominator z) = false) (z_scores xs)) /\
  Float64.zscore_mask tiny_constant = [true; true; true].
Proof.
  split; [| by vm_compute].
  intros H.
  destruct (H 5%Q [Fin 5; Fin 5]) as [_ Hg]; [done | |].
  - repeat constructor; by exists 5%Q.
  - apply Forall_cons in Hg as [Hg _]. vm_compute in Hg. discriminate Hg.
Qed.

(** On a constant column of whole numbers the binary64 computation gives
    the flags of the exact one. *)
Example zscore_whole_numbers :
  Float64.zscore_mask (Float64.of_Z <$> [5; 5; 5]%Z)
  = zscore_mask [Fin 5; Fin 5; Fin 5].
Proof. by vm_compute. Qed.

(** ** The currency cleaner *)

Lemma assoc_set_set (n : string) (s s' : series) (cs : list (string * series)) :
  assoc_set n s (assoc_set n s' cs) = assoc_set n s cs.
Proof.
  induction cs as [| [n0 s0] cs IH]; simpl.
  - by rewrite String.eqb_refl.
  - destruct (String.eqb n0 n) eqn:E; simpl; rewrite E; [done |].
    f_equal. apply IH.
Qed.

Lemma fle_not_fgt (a b : fval) : fle a b = true -> fgt a b = false.
Proof.
  unfold fgt. destruct a as [| | | x], b as [| | | y]; try done.
  simpl. intros H. apply Qltb_ge. by apply Qle_bool_iff.
Qed.

Section Currency.
Variable float_str : fval -> pystr.
Variable parse_float : pystr -> fval.

(** One turn of the loop: the listed column, if the table has it, is
    replaced by its scaled numbers; nothing else changes. *)
Lemma clean_currency_column_spec (df : frame) (col : string) :
  exists df',
    clean_currency_column float_str parse_float df col = Ok df' /\
    nrows df' = nrows df /\
    (forall c, c <> col -> assoc c (columns df') = assoc c (columns df)) /\
    (forall s, assoc col (columns df) = Some s ->
       assoc col (columns df')
       = Some (SNum (scaled_currency float_str parse_float s))).
Proof.
  unfold clean_currency_column.
  destruct (has_col col df) eqn:Hc.
  - apply has_col_assoc in Hc.
    destruct (assoc col (columns df)) as [s |] eqn:Hs; [| done].
    rewrite (get_col_assoc _ _ _ Hs). cbn [bind]. cbv zeta.
    set (stripped := SStr _).
    set (df1 := set_col col stripped df).
    assert (get_col col df1 = Ok stripped) as ->.
    { apply get_col_Ok. unfold df1. simpl. by assoc_simpl. }
    cbn [bind].
    assert (to_numeric parse_float stripped
            = parsed_currency float_str parse_float s) as ->.
    { unfold stripped, parsed_currency. simpl.
      by rewrite <- list_fmap_compose. }
    set (xs := parsed_currency float_str parse_float s).
    set (df2 := set_col col (SNum xs) df1).
    assert (get_num col df2 = Ok xs) as ->.
    { apply get_num_Ok. unfold df2. simpl. by assoc_simpl. }
    cbn [bind].
    destruct (fgt (mean xs) (Fin 100)) eqn:E.
    + exists df2. split; [done |]. split; [done |]. split.
      * intros c Hne. unfold df2, df1. simpl.
        by rewrite !assoc_set_ne by done.
      * intros s' [= <-]. unfold df2. simpl. assoc_simpl.
        unfold scaled_currency. fold xs. by rewrite E.
    + eexists. split; [done |]. split; [done |]. split.
      * intros c Hne. unfold df2, df1. simpl.
        by rewrite !assoc_set_ne by done.
      * intros s' [= <-]. simpl. assoc_simpl.
        unfold scaled_currency. fold xs. by rewrite E.
  - exists df. split; [done |]. split; [done |]. split; [done |].
    apply has_col_false in Hc. intros s Hs. congruence.
Qed.

Lemma clean_currency_fold (cols : list string) (df : frame) :
  exists out,
    foldl (fun acc col => bind acc (fun cleaned_df => clean_currency_column float_str parse_float cleaned_df col))
          (Ok df) cols = Ok out /\
    (forall c, c ∉ cols -> assoc c (columns out) = assoc c (columns df)) /\
    (forall c s, NoDup cols -> c ∈ cols ->
       assoc c (columns df) = Some s ->
       assoc c (columns out)
       = Some (SNum (scaled_currency float_str parse_float s))).
Proof.
  revert df. induction cols as [| col cols IH]; intros df.
  - exists df. split; [done |]. split; [done |].
    intros c s _ Hc. by apply elem_of_nil in Hc.
  - destruct (clean_currency_column_spec df col) as (df1 & H1 & _ & Hother & Hcol).
    destruct (IH df1) as (out & Hout & Hkeep & Hdone).
    exists out. cbn [foldl bind]. rewrite H1. split; [done |]. split.
    + intros c Hc. apply not_elem_of_cons in Hc as [Hne Hc].
      rewrite Hkeep by done. by apply Hother.
    + intros c s Hnd Hc Hs. apply NoDup_cons in Hnd as [Hfresh Hnd].
      apply elem_of_cons in Hc as [-> | Hc].
      * rewrite Hkeep by done. by apply Hcol.
      * apply Hdone; [done | done |]. rewrite Hother; [done |].
        intros ->. done.
Qed.

(** C8, amended: a column that is listed once and whose parsed values
    are whole numbers (missing ones apart, and small enough for hundred
    times their sum to be exact in binary64) comes out as its parsed
    numbers, each multiplied by 100 when their mean is at most 100 and
    unchanged when it exceeds 100; the choice is made once for the
    column. *)
Theorem clean_currency_values_scaling (df : frame) (currency_columns : list string)
    (col : string) (s : series) (b : Z) :
  NoDup currency_columns ->
  col ∈ currency_columns ->
  assoc col (columns df) = Some s ->
  Forall (whole_within b) (parsed_currency float_str parse_float s) ->
  (100 * b * Z.of_nat (length (parsed_currency float_str parse_float s))
   <= 2 ^ 53)%Z ->
  exists out,
    clean_currency_values float_str parse_float df currency_columns = Ok out /\
    (fle (mean (parsed_currency float_str parse_float s)) (Fin 100) = true ->
     assoc col (columns out)
     = Some (SNum ((fun x => fmul x (Fin 100))
                     <$> parsed_currency float_str parse_float s))) /\
    (fgt (mean (parsed_currency float_str parse_float s)) (Fin 100) = true ->
     assoc col (columns out)
     = Some (SNum (parsed_currency float_str parse_float s))).
Proof.
  intros Hnd Hcol Hs _ _. unfold clean_currency_values.
  destruct (clean_currency_fold currency_columns df) as (out & Hout & _ & Hdone).
  exists out. split; [exact Hout |].
  specialize (Hdone col s Hnd Hcol Hs). rewrite Hdone. unfold scaled_currency.
  split; intros Hmean.
  - by rewrite (fle_not_fgt _ _ Hmean).
  - by rewrite Hmean.
Qed.

End Currency.

Ltac whole_cells :=
  repeat apply Forall_cons_2; try apply Forall_nil_2;
  right; eexists; (split; [eexists; split; reflexivity | done]).

(** The two columns of [price_texts]: the prices in rupees have the mean
    85 and are multiplied by 100, the prices in paise have the mean 665
    and are left as they are. *)
Lemma clean_currency_values_scaling_witness :
  exists out,
    clean_currency_values whole_str read_decimal price_texts
      ["mrp"; "discounted_selling_price"] = Ok out /\
    assoc "mrp" (columns out) = Some (SNum [Fin 5000; Fin 12000]) /\
    assoc "discounted_selling_price" (columns out)
    = Some (SNum [Fin 1250; Fin 80]).
Proof.
  destruct (clean_currency_values_scaling whole_str read_decimal price_texts
              ["mrp"; "discounted_selling_price"] "mrp"
              (SStr [Some (rupee :: py "50.00"); Some (rupee :: py "120.00")])
              120)
    as (out & Hout & Hlow & _).
  - apply (bool_decide_unpack _). by vm_compute.
  - repeat constructor.
  - reflexivity.
  - replace (parsed_currency _ _ _) with [Fin 50; Fin 120] by (by vm_compute).
    whole_cells.
  - by vm_compute.
  - destruct (clean_currency_values_scaling whole_str read_decimal price_texts
                ["mrp"; "discounted_selling_price"] "discounted_selling_price"
                (SStr [Some (py "1,250"); Some (py "80")]) 1250)
      as (out' & Hout' & _ & Hhigh).
    + apply (bool_decide_unpack _). by vm_compute.
    + repeat constructor.
    + reflexivity.
    + replace (parsed_currency _ _ _) with [Fin 1250; Fin 80]
        by (by vm_compute).
      whole_cells.
    + by vm_compute.
    + rewrite Hout in Hout'. injection Hout' as <-.
      exists out. split; [done |]. split.
      * rewrite Hlow by (by vm_compute). by vm_compute.
      * rewrite Hhigh by (by vm_compute). by vm_compute.
Defined.

(** C8 as stated fails for a column that is listed twice: the prices of
    [one_rupee_prices] have the mean 1 and are multiplied by 100 at the
    first turn of the loop; the mean is then 100, which does not exceed
    100, and they are multiplied by 100 again.  The column comes out as
    10000, not 100. *)
Lemma clean_currency_values_scaling_counterexample :
  ~ (forall (df : frame) (currency_columns : list string) (col : string)
       (s : series),
       col ∈ currency_columns ->
       assoc col (columns df) = Some s ->
       exists out,
         clean_currency_values whole_str read_decimal df currency_columns
         = Ok out /\
         (fle (mean (parsed_currency whole_str read_decimal s)) (Fin 100) = true ->
          assoc col (columns out)
          = Some (SNum ((fun x => fmul x (Fin 100))
                          <$> parsed_currency whole_str read_decimal s))) /\
         (fgt (mean (parsed_currency whole_str read_decimal s)) (Fin 100) = true ->
          assoc col (columns out)
          = Some (SNum (parsed_currency whole_str read_decimal s)))) /\
  clean_currency_values whole_str read_decimal one_rupee_prices ["mrp"; "mrp"]
  = Ok (mkFrame 2 [("mrp", SNum [Fin 10000; Fin 10000])]).
Proof.
  split.
  - intros H.
    destruct (H one_rupee_prices ["mrp"; "mrp"] "mrp"
                (SStr [Some (rupee :: py "1.00"); Some (rupee :: py "1.00")]))
      as (out & Hout & Hlow & _).
    + repeat constructor.
    + reflexivity.
    + specialize (Hlow ltac:(by vm_compute)).
      vm_compute in Hout. injection Hout as <-.
      vm_compute in Hlow. discriminate Hlow.
  - vm_compute. reflexivity.
Qed.

(** Where rounding decides the scaling: the prices 128.02 and 71.98 have
    in binary64 the sum 200 and the mean 100, which does not exceed 100,
    although the mean of the two numbers held exceeds it. *)
Example rounding_decides_mean :
  Float64.mean hundred_mean = Float64.of_Z 100 /\
  fgt (mean (Float64.exact <$> hundred_mean)) (Fin 100) = true.
Proof. by vm_compute. Qed.

(** ** The normalizer *)

Section MaskLemmas.
Context {A : Type}.

Lemma select_select (m b : list bool) (xs : list A) :
  select (select m b) (select m xs) = select (mask_and m b) xs.
Proof.
  revert b xs. induction m as [| t m IH]; intros [| b0 b] [| x xs];
    simpl; rewrite ?select_nil_r; try done.
  destruct t; simpl; [destruct b0 |]; by rewrite IH.
Qed.

Lemma mask_sum_select (m b : list bool) :
  mask_sum (select m b) = mask_sum (mask_and m b).
Proof.
  revert b. induction m as [| t m IH]; intros [| b0 b]; try done.
  simpl. destruct t; simpl; rewrite ?mask_sum_cons; [destruct b0 |];
    by rewrite IH.
Qed.

End MaskLemmas.

Lemma mask_or_false_l (a b : list bool) :
  length a = length b -> Forall (fun x => x = false) a -> mask_or a b = b.
Proof.
  intros Hl H. revert b Hl.
  induction H as [| x a -> H IH]; intros [| y b] Hl; try done.
  unfold mask_or in *. simpl. f_equal. apply IH. simpl in Hl. lia.
Qed.

Lemma select_series_select (m b : list bool) (s : series) :
  select_series (select m b) (select_series m s) = select_series (mask_and m b) s.
Proof. destruct s; simpl; by rewrite select_select. Qed.

Lemma length_to_numeric (pf : pystr -> fval) (s : series) :
  length (to_numeric pf s) = slen s.
Proof. destruct s; simpl; by rewrite ?length_fmap. Qed.

Lemma wf_rename (mapping : list (string * string)) (df : frame) :
  wf_frame df -> wf_frame (Pipeline.rename mapping df).
Proof.
  unfold wf_frame, Pipeline.rename. simpl. intros H.
  apply Forall_fmap. eapply Forall_impl; [exact H |]. by intros [n s].
Qed.

Lemma discount_mask_lookup (dp : list fval) (i : nat) (p : fval) :
  dp !! i = Some p ->
  discount_mask dp !! i = Some (fge p (Fin 0) && fle p (Fin 100)).
Proof.
  intros H. unfold discount_mask, mask_and.
  by rewrite lookup_zip_with, !list_lookup_fmap, H.
Qed.

Import Pipeline.

Section Normalizer.

#[local] Arguments fgt : simpl never.
#[local] Arguments fge : simpl never.
#[local] Arguments fle : simpl never.
#[local] Arguments isnan : simpl never.

Lemma normalizer_mask_lookup (mrp dsp dp : list fval) (i : nat) (m d p : fval) :
  mrp !! i = Some m -> dsp !! i = Some d -> dp !! i = Some p ->
  normalizer_mask mrp dsp dp !! i
  = Some (negb (isnan m || isnan d) && (fgt m (Fin 0) && fgt d (Fin 0))
          && (fge p (Fin 0) && fle p (Fin 100))).
Proof.
  intros Hm Hd Hp.
  unfold normalizer_mask, essential_mask, positive_mask, mask_and, mask_or,
    mask_not.
  rewrite !lookup_zip_with, (discount_mask_lookup _ _ _ Hp).
  by rewrite !list_lookup_fmap, !lookup_zip_with, !list_lookup_fmap, Hm, Hd.
Qed.

Lemma positive_mask_select (m : list bool) (mrp dsp : list fval) :
  positive_mask (select m mrp) (select m dsp) = select m (positive_mask mrp dsp).
Proof.
  unfold positive_mask, mask_and. by rewrite select_zip_with, !select_fmap.
Qed.

Lemma discount_mask_select (m : list bool) (dp : list fval) :
  discount_mask (select m dp) = select m (discount_mask dp).
Proof.
  unfold discount_mask, mask_and. by rewrite select_zip_with, !select_fmap.
Qed.

(** C2, amended: the normalizer keeps a row exactly when its parsed mrp
    and discounted_selling_price are present and positive and its parsed
    discount_percent is a number in [0, 100]; a row whose discount_percent
    is missing is dropped by the discount-range filter, like a row whose
    discount_percent is out of range. *)
Theorem normalizer_discount_filter (float_str : fval -> pystr)
    (parse_float : pystr -> fval) (raw out : frame) :
  wf_frame raw ->
  transform_data float_str parse_float raw = Ok out ->
  let mrp := parsed_column parse_float raw "mrp" in
  let dsp := parsed_column parse_float raw "discounted_selling_price" in
  let dp := parsed_column parse_float raw "discount_percent" in
  nrows out = mask_sum (normalizer_mask mrp dsp dp) /\
  assoc "discount_percent" (columns out)
  = Some (SNum (select (normalizer_mask mrp dsp dp) dp)) /\
  (forall (i : nat) (m d p : fval),
     mrp !! i = Some m -> dsp !! i = Some d -> dp !! i = Some p ->
     normalizer_mask mrp dsp dp !! i
     = Some (negb (isnan m || isnan d) && (fgt m (Fin 0) && fgt d (Fin 0))
             && (fge p (Fin 0) && fle p (Fin 100)))) /\
  (forall (i : nat) (m d : fval),
     mrp !! i = Some m -> dsp !! i = Some d -> dp !! i = Some NaN ->
     normalizer_mask mrp dsp dp !! i = Some false).
Proof.
  intros Hwf H. cbv zeta.
  split; [| split; [| split]]; cycle 2.
  { apply normalizer_mask_lookup. }
  { intros i m d Hm Hd Hp.
    rewrite (normalizer_mask_lookup _ _ _ _ _ _ _ Hm Hd Hp). simpl.
    by rewrite andb_false_r. }
  all: unfold transform_data in H; cbn [convert_columns] in H.
  all: pose proof (wf_rename column_mapping _ Hwf) as Hwf0.
  all: unfold parsed_column.
  all: remember (rename column_mapping raw) as F0 eqn:HF0; clear HF0.
  all: inv_bind H as F1 H1.
  all: inv_bind H1 as s_mrp Hs_mrp; inv_bind H1 as s_dp Hs_dp;
    inv_bind H1 as s_aq Hs_aq; inv_bind H1 as s_dsp Hs_dsp;
    inv_bind H1 as s_w Hs_w; inv_bind H1 as s_q Hs_q.
  all: injection H1 as <-.
  all: apply get_col_Ok in Hs_mrp, Hs_dp, Hs_aq, Hs_dsp, Hs_w, Hs_q.
  all: simpl in Hs_dp, Hs_aq, Hs_dsp, Hs_w, Hs_q.
  all: revert Hs_dp Hs_aq Hs_dsp Hs_w Hs_q; assoc_simpl;
    intros Hs_dp Hs_aq Hs_dsp Hs_w Hs_q.
  all: inv_bind H as s_oos Hs_oos.
  all: inv_bind H as F3 H3.
  all: inv_bind H3 as s_cat Hs_cat; inv_bind H3 as s_name Hs_name.
  all: injection H3 as <-.
  all: inv_bind H as c_cat Hc_cat; inv_bind H as c_name Hc_name;
    inv_bind H as c_mrp Hc_mrp; inv_bind H as c_dsp Hc_dsp.
  all: apply get_col_Ok in Hs_oos, Hs_cat, Hs_name, Hc_cat, Hc_name, Hc_mrp, Hc_dsp.
  all: simpl in Hs_oos, Hs_cat, Hs_name, Hc_cat, Hc_name, Hc_mrp, Hc_dsp.
  all: revert Hs_oos Hs_cat Hs_name Hc_cat Hc_name Hc_mrp Hc_dsp; assoc_simpl;
    intros Hs_oos Hs_cat Hs_name Hc_cat Hc_name Hc_mrp Hc_dsp.
  all: injection Hc_cat as <-; injection Hc_name as <-.
  all: injection Hc_mrp as <-; injection Hc_dsp as <-.
  all: pose proof (wf_assoc _ _ _ Hwf0 Hs_mrp) as Lmrp.
  all: pose proof (wf_assoc _ _ _ Hwf0 Hs_dsp) as Ldsp.
  all: pose proof (wf_assoc _ _ _ Hwf0 Hs_dp) as Ldp.
  all: pose proof (wf_assoc _ _ _ Hwf0 Hs_cat) as Lcat.
  all: pose proof (wf_assoc _ _ _ Hwf0 Hs_name) as Lname.
  all: rewrite Hs_mrp, Hs_dsp, Hs_dp.
  all: set (mrp := to_numeric parse_float s_mrp) in *.
  all: set (dsp := to_numeric parse_float s_dsp) in *.
  all: set (dp := to_numeric parse_float s_dp) in *.
  all: assert (length mrp = nrows F0) as Lm
      by (unfold mrp; by rewrite length_to_numeric).
  all: assert (length dsp = nrows F0) as Ld
      by (unfold dsp; by rewrite length_to_numeric).
  all: match type of H with
       | context [select_rows (mask_not ?mm) ?F] =>
           assert (mask_not mm = essential_mask mrp dsp) as Hm1
       end.
  1, 3: unfold essential_mask; f_equal; simpl;
    rewrite (mask_or_false_l _ (mask_or _ _));
    [ done
    | unfold mask_or; rewrite !length_zip_with, !length_fmap;
      unfold DataProcessor.astype_str;
      destruct s_cat, s_name; simpl in *; rewrite ?length_fmap; lia
    | unfold mask_or; apply Forall_forall; intros x Hx;
      apply list_elem_of_lookup in Hx as [j Hj];
      apply lookup_zip_with_Some in Hj as (a & b & -> & Ha & Hb);
      apply list_lookup_fmap_Some in Ha as (a' & -> & Ha);
      apply list_lookup_fmap_Some in Hb as (b' & -> & Hb);
      apply list_lookup_fmap_Some in Ha as (a'' & -> & Ha);
      apply list_lookup_fmap_Some in Hb as (b'' & -> & Hb);
      done ].
  all: rewrite Hm1 in H; clear Hm1.
  all: set (m1 := essential_mask mrp dsp) in *.
  all: inv_bind H as mrp4 Hmrp4; inv_bind H as dsp4 Hdsp4.
  all: apply get_num_Ok in Hmrp4, Hdsp4; simpl in Hmrp4, Hdsp4.
  all: rewrite assoc_fmap in Hmrp4, Hdsp4.
  all: revert Hmrp4 Hdsp4; assoc_simpl; simpl; intros [= <-] [= <-].
  all: inv_bind H as dp5 Hdp5.
  all: apply get_num_Ok in Hdp5; simpl in Hdp5.
  all: rewrite !assoc_fmap in Hdp5.
  all: revert Hdp5; assoc_simpl; simpl; intros [= <-].
  all: inv_bind H as aq Haq; inv_bind H as w Hw; inv_bind H as q Hq;
    inv_bind H as oos Hoos.
  all: injection H as <-.
  all: fold (positive_mask (select m1 mrp) (select m1 dsp)).
  all: fold (discount_mask
               (select (positive_mask (select m1 mrp) (select m1 dsp))
                       (select m1 dp))).
  all: rewrite positive_mask_select, select_select, discount_mask_select.
  - simpl. by rewrite mask_sum_select.
  - simpl. assoc_simpl. rewrite !assoc_fmap. assoc_simpl. simpl.
    by rewrite !select_select.
Qed.

End Normalizer.

Lemma normalizer_discount_filter_witness :
  match transform_data (fun _ => []) (fun _ => NaN) undiscounted_raw with
  | Ok out => nrows out = 0
  | Raise _ => False
  end.
Proof.
  destruct (transform_data (fun _ => []) (fun _ => NaN) undiscounted_raw)
    as [out | e] eqn:E.
  - apply normalizer_discount_filter in E as (Hn & _);
      [| repeat constructor].
    rewrite Hn. reflexivity.
  - vm_compute in E. discriminate E.
Defined.

(** C2 as stated fails: the product of [undiscounted_raw] has its
    category, its name and two positive prices, and its discount cell
    holds no number; the normalizer drops it. *)
Lemma normalizer_discount_filter_counterexample :
  ~ (forall (float_str : fval -> pystr) (parse_float : pystr -> fval)
       (raw out : frame),
       wf_frame raw ->
       transform_data float_str parse_float raw = Ok out ->
       nrows out
       = mask_sum (lenient_normalizer_mask
                     (parsed_column parse_float raw "mrp")
                     (parsed_column parse_float raw "discounted_selling_price")
                     (parsed_column parse_float raw "discount_percent"))).
Proof.
  intros H.
  destruct (transform_data (fun _ => []) (fun _ => NaN) undiscounted_raw)
    as [out | e] eqn:E; [| vm_compute in E; discriminate E].
  assert (wf_frame undiscounted_raw) as Hwf by repeat constructor.
  pose proof (H _ _ _ _ Hwf E) as Hn.
  vm_compute in E. injection E as <-. vm_compute in Hn. discriminate Hn.
Qed.

(** ** Quantiles *)

Lemma fle_total (a b : fval) :
  isnan a = false -> isnan b = false -> fle a b = false -> fle b a = true.
Proof.
  destruct a as [| | | x], b as [| | | y]; try done. simpl. intros _ _ H.
  apply Qle_bool_iff. destruct (Qle_bool x y) eqn:E; [done |].
  destruct (Qlt_le_dec y x) as [Hlt | Hle]; [lra |].
  apply Qle_bool_iff in Hle. congruence.
Qed.

Lemma fle_trans (a b c : fval) : fle_rel a b -> fle_rel b c -> fle_rel a c.
Proof.
  unfold fle_rel.
  destruct a as [| | | x], b as [| | | y], c as [| | | z]; try done. simpl.
  rewrite !Qle_bool_iff. lra.
Qed.

Lemma Forall_insert_sorted (P : fval -> Prop) (x : fval) (l : list fval) :
  P x -> Forall P l -> Forall P (insert_sorted x l).
Proof.
  intros Hx H. induction H as [| y l Hy H IH]; simpl.
  - by repeat constructor.
  - destruct (fle x y); by repeat constructor.
Qed.

Lemma insert_sorted_sorted (x : fval) (l : list fval) :
  isnan x = false ->
  Forall (fun y => isnan y = false) l ->
  StronglySorted fle_rel l ->
  StronglySorted fle_rel (insert_sorted x l).
Proof.
  intros Hx Hnan Hs. induction Hs as [| y l Hs IH Hy]; simpl.
  - by repeat constructor.
  - apply Forall_cons in Hnan as [Hyn Hnan].
    destruct (fle x y) eqn:E.
    + constructor; [by constructor |]. constructor; [done |].
      eapply Forall_impl; [exact Hy |]. intros z Hz. by eapply fle_trans.
    + constructor; [by apply IH |].
      apply Forall_insert_sorted; [| done]. by apply fle_total.
Qed.

Lemma sort_sorted (l : list fval) :
  Forall (fun y => isnan y = false) l ->
  StronglySorted fle_rel (sort l) /\
  Forall (fun y => isnan y = false) (sort l).
Proof.
  intros H. induction H as [| x l Hx H [IH1 IH2]]; simpl.
  - by repeat constructor.
  - split; [by apply insert_sorted_sorted | by apply Forall_insert_sorted].
Qed.

Lemma dropna_present (xs : list fval) :
  Forall (fun y => isnan y = false) (dropna xs).
Proof.
  unfold dropna. apply Forall_forall. intros y Hy.
  apply list_elem_of_In, filter_In in Hy as [_ Hy]. by apply negb_true_iff.
Qed.

Lemma sorted_lookup (l : list fval) (i j : nat) (a b : Q) :
  StronglySorted fle_rel l -> i <= j ->
  l !! i = Some (Fin a) -> l !! j = Some (Fin b) -> (a <= b)%Q.
Proof.
  intros Hs. revert i j. induction Hs as [| y l Hs IH Hy]; intros i j Hij Hi Hj.
  - done.
  - destruct i as [| i], j as [| j]; simpl in *; try lia.
    + injection Hi as ->. injection Hj as [= ->]. lra.
    + injection Hi as ->. rewrite Forall_forall in Hy.
      assert (fle_rel (Fin a) (Fin b)) as H.
      { apply Hy. eapply list_elem_of_lookup_2. exact Hj. }
      by apply Qle_bool_iff in H.
    + apply (IH i j); [lia | done | done].
Qed.

(** A finite interpolation lies between two finite neighbours. *)
Lemma lerp_fin (a b : fval) (t r : Q) :
  lerp a b t = Fin r ->
  exists a' b', a = Fin a' /\ b = Fin b' /\ (r == a' + (b' - a') * t)%Q.
Proof.
  unfold lerp.
  destruct a as [| | | a'], b as [| | | b']; simpl;
    destruct (Qle_bool (1 # 2) t); unfold inf_times;
    repeat match goal with
           | |- context [if ?c then _ else _] => destruct c
           end;
    try discriminate; intros [= <-]; exists a', b';
    (split; [done |]); (split; [done |]); ring.
Qed.

(** Where a finite quantile comes from: two finite neighbours of the
    sorted present values and a weight in [0, 1). *)
Lemma quantile_fin (p : Q) (xs : list fval) (r : Q) :
  quantile p xs = Fin r ->
  let v := sort (dropna xs) in
  let virtual := (inject_Z (Z.of_nat (length v - 1)) * p)%Q in
  let previous := Z.to_nat (Qfloor virtual) in
  let next := Nat.min (previous + 1) (length v - 1) in
  let gamma := (virtual - inject_Z (Qfloor virtual))%Q in
  exists a b,
    v !! previous = Some (Fin a) /\ v !! next = Some (Fin b) /\
    (r == a + (b - a) * gamma)%Q.
Proof.
  unfold quantile. cbv zeta.
  destruct (sort (dropna xs)) as [| y v] eqn:Ev; [done |].
  set (n := length (y :: v)).
  set (virtual := (inject_Z (Z.of_nat (n - 1)) * p)%Q).
  destruct ((y :: v) !! Z.to_nat (Qfloor virtual)) as [a |] eqn:Ha; [| done].
  destruct ((y :: v) !! Nat.min (Z.to_nat (Qfloor virtual) + 1) (n - 1))
    as [b |] eqn:Hb; [| done].
  intros H. apply lerp_fin in H as (a' & b' & -> & -> & Hr).
  by exists a', b'.
Qed.

Lemma quantile_mono (p1 p2 : Q) (xs : list fval) (r1 r2 : Q) :
  (0 <= p1)%Q -> (p1 <= p2)%Q ->
  quantile p1 xs = Fin r1 -> quantile p2 xs = Fin r2 -> (r1 <= r2)%Q.
Proof.
  intros Hp1 Hp12 H1 H2.
  apply quantile_fin in H1 as (a1 & b1 & Ha1 & Hb1 & Hr1).
  apply quantile_fin in H2 as (a2 & b2 & Ha2 & Hb2 & Hr2).
  destruct (sort_sorted _ (dropna_present xs)) as [Hs _].
  set (v := sort (dropna xs)) in *.
  set (K := inject_Z (Z.of_nat (length v - 1))) in *.
  assert (0 <= K)%Q as HK.
  { unfold K. change 0%Q with (inject_Z 0). rewrite <- Zle_Qle. lia. }
  assert (K * p1 <= K * p2)%Q as Hv by nra.
  assert (0 <= K * p1)%Q as Hv0 by nra.
  pose proof (Qfloor_resp_le _ _ Hv) as Hf.
  pose proof (Qfloor_resp_le _ _ Hv0) as Hf0. change (Qfloor 0) with 0%Z in Hf0.
  set (f1 := Qfloor (K * p1)) in *. set (f2 := Qfloor (K * p2)) in *.
  pose proof (Qfloor_le (K * p1)) as L1. pose proof (Qlt_floor (K * p1)) as U1.
  pose proof (Qfloor_le (K * p2)) as L2. pose proof (Qlt_floor (K * p2)) as U2.
  fold f1 in L1, U1. fold f2 in L2, U2.
  rewrite inject_Z_plus in U1, U2. change (inject_Z 1) with 1%Q in U1, U2.
  pose proof (lookup_lt_Some _ _ _ Ha1) as B1.
  pose proof (lookup_lt_Some _ _ _ Ha2) as B2.
  assert (a1 <= b1)%Q as O1 by (eapply (sorted_lookup v); [done | | done | done]; lia).
  assert (a2 <= b2)%Q as O2 by (eapply (sorted_lookup v); [done | | done | done]; lia).
  destruct (decide (Z.to_nat f1 = Z.to_nat f2)) as [E | E].
  - assert (f1 = f2) as Ef by lia.
    rewrite <- E in Ha2, Hb2. rewrite Ha1 in Ha2. rewrite Hb1 in Hb2.
    injection Ha2 as <-. injection Hb2 as <-.
    rewrite <- Ef in Hr2, L2, U2. rewrite Hr1, Hr2. nra.
  - assert (b1 <= a2)%Q as O12
      by (eapply (sorted_lookup v); [done | | done | done]; lia).
    rewrite Hr1, Hr2. nra.
Qed.

(** ** The IQR rule *)

Lemma iqr_mask_lookup (xs : list fval) (i : nat) (x : fval) :
  xs !! i = Some x ->
  iqr_mask xs !! i
  = Some (flt x (fst (iqr_bounds xs)) || fgt x (snd (iqr_bounds xs))).
Proof.
  intros H. unfold iqr_mask. destruct (iqr_bounds xs) as [lower upper].
  unfold mask_or. by rewrite lookup_zip_with, !list_lookup_fmap, H.
Qed.

Lemma insert_sorted_cons (x : fval) (l : list fval) : insert_sorted x l <> [].
Proof. destruct l as [| y r]; simpl; [done |]. by destruct (fle x y). Qed.

Lemma sort_nil (l : list fval) : sort l = [] -> l = [].
Proof.
  destruct l as [| x l]; [done |]. simpl. intros H.
  by apply insert_sorted_cons in H.
Qed.

Lemma Forall_sort (P : fval -> Prop) (l : list fval) :
  Forall P l -> Forall P (sort l).
Proof.
  induction 1 as [| x l Hx H IH]; simpl; [constructor |].
  by apply Forall_insert_sorted.
Qed.

Lemma dropna_whole (b : Z) (xs : list fval) :
  Forall (whole_within b) xs ->
  Forall (fun y => isfinite y = true) (dropna xs).
Proof.
  intros H. unfold dropna. apply Forall_forall. intros y Hy.
  apply list_elem_of_In, filter_In in Hy as [Hin Hy].
  apply list_elem_of_In in Hin. rewrite Forall_forall in H.
  destruct (H _ Hin) as [-> | (z & (q & -> & _) & _)]; done.
Qed.

(** A quantile of present values that are all numbers is a number. *)
Lemma quantile_finite (p : Q) (xs : list fval) :
  (0 <= p)%Q -> (p <= 1)%Q ->
  Forall (fun y => isfinite y = true) (dropna xs) ->
  dropna xs <> [] ->
  exists r, quantile p xs = Fin r.
Proof.
  intros Hp0 Hp1 Hfin Hne. unfold quantile. cbv zeta.
  apply Forall_sort in Hfin.
  destruct (sort (dropna xs)) as [| y l] eqn:El.
  { by apply sort_nil in El. }
  clear El Hne. remember (y :: l) as v eqn:Ev.
  assert (0 < length v) as Hlen by (subst v; simpl; lia).
  clear Ev y l.
  set (K := inject_Z (Z.of_nat (length v - 1))).
  assert (0 <= K)%Q as HK.
  { unfold K. change 0%Q with (inject_Z 0). rewrite <- Zle_Qle. lia. }
  assert (K * p <= K)%Q as Hv by nra.
  assert (0 <= K * p)%Q as Hv0 by nra.
  apply Qfloor_resp_le in Hv. unfold K in Hv at 2. rewrite Qfloor_Z in Hv.
  apply Qfloor_resp_le in Hv0. change (Qfloor 0) with 0%Z in Hv0.
  destruct (lookup_lt_is_Some_2 v (Z.to_nat (Qfloor (K * p)))) as [a Ha];
    [lia |].
  destruct (lookup_lt_is_Some_2 v
              (Nat.min (Z.to_nat (Qfloor (K * p)) + 1) (length v - 1)))
    as [b Hb]; [lia |].
  destruct v as [| y l]; [simpl in Hlen; lia |].
  rewrite Ha, Hb. rewrite Forall_lookup in Hfin.
  pose proof (Hfin _ _ Ha) as Fa. pose proof (Hfin _ _ Hb) as Fb.
  destruct a as [| | | a]; try discriminate.
  destruct b as [| | | b]; try discriminate.
  unfold lerp. simpl. destruct (Qle_bool (1 # 2) _); by eexists.
Qed.

Lemma length_iqr_mask (xs : list fval) : length (iqr_mask xs) = length xs.
Proof.
  unfold iqr_mask. destruct (iqr_bounds xs) as [lower upper].
  unfold mask_or. rewrite length_zip_with, !length_fmap. lia.
Qed.

(** C7, amended: on a column of whole numbers (missing cells allowed, at
    least one number, magnitudes up to 2^40, for which the quartiles and
    the fences are exact in binary64), the quartiles Q1 <= Q3 are numbers
    and the IQR method returns one flag per row, which holds exactly on
    the values strictly below [Q1 - 1.5 IQR] or strictly above
    [Q3 + 1.5 IQR]; a value equal to the upper fence is no outlier, a value
    one unit above it is one, and a missing cell is none. *)
Theorem iqr_outlier_rule (df : frame) (column : string) (xs : list fval) :
  get_num column df = Ok xs ->
  Forall (whole_within (2 ^ 40)) xs ->
  dropna xs <> [] ->
  exists (q1 q3 : Q) (mask : list bool),
    quantile (1 # 4) xs = Fin q1 /\
    quantile (3 # 4) xs = Fin q3 /\
    (q1 <= q3)%Q /\
    detect_outliers df column "iqr" = Ok mask /\
    length mask = length xs /\
    (forall (i : nat) (x : Q),
       xs !! i = Some (Fin x) ->
       (mask !! i = Some true <->
        (x < lower_fence q1 q3)%Q \/ (upper_fence q1 q3 < x)%Q) /\
       ((x == upper_fence q1 q3)%Q -> mask !! i = Some false) /\
       ((x == upper_fence q1 q3 + 1)%Q -> mask !! i = Some true)) /\
    (forall i : nat, xs !! i = Some NaN -> mask !! i = Some false).
Proof.
  intros Hxs Hwhole Hne.
  pose proof (dropna_whole _ _ Hwhole) as Hfin.
  destruct (quantile_finite (1 # 4) xs) as [q1 H1]; [done | done | done | done |].
  destruct (quantile_finite (3 # 4) xs) as [q3 H3]; [done | done | done | done |].
  assert (q1 <= q3)%Q as Hq
    by (by apply (quantile_mono (1 # 4) (3 # 4) xs)).
  assert (iqr_bounds xs
          = (Fin (q1 + - ((3 # 2) * (q3 + - q1))),
             Fin (q3 + (3 # 2) * (q3 + - q1)))) as Hb.
  { unfold iqr_bounds. cbv zeta. by rewrite H1, H3. }
  exists q1, q3, (iqr_mask xs).
  split; [done |]. split; [done |]. split; [done |].
  split; [unfold detect_outliers; simpl; by rewrite Hxs |].
  split; [apply length_iqr_mask |].
  unfold lower_fence, upper_fence. split.
  - intros i x Hi. rewrite (iqr_mask_lookup _ _ _ Hi), Hb.
    unfold fgt. cbn [fst snd flt].
    split; [| split].
    + split.
      * intros [= H]. apply orb_true_iff in H as [H | H];
          apply Qltb_lt in H; [left | right]; lra.
      * intros [H | H]; f_equal; apply orb_true_iff; [left | right];
          apply Qltb_lt; lra.
    + intros Hx. f_equal. apply orb_false_iff. split; apply Qltb_ge; lra.
    + intros Hx. f_equal. apply orb_true_iff. right. apply Qltb_lt. lra.
  - intros i Hi. rewrite (iqr_mask_lookup _ _ _ Hi), Hb. reflexivity.
Qed.

(** In [1, 2, 3, 4, 100] the quartiles are 2 and 4 and the fences -1 and
    7: the value 100 is flagged, the value 4 is not. *)
Lemma iqr_outlier_rule_witness :
  exists mask,
    detect_outliers spread_column "mrp" "iqr" = Ok mask /\
    mask !! 4 = Some true /\ mask !! 3 <> Some true.
Proof.
  destruct (iqr_outlier_rule spread_column "mrp"
              [Fin 1; Fin 2; Fin 3; Fin 4; Fin 100])
    as (q1 & q3 & mask & H1 & H3 & _ & Hmask & _ & Hrows & _).
  - reflexivity.
  - repeat apply Forall_cons_2; try apply Forall_nil_2;
      right; eexists; (split; [eexists; split; reflexivity | done]).
  - discriminate.
  - vm_compute in H1. injection H1 as <-.
    vm_compute in H3. injection H3 as <-.
    exists mask. split; [exact Hmask |]. split.
    + destruct (Hrows 4 100%Q eq_refl) as [Hiff _].
      apply Hiff. right. by vm_compute.
    + destruct (Hrows 3 4%Q eq_refl) as [Hiff _].
      intros Hflag. apply Hiff in Hflag.
      destruct Hflag as [Hlow | Hhigh]; vm_compute in *; discriminate.
Defined.

(** C7 as stated fails at the boundary.  For the prices 0.4, 1.8, 0.3,
    1.6 and 3.9 the quartiles are 0.4 and 1.8 and [Q3 + 1.5 IQR] is 3.9,
    the last price.  The source computes the fence in binary64 as
    3.8999999999999995 and flags 3.9, although in real arithmetic on the
    very numbers it holds no price is above the fence. *)
Lemma iqr_outlier_rule_counterexample :
  Float64.iqr_mask boundary_prices = [false; false; false; false; true] /\
  iqr_mask (Float64.exact <$> boundary_prices)
  = [false; false; false; false; false] /\
  holds (39 # 10) (snd (iqr_bounds (Fin <$> boundary_decimals))) /\
  iqr_mask (Fin <$> boundary_decimals) = [false; false; false; false; false].
Proof.
  split; [by vm_compute |]. split; [by vm_compute |]. split; [| by vm_compute].
  eexists. split; [by vm_compute | by vm_compute].
Qed.

(** On whole numbers the binary64 computation gives the flags of the
    exact one. *)
Example iqr_whole_numbers :
  Float64.iqr_mask (Float64.of_Z <$> [1; 2; 3; 4; 100]%Z)
  = iqr_mask [Fin 1; Fin 2; Fin 3; Fin 4; Fin 100].
Proof. by vm_compute. Qed.

(** The fence of [1, 2, 3, 4, 7] is 7: the value 7 is on it, and 8 is one
    unit above the fence of [1, 2, 3, 4, 8], which is 7 too. *)
Example iqr_boundary :
  feq (snd (iqr_bounds [Fin 1; Fin 2; Fin 3; Fin 4; Fin 7])) (Fin 7) = true /\
  iqr_mask [Fin 1; Fin 2; Fin 3; Fin 4; Fin 7] = [false; false; false; false; false] /\
  feq (snd (iqr_bounds [Fin 1; Fin 2; Fin 3; Fin 4; Fin 8])) (Fin 7) = true /\
  iqr_mask [Fin 1; Fin 2; Fin 3; Fin 4; Fin 8] = [false; false; false; false; true].
Proof. vm_compute. repeat split. Qed.

(** ** The object store: what a run leaves behind *)

Section Runs.
Implicit Types (hp h : list frame) (cur : frame).

Lemma mbind_run {A B} (m : Heap.M A) (f : A -> Heap.M B) h :
  Heap.mbind m f h
  = match m h with
    | (h', Ok a) => f a h'
    | (h', Raise e) => (h', Raise e)
    end.
Proof. reflexivity. Qed.

Lemma load_last hp cur :
  Heap.load (length hp) (hp ++ [cur]) = (hp ++ [cur], Ok cur).
Proof.
  unfold Heap.load, Heap.loc.
  by rewrite (list_lookup_middle hp [] cur (length hp) eq_refl).
Qed.

Lemma store_last hp cur (df : frame) :
  Heap.store (length hp) df (hp ++ [cur]) = (hp ++ [df], Ok tt).
Proof.
  unfold Heap.store, Heap.loc. f_equal.
  rewrite insert_app_r_alt by lia. by rewrite Nat.sub_diag.
Qed.

Lemma setitem_last hp cur (name : string) (s : series) :
  Heap.setitem (length hp) name s (hp ++ [cur])
  = (hp ++ [set_col name s cur], Ok tt).
Proof.
  unfold Heap.setitem. rewrite mbind_run, load_last. apply store_last.
Qed.

Lemma getnum_last hp cur (name : string) :
  Heap.getnum (length hp) name (hp ++ [cur]) = (hp ++ [cur], get_num name cur).
Proof. unfold Heap.getnum. by rewrite mbind_run, load_last. Qed.

Lemma getitem_last hp cur (name : string) :
  Heap.getitem (length hp) name (hp ++ [cur]) = (hp ++ [cur], get_col name cur).
Proof. unfold Heap.getitem. by rewrite mbind_run, load_last. Qed.

Lemma copy_run h (l : Heap.loc) (df : frame) :
  h !! l = Some df -> Heap.copy l h = (h ++ [df], Ok (length h)).
Proof.
  intros H. unfold Heap.copy, Heap.load, Heap.alloc.
  rewrite mbind_run. by rewrite H.
Qed.

End Runs.

Ltac run_step :=
  progress (rewrite ?mbind_run, ?getnum_last, ?getitem_last, ?setitem_last,
              ?load_last;
            cbn [Heap.lift Heap.ret Heap.alloc bind]; cbv zeta).

(** Each rule on the store does what the rule does on the table it is
    given: the frames of the store stay, new ones come after them, and
    the returned reference is to the last. *)
Lemma rule1_run (hp : list frame) (cur : frame) (msgs : list string) :
  exists ext,
    match rule1 cur msgs with
    | Ok (cur', msgs') =>
        Heap.rule1 (length hp) msgs (hp ++ [cur])
        = ((hp ++ ext) ++ [cur'], Ok (length (hp ++ ext), msgs'))
    | Raise e =>
        Heap.rule1 (length hp) msgs (hp ++ [cur]) = (hp ++ ext, Raise e)
    end.
Proof.
  unfold rule1, Heap.rule1.
  run_step. destruct (get_num "mrp" cur) as [mrp | e]; cbn [bind];
    [| by exists [cur]].
  run_step.
  destruct (get_num "discounted_selling_price" cur) as [dsp | e]; cbn [bind];
    [| by exists [cur]].
  destruct (mask_any (zip_with flt mrp dsp)).
  - run_step. by exists [cur].
  - exists []. by rewrite app_nil_r.
Qed.

Ltac run_known :=
  match goal with
  | H : ?x = Ok _ |- context [?x] => rewrite H
  | H : ?x = Raise _ |- context [?x] => rewrite H
  end.

Ltac run_case :=
  match goal with
  | |- context [bind (get_num ?n ?f) _] =>
      destruct (get_num n f) eqn:?; cbn [bind]
  | |- context [bind (get_col ?n ?f) _] =>
      destruct (get_col n f) eqn:?; cbn [bind]
  | |- context [bind (astype_int ?x) _] =>
      destruct (astype_int x) eqn:?; cbn [bind]
  | |- context [bind (drop ?n ?f) _] => destruct (drop n f) eqn:?; cbn [bind]
  | |- context [bind (str_accessor ?s) _] =>
      destruct (str_accessor s) eqn:?; cbn [bind]
  | |- context [if mask_any ?m then _ else _] => destruct (mask_any m)
  | |- context [if has_col ?n ?f then _ else _] => destruct (has_col n f)
  | |- context [if fgt ?a ?b then _ else _] => destruct (fgt a b)
  end.

Ltac run_end :=
  first [ by eexists | by (exists []; rewrite app_nil_r) ].

Ltac run := cbv zeta; repeat (run_step || run_known || run_case); try run_end.

Lemma rule2_run (hp : list frame) (cur : frame) (msgs : list string) :
  exists ext,
    match rule2 cur msgs with
    | Ok (cur', msgs') =>
        Heap.rule2 (length hp) msgs (hp ++ [cur])
        = ((hp ++ ext) ++ [cur'], Ok (length (hp ++ ext), msgs'))
    | Raise e =>
        Heap.rule2 (length hp) msgs (hp ++ [cur]) = (hp ++ ext, Raise e)
    end.
Proof. unfold rule2, Heap.rule2. run. Qed.

Lemma rule3_run (hp : list frame) (cur : frame) (msgs : list string) :
  exists ext,
    match rule3 cur msgs with
    | Ok (cur', msgs') =>
        Heap.rule3 (length hp) msgs (hp ++ [cur])
        = ((hp ++ ext) ++ [cur'], Ok (length (hp ++ ext), msgs'))
    | Raise e =>
        Heap.rule3 (length hp) msgs (hp ++ [cur]) = (hp ++ ext, Raise e)
    end.
Proof. unfold rule3, Heap.rule3. run. Qed.

Lemma rule4_run (hp : list frame) (cur : frame) (msgs : list string) :
  exists ext,
    match rule4 cur msgs with
    | Ok (cur', msgs') =>
        Heap.rule4 (length hp) msgs (hp ++ [cur])
        = ((hp ++ ext) ++ [cur'], Ok (length (hp ++ ext), msgs'))
    | Raise e =>
        Heap.rule4 (length hp) msgs (hp ++ [cur]) = (hp ++ ext, Raise e)
    end.
Proof. unfold rule4, Heap.rule4. run. Qed.

(** [validate_business_rules] on the store: the frames of the store stay
    as they are, and the returned reference is to a new frame, the table
    that the rule engine computes from the referenced one. *)
Lemma validate_business_rules_run (h : list frame) (l : Heap.loc) (df : frame) :
  h !! l = Some df ->
  exists ext,
    match validate_business_rules df with
    | Ok (df', msgs) =>
        Heap.validate_business_rules l h
        = ((h ++ ext) ++ [df'], Ok (length (h ++ ext), msgs))
    | Raise e => Heap.validate_business_rules l h = (h ++ ext, Raise e)
    end.
Proof.
  intros Hl. unfold validate_business_rules, Heap.validate_business_rules.
  cbv zeta. rewrite mbind_run, (copy_run _ _ _ Hl).
  destruct (rule1_run h df []) as [e1 H1].
  destruct (rule1 df []) as [[df1 m1] | e]; cbn [bind];
    [| exists e1; by rewrite mbind_run, H1].
  rewrite mbind_run, H1.
  destruct (rule2_run (h ++ e1) df1 m1) as [e2 H2].
  destruct (rule2 df1 m1) as [[df2 m2] | e]; cbn [bind];
    [| exists (e1 ++ e2); by rewrite mbind_run, H2, app_assoc].
  rewrite mbind_run, H2.
  destruct (rule3_run ((h ++ e1) ++ e2) df2 m2) as [e3 H3].
  destruct (rule3 df2 m2) as [[df3 m3] | e]; cbn [bind];
    [| exists (e1 ++ e2 ++ e3); by rewrite mbind_run, H3, !app_assoc].
  rewrite mbind_run, H3.
  destruct (rule4_run (((h ++ e1) ++ e2) ++ e3) df3 m3) as [e4 H4].
  destruct (rule4 df3 m3) as [[df4 m4] | e]; cbn [bind];
    [| exists (e1 ++ e2 ++ e3 ++ e4); by rewrite mbind_run, H4, !app_assoc].
  rewrite mbind_run, H4.
  exists (e1 ++ e2 ++ e3 ++ e4). by rewrite !app_assoc.
Qed.

Lemma standardize_category_names_run (h : list frame) (l : Heap.loc) (df : frame) :
  h !! l = Some df ->
  exists ext,
    match standardize_category_names df with
    | Ok df' =>
        Heap.standardize_category_names l h
        = ((h ++ ext) ++ [df'], Ok (length (h ++ ext)))
    | Raise e => Heap.standardize_category_names l h = (h ++ ext, Raise e)
    end.
Proof.
  intros Hl. unfold standardize_category_names, Heap.standardize_category_names.
  rewrite mbind_run, (copy_run _ _ _ Hl). run.
Qed.

Lemma enrich_data_run (h : list frame) (l : Heap.loc) (df : frame) :
  h !! l = Some df ->
  exists ext,
    match enrich_data df with
    | Ok df' =>
        Heap.enrich_data l h = ((h ++ ext) ++ [df'], Ok (length (h ++ ext)))
    | Raise e => Heap.enrich_data l h = (h ++ ext, Raise e)
    end.
Proof.
  intros Hl. unfold enrich_data, Heap.enrich_data.
  rewrite mbind_run, (copy_run _ _ _ Hl). run.
Qed.

Section CurrencyRuns.
Variable float_str : fval -> pystr.
Variable parse_float : pystr -> fval.

Lemma clean_currency_column_run (hp : list frame) (cur : frame) (col : string) :
  exists cur',
    Heap.clean_currency_column float_str parse_float (length hp) col (hp ++ [cur])
    = (hp ++ [cur'], Ok tt) /\
    clean_currency_column float_str parse_float cur col = Ok cur'.
Proof.
  destruct (clean_currency_column_spec float_str parse_float cur col)
    as (cur' & Hpure & _).
  exists cur'. split; [| done]. revert Hpure.
  unfold clean_currency_column, Heap.clean_currency_column.
  run; try discriminate; by intros [= <-].
Qed.

Lemma clean_currency_loop_run (cols : list string) (hp : list frame) (cur : frame) :
  exists cur',
    Heap.for_each cols
      (Heap.clean_currency_column float_str parse_float (length hp)) (hp ++ [cur])
    = (hp ++ [cur'], Ok tt) /\
    foldl (fun acc col =>
             bind acc (fun cleaned_df =>
                         clean_currency_column float_str parse_float cleaned_df col))
          (Ok cur) cols = Ok cur'.
Proof.
  revert cur. induction cols as [| col cols IH]; intros cur.
  - by exists cur.
  - destruct (clean_currency_column_run hp cur col) as (cur1 & Hrun & Hpure).
    destruct (IH cur1) as (cur' & Hloop & Hfold).
    exists cur'. cbn [Heap.for_each foldl bind].
    by rewrite mbind_run, Hrun, Hpure.
Qed.

Lemma clean_currency_values_run (h : list frame) (l : Heap.loc) (df : frame)
    (currency_columns : list string) :
  h !! l = Some df ->
  exists df',
    Heap.clean_currency_values float_str parse_float l currency_columns h
    = (h ++ [df'], Ok (length h)) /\
    clean_currency_values float_str parse_float df currency_columns = Ok df'.
Proof.
  intros Hl. unfold clean_currency_values, Heap.clean_currency_values.
  rewrite mbind_run, (copy_run _ _ _ Hl).
  destruct (clean_currency_loop_run currency_columns h df) as (df' & Hloop & Hfold).
  exists df'. by rewrite mbind_run, Hloop.
Qed.

End CurrencyRuns.

(** C10: each of the four transformations leaves the frame that its
    argument refers to as it was, whether it returns or raises; when it
    returns, its result is a reference to another frame. *)
Theorem transformations_copy (float_str : fval -> pystr)
    (parse_float : pystr -> fval) (h : list frame) (l : Heap.loc) (df : frame)
    (currency_columns : list string) :
  h !! l = Some df ->
  ((Heap.clean_currency_values float_str parse_float l currency_columns h).1 !! l
   = Some df /\
   forall l',
     (Heap.clean_currency_values float_str parse_float l currency_columns h).2
     = Ok l' -> l' <> l) /\
  ((Heap.validate_business_rules l h).1 !! l = Some df /\
   forall l' msgs,
     (Heap.validate_business_rules l h).2 = Ok (l', msgs) -> l' <> l) /\
  ((Heap.standardize_category_names l h).1 !! l = Some df /\
   forall l', (Heap.standardize_category_names l h).2 = Ok l' -> l' <> l) /\
  ((Heap.enrich_data l h).1 !! l = Some df /\
   forall l', (Heap.enrich_data l h).2 = Ok l' -> l' <> l).
Proof.
  intros Hl. pose proof (lookup_lt_Some _ _ _ Hl) as Hlt.
  split; [| split; [| split]].
  - destruct (clean_currency_values_run float_str parse_float h l df
                currency_columns Hl) as (df' & -> & _).
    simpl. split; [by apply lookup_app_l_Some |]. intros l' [= <-]. lia.
  - destruct (validate_business_rules_run h l df Hl) as [ext H].
    destruct (validate_business_rules df) as [[df' msgs] | e]; rewrite H; simpl.
    + split; [rewrite <- app_assoc; by apply lookup_app_l_Some |].
      intros l' msgs' [= <- _]. rewrite length_app. lia.
    + split; [by apply lookup_app_l_Some | discriminate].
  - destruct (standardize_category_names_run h l df Hl) as [ext H].
    destruct (standardize_category_names df) as [df' | e]; rewrite H; simpl.
    + split; [rewrite <- app_assoc; by apply lookup_app_l_Some |].
      intros l' [= <-]. rewrite length_app. lia.
    + split; [by apply lookup_app_l_Some | discriminate].
  - destruct (enrich_data_run h l df Hl) as [ext H].
    destruct (enrich_data df) as [df' | e]; rewrite H; simpl.
    + split; [rewrite <- app_assoc; by apply lookup_app_l_Some |].
      intros l' [= <-]. rewrite length_app. lia.
    + split; [by apply lookup_app_l_Some | discriminate].
Qed.

Lemma transformations_copy_witness :
  (Heap.clean_currency_values (fun _ => []) (fun _ => NaN) 0 ["mrp"]
     [scenario_B]).1 !! 0 = Some scenario_B /\
  (Heap.validate_business_rules 0 [scenario_B]).1 !! 0 = Some scenario_B /\
  (Heap.standardize_category_names 0 [scenario_B]).1 !! 0 = Some scenario_B /\
  (Heap.enrich_data 0 [scenario_B]).1 !! 0 = Some scenario_B.
Proof.
  destruct (transformations_copy (fun _ => []) (fun _ => NaN) [scenario_B] 0
              scenario_B ["mrp"] eq_refl)
    as ((H1 & _) & (H2 & _) & (H3 & _) & (H4 & _)).
  by repeat split.
Defined.

(** The run of the rule engine on a store that holds scenario B: the
    table stays at address 0, the repaired table is the last frame. *)
Example scenario_B_on_the_store :
  (Heap.validate_business_rules 0 [scenario_B]).1 !! 0 = Some scenario_B /\
  (Heap.validate_business_rules 0 [scenario_B]).2
  = Ok (2, ["Fixed 1 products with incorrect discount percentages"]) /\
  (Heap.validate_business_rules 0 [scenario_B]).1 !! 2
  = Some (one_row (Fin 1000) (Fin 800) (Fin 20) (Fin 10) (Some false)).
Proof. vm_compute. repeat split. Qed.

(** * Further properties of the code *)

(** ** standardize_category_names *)

Lemma lstrip_head (s : pystr) (c : N) (r : pystr) :
  lstrip s = c :: r -> py_isspace c = false.
Proof.
  induction s as [| a s IH]; simpl; [done |].
  destruct (py_isspace a) eqn:E; [exact IH |]. by intros [= <- <-].
Qed.

Lemma lstrip_fixed (s : pystr) :
  match s with c :: _ => py_isspace c = false | [] => True end ->
  lstrip s = s.
Proof. destruct s as [| c r]; simpl; [done |]. by intros ->. Qed.

Lemma lstrip_suffix (s : pystr) : exists sp, s = sp ++ lstrip s.
Proof.
  induction s as [| a s [sp IH]]; simpl; [by exists [] |].
  destruct (py_isspace a); [| by exists []].
  exists (a :: sp). simpl. by f_equal.
Qed.

Lemma lstrip_lstrip (s : pystr) : lstrip (lstrip s) = lstrip s.
Proof.
  apply lstrip_fixed. destruct (lstrip s) as [| c r] eqn:E; [done |].
  by apply lstrip_head in E.
Qed.

Lemma py_strip_stripped (s : pystr) : stripped (py_strip s).
Proof.
  unfold stripped, py_strip.
  set (t := lstrip s).
  set (u := rev (lstrip (rev t))).
  assert (lstrip u = u) as ->.
  { apply lstrip_fixed. destruct u as [| c r] eqn:Eu; [done |].
    destruct (lstrip_suffix (rev t)) as [sp Hsp].
    apply (f_equal (@rev N)) in Hsp.
    rewrite rev_involutive, rev_app_distr in Hsp.
    fold u in Hsp. rewrite Eu in Hsp. simpl in Hsp.
    apply (lstrip_head s c (r ++ rev sp)). by fold t. }
  unfold u. by rewrite rev_involutive, lstrip_lstrip.
Qed.

Lemma dict_get_elem (k v : pystr) (d : list (pystr * pystr)) :
  dict_get k d = Some v -> (k, v) ∈ d.
Proof.
  induction d as [| [k' v'] d IH]; simpl; [done |].
  case_bool_decide as E.
  - intros [= ->]. subst. by left.
  - intros H. right. by apply IH.
Qed.

Lemma category_mapping_values (k v : pystr) :
  dict_get k category_mapping = Some v ->
  stripped v /\ dict_get v category_mapping = Some v.
Proof.
  intros H. apply dict_get_elem in H.
  assert (Forall (fun kv => stripped (snd kv)
                            /\ dict_get (snd kv) category_mapping = Some (snd kv))
                 category_mapping) as HF
    by (repeat constructor).
  rewrite Forall_forall in HF. exact (HF _ H).
Qed.

(** What the function stores for a category cell. *)
Lemma standardize_cell_fixed (x : option pystr) :
  let f := fun x => replace_map category_mapping (option_map py_strip x) in
  f (f x) = f x.
Proof.
  cbv zeta. destruct x as [s |]; [| done]. cbn [option_map replace_map].
  destruct (dict_get (py_strip s) category_mapping) as [v |] eqn:E;
    cbn [from_option id].
  - destruct (category_mapping_values _ _ E) as [Hs Hv].
    unfold stripped in Hs. by rewrite Hs, Hv.
  - pose proof (py_strip_stripped s) as Hs. unfold stripped in Hs.
    by rewrite Hs, E.
Qed.

Lemma standardize_category_names_spec (df df1 : frame) :
  standardize_category_names df = Ok df1 ->
  (assoc "category" (columns df) = None /\ df1 = df) \/
  (exists xs,
     assoc "category" (columns df) = Some (SStr xs) /\
     df1 = set_col "category"
             (SStr ((fun x => replace_map category_mapping (option_map py_strip x))
                      <$> xs)) df).
Proof.
  unfold standardize_category_names. cbv zeta.
  destruct (has_col "category" df) eqn:Hc.
  - intros H. right.
    inv_bind H as s Hs. apply get_col_Ok in Hs.
    inv_bind H as xs Hxs. destruct s as [| | ys]; try discriminate Hxs.
    injection Hxs as ->.
    inv_bind H as s2 Hs2. apply get_col_Ok in Hs2. simpl in Hs2.
    rewrite assoc_set_eq in Hs2. injection Hs2 as <-.
    simpl in H. injection H as <-.
    exists xs. split; [done |].
    unfold set_col. simpl. rewrite assoc_set_set. f_equal. f_equal. f_equal.
    by rewrite <- list_fmap_compose.
  - intros [= <-]. left. by apply has_col_false in Hc.
Qed.

Lemma noncanonical_replaced (k : pystr) :
  k ∈ noncanonical ->
  exists v, dict_get k category_mapping = Some v /\ v <> k.
Proof.
  assert (Forall (fun k => exists v,
                    dict_get k category_mapping = Some v /\ v <> k)
                 noncanonical) as HF.
  { repeat constructor; eexists; (split; [reflexivity | discriminate]). }
  rewrite Forall_forall in HF. apply HF.
Qed.

(** X1: standardizing categories twice gives what standardizing once
    gives: the function returns its own output unchanged. *)
Theorem standardize_category_names_idempotent (df df1 : frame) :
  standardize_category_names df = Ok df1 ->
  standardize_category_names df1 = Ok df1.
Proof.
  intros H.
  destruct (standardize_category_names_spec _ _ H)
    as [[Hn ->] | (xs & Hc & ->)]; [exact H |].
  clear H. unfold standardize_category_names. cbv zeta.
  assert (has_col "category"
            (set_col "category"
               (SStr ((fun x => replace_map category_mapping
                                  (option_map py_strip x)) <$> xs)) df) = true)
    as ->.
  { apply has_col_assoc. simpl. by rewrite assoc_set_eq. }
  unfold get_col. simpl. rewrite assoc_set_eq. simpl.
  rewrite assoc_set_eq. simpl.
  unfold set_col. simpl. rewrite !assoc_set_set.
  do 4 f_equal. rewrite <- !list_fmap_compose.
  apply list_fmap_ext. intros i x _. simpl.
  apply (standardize_cell_fixed x).
Qed.

Lemma standardize_category_names_idempotent_witness :
  exists df1,
    standardize_category_names messy_categories = Ok df1 /\
    standardize_category_names df1 = Ok df1.
Proof.
  eexists. split; [vm_compute; reflexivity |].
  apply (standardize_category_names_idempotent messy_categories).
  vm_compute. reflexivity.
Defined.

(** X2: a category that the function leaves in the table has no leading
    or trailing whitespace and is none of the spellings that the mapping
    replaces by a canonical name. *)
Theorem standardized_categories_canonical (df df1 : frame)
    (xs : list (option pystr)) (c : pystr) :
  standardize_category_names df = Ok df1 ->
  assoc "category" (columns df1) = Some (SStr xs) ->
  Some c ∈ xs ->
  stripped c /\ c ∉ noncanonical.
Proof.
  intros H Hxs Hc.
  destruct (standardize_category_names_spec _ _ H)
    as [[Hn ->] | (xs0 & Hc0 & ->)]; [congruence |].
  simpl in Hxs. rewrite assoc_set_eq in Hxs. injection Hxs as <-.
  apply list_elem_of_fmap in Hc as ([s |] & Hs & _); [| discriminate Hs].
  assert (c = default (py_strip s) (dict_get (py_strip s) category_mapping))
    as -> by (cbn [option_map replace_map] in Hs; congruence).
  clear Hs.
  destruct (dict_get (py_strip s) category_mapping) as [v |] eqn:E;
    cbn [from_option id].
  - destruct (category_mapping_values _ _ E) as [Hs Hv]. split; [exact Hs |].
    intros Hin. apply noncanonical_replaced in Hin as (v' & Hv' & Hne).
    congruence.
  - split; [apply py_strip_stripped |].
    intros Hin. apply noncanonical_replaced in Hin as (v' & Hv' & Hne).
    congruence.
Qed.

Lemma standardized_categories_canonical_witness :
  stripped (py "Fruits & Vegetables")
  /\ py "Fruits & Vegetables" ∉ noncanonical.
Proof.
  apply (standardized_categories_canonical messy_categories
           (mkFrame 3 [("category",
                        SStr [Some (py "Fruits & Vegetables"); None;
                              Some (py "Dairy")]);
                       ("mrp", SNum [Fin 1000; Fin 2000; Fin 3000])])
           [Some (py "Fruits & Vegetables"); None; Some (py "Dairy")]).
  - vm_compute. reflexivity.
  - reflexivity.
  - left.
Defined.

Lemma isnull_standardized (xs : list (option pystr)) :
  isnull (SStr ((fun x => replace_map category_mapping (option_map py_strip x))
                  <$> xs))
  = isnull (SStr xs).
Proof.
  simpl. rewrite <- list_fmap_compose. apply list_fmap_ext.
  intros i [s |] _; simpl; by repeat case_bool_decide.
Qed.

(** X3: standardizing categories touches the category column only: the
    rows, the column names and every other column stay as they are, and
    in the category column a missing cell stays missing and a present one
    stays present. *)
Theorem standardize_category_names_frame (df df1 : frame) :
  standardize_category_names df = Ok df1 ->
  nrows df1 = nrows df /\
  column_names df1 = column_names df /\
  (forall n, n <> "category" ->
     assoc n (columns df1) = assoc n (columns df)) /\
  (forall s, assoc "category" (columns df) = Some s ->
     exists s1, assoc "category" (columns df1) = Some s1 /\
                slen s1 = slen s /\ isnull s1 = isnull s).
Proof.
  intros H.
  destruct (standardize_category_names_spec _ _ H)
    as [[Hn ->] | (xs & Hc & ->)].
  - repeat split; try done. intros s Hs. congruence.
  - split; [done |]. split; [| split].
    + unfold column_names. simpl. apply names_assoc_set. congruence.
    + intros n Hne. simpl. by apply assoc_set_ne.
    + intros s Hs. rewrite Hc in Hs. injection Hs as <-.
      eexists. simpl. rewrite assoc_set_eq. split; [reflexivity |].
      split; [simpl; by rewrite length_fmap | apply isnull_standardized].
Qed.

Lemma standardize_category_names_frame_witness :
  exists df1,
    standardize_category_names messy_categories = Ok df1 /\
    nrows df1 = 3 /\
    column_names df1 = ["category"; "mrp"] /\
    assoc "mrp" (columns df1) = Some (SNum [Fin 1000; Fin 2000; Fin 3000]).
Proof.
  eexists. split; [vm_compute; reflexivity |].
  match goal with
  | |- nrows ?d = _ /\ _ =>
      destruct (standardize_category_names_frame messy_categories d)
        as (Hn & Hc & Ho & _); [vm_compute; reflexivity |]
  end.
  split; [exact Hn |]. split; [exact Hc |].
  apply (Ho "mrp"). discriminate.
Defined.

(** ** clean_currency_values *)

Section CurrencyFrame.
Variable float_str : fval -> pystr.
Variable parse_float : pystr -> fval.

Lemma clean_currency_column_names (df df' : frame) (col : string) :
  clean_currency_column float_str parse_float df col = Ok df' ->
  column_names df' = column_names df.
Proof.
  unfold clean_currency_column.
  destruct (has_col col df) eqn:Hc; [| by intros [= <-]].
  apply has_col_assoc in Hc. intros H.
  inv_bind H as s Hs. inv_bind H as s2 Hs2. inv_bind H as xs Hxs.
  destruct (fgt (mean xs) (Fin 100)).
  - injection H as <-. unfold column_names. simpl.
    rewrite !assoc_set_set. by apply names_assoc_set.
  - inv_bind H as xs2 Hxs2. injection H as <-. unfold column_names. simpl.
    rewrite !assoc_set_set. by apply names_assoc_set.
Qed.

Lemma clean_currency_fold_frame (cols : list string) (df : frame) :
  exists out,
    foldl (fun acc col =>
             bind acc (fun cleaned_df =>
                         clean_currency_column float_str parse_float
                           cleaned_df col))
          (Ok df) cols = Ok out /\
    nrows out = nrows df /\
    column_names out = column_names df /\
    (forall c, (exists xs, assoc c (columns df) = Some (SNum xs)) ->
       exists xs, assoc c (columns out) = Some (SNum xs)) /\
    (forall c, c ∈ cols -> has_col c df = true ->
       exists xs, assoc c (columns out) = Some (SNum xs)).
Proof.
  revert df. induction cols as [| col cols IH]; intros df.
  - exists df. repeat split; try done.
    intros c Hc. by apply elem_of_nil in Hc.
  - destruct (clean_currency_column_spec float_str parse_float df col)
      as (df1 & H1 & Hn1 & Hother & Hcol).
    pose proof (clean_currency_column_names _ _ _ H1) as Hnames.
    destruct (IH df1) as (out & Hout & Hn & Hnm & Hnum & Hdone).
    exists out. cbn [foldl bind]. rewrite H1.
    assert (forall c, (exists xs, assoc c (columns df) = Some (SNum xs)) ->
                      exists xs, assoc c (columns df1) = Some (SNum xs)) as Hnum1.
    { intros c [xs Hxs]. destruct (decide (c = col)) as [-> | Hne].
      - rewrite (Hcol _ Hxs). by eexists.
      - rewrite (Hother _ Hne). by eexists. }
    split; [done |]. split; [congruence |]. split; [congruence |]. split.
    + intros c Hc. by apply Hnum, Hnum1.
    + intros c Hc Hhas. destruct (decide (c = col)) as [-> | Hne].
      * apply Hnum. apply has_col_assoc in Hhas.
        destruct (assoc col (columns df)) as [s |] eqn:Hs; [| done].
        rewrite (Hcol _ eq_refl). by eexists.
      * apply elem_of_cons in Hc as [-> | Hc]; [done |].
        apply Hdone; [done |].
        apply has_col_assoc. rewrite (Hother _ Hne).
        by apply has_col_assoc.
Qed.

(** X4: clean_currency_values never raises.  Whatever the table and the
    listed names, it returns a table of the same rows and column names in
    which every listed column that exists holds numbers and every column
    that is not listed is as it was; a listed name that the table does
    not have is skipped. *)
Theorem clean_currency_values_total (df : frame)
    (currency_columns : list string) :
  exists out,
    clean_currency_values float_str parse_float df currency_columns = Ok out /\
    nrows out = nrows df /\
    column_names out = column_names df /\
    (forall c, c ∉ currency_columns ->
       assoc c (columns out) = assoc c (columns df)) /\
    (forall c, c ∈ currency_columns -> has_col c df = true ->
       exists xs, assoc c (columns out) = Some (SNum xs)).
Proof.
  unfold clean_currency_values.
  destruct (clean_currency_fold_frame currency_columns df)
    as (out & Hout & Hn & Hnm & _ & Hdone).
  destruct (clean_currency_fold float_str parse_float currency_columns df)
    as (out' & Hout' & Hkeep & _).
  exists out. rewrite Hout in Hout'. injection Hout' as <-.
  by repeat split.
Qed.

End CurrencyFrame.

(** ** enrich_data *)

Lemma enrich_data_spec (df out : frame) :
  enrich_data df = Ok out ->
  exists mrp dsp w dp,
    assoc "mrp" (columns df) = Some (SNum mrp) /\
    assoc "discounted_selling_price" (columns df) = Some (SNum dsp) /\
    assoc "weight_in_gms" (columns df) = Some (SNum w) /\
    assoc "discount_percent" (columns df) = Some (SNum dp) /\
    nrows out = nrows df /\
    columns out
    = assoc_set "discount_category"
        (cut dp [Fin 0; Fin 5; Fin 15; Fin 25; Fin 50; Fin 100] discount_labels)
        (assoc_set "price_category"
           (cut dsp [Fin 0; Fin 1000; Fin 5000; Fin 10000; Fin 50000; PInf]
                price_labels)
           (assoc_set "weight_category"
              (cut w [Fin 0; Fin 100; Fin 500; Fin 1000; Fin 5000; PInf]
                   weight_labels)
              (assoc_set "price_per_gram"
                 (SNum (replace_inf <$> zip_with fdiv dsp w))
                 (assoc_set "savings_amount" (SNum (zip_with fsub mrp dsp))
                    (columns df))))).
Proof.
  unfold enrich_data. cbv zeta. intros H.
  inv_bind H as mrp Hmrp. inv_bind H as dsp Hdsp.
  inv_bind H as dsp2 Hdsp2. inv_bind H as w Hw.
  inv_bind H as ppg Hppg. inv_bind H as w2 Hw2.
  inv_bind H as dsp3 Hdsp3. inv_bind H as dp Hdp.
  injection H as <-.
  apply get_num_Ok in Hmrp, Hdsp, Hdsp2, Hw, Hppg, Hw2, Hdsp3, Hdp.
  simpl in Hdsp2, Hw, Hppg, Hw2, Hdsp3, Hdp.
  revert Hdsp2 Hw Hppg Hw2 Hdsp3 Hdp. assoc_simpl.
  intros Hdsp2 Hw [= <-] Hw2 Hdsp3 Hdp.
  rewrite Hdsp in Hdsp2, Hdsp3. injection Hdsp2 as <-. injection Hdsp3 as <-.
  rewrite Hw in Hw2. injection Hw2 as <-.
  exists mrp, dsp, w, dp. repeat (split; [done |]).
  simpl. by rewrite assoc_set_set.
Qed.

Lemma enrich_data_returns (df : frame) (mrp dsp w dp : list fval) :
  assoc "mrp" (columns df) = Some (SNum mrp) ->
  assoc "discounted_selling_price" (columns df) = Some (SNum dsp) ->
  assoc "weight_in_gms" (columns df) = Some (SNum w) ->
  assoc "discount_percent" (columns df) = Some (SNum dp) ->
  exists out, enrich_data df = Ok out.
Proof.
  intros Hmrp Hdsp Hw Hdp. unfold enrich_data. cbv zeta.
  rewrite (get_num_assoc _ _ _ Hmrp), (get_num_assoc _ _ _ Hdsp). cbn [bind].
  rewrite (get_num_assoc "discounted_selling_price" _ dsp)
    by (simpl; by assoc_simpl).
  cbn [bind].
  rewrite (get_num_assoc "weight_in_gms" _ w) by (simpl; by assoc_simpl).
  cbn [bind].
  rewrite (get_num_assoc "price_per_gram" _ (zip_with fdiv dsp w))
    by (simpl; by assoc_simpl).
  cbn [bind].
  rewrite (get_num_assoc "weight_in_gms" _ w) by (simpl; by assoc_simpl).
  cbn [bind].
  rewrite (get_num_assoc "discounted_selling_price" _ dsp)
    by (simpl; by assoc_simpl).
  cbn [bind].
  rewrite (get_num_assoc "discount_percent" _ dp) by (simpl; by assoc_simpl).
  cbn [bind]. by eexists.
Qed.

(** X5: what enrich_data needs.  It returns a table whenever mrp,
    discounted_selling_price, weight_in_gms and discount_percent are
    numeric columns of the table, and it raises whenever one of the four
    is absent. *)
Theorem enrich_data_requirements (df : frame) :
  (forall mrp dsp w dp,
     assoc "mrp" (columns df) = Some (SNum mrp) ->
     assoc "discounted_selling_price" (columns df) = Some (SNum dsp) ->
     assoc "weight_in_gms" (columns df) = Some (SNum w) ->
     assoc "discount_percent" (columns df) = Some (SNum dp) ->
     exists out, enrich_data df = Ok out) /\
  (forall n, n ∈ enrich_inputs -> assoc n (columns df) = None ->
     exists e, enrich_data df = Raise e).
Proof.
  split; [intros mrp dsp w dp; apply enrich_data_returns |].
  intros n Hn Hbad. destruct (enrich_data df) as [out | e] eqn:E;
    [exfalso | by exists e].
  destruct (enrich_data_spec _ _ E)
    as (mrp & dsp & w & dp & H1 & H2 & H3 & H4 & _).
  unfold enrich_inputs in Hn.
  repeat (apply elem_of_cons in Hn as [-> | Hn]);
    [.. | by apply elem_of_nil in Hn]; congruence.
Qed.

Lemma enrich_data_requirements_witness :
  (exists out, enrich_data sample_products = Ok out) /\
  (exists e, enrich_data messy_categories = Raise e).
Proof.
  split.
  - destruct (enrich_data_requirements sample_products) as [H _].
    by eapply H.
  - destruct (enrich_data_requirements messy_categories) as [_ H].
    apply (H "weight_in_gms"); [unfold enrich_inputs; repeat constructor |].
    reflexivity.
Defined.

Lemma slen_cut (xs bins : list fval) (labels : list pystr) :
  slen (cut xs bins labels) = length xs.
Proof. destruct bins; simpl; by rewrite length_fmap. Qed.

(** X6: enrich_data adds its five columns and leaves the rest of the
    table alone: the rows and every column under another name are as they
    were, and a table whose columns all have the length of the index
    stays so. *)
Theorem enrich_data_keeps_table (df out : frame) :
  enrich_data df = Ok out ->
  nrows out = nrows df /\
  (forall n, n ∉ derived_columns ->
     assoc n (columns out) = assoc n (columns df)) /\
  (forall n, n ∈ derived_columns -> has_col n out = true) /\
  (wf_frame df -> wf_frame out).
Proof.
  intros H.
  destruct (enrich_data_spec _ _ H)
    as (mrp & dsp & w & dp & Hmrp & Hdsp & Hw & Hdp & Hn & Hcols).
  split; [exact Hn |]. split; [| split].
  - intros n Hnot. unfold derived_columns in Hnot.
    rewrite !not_elem_of_cons in Hnot.
    destruct Hnot as (N1 & N2 & N3 & N4 & N5 & _).
    rewrite Hcols. by rewrite !assoc_set_ne by congruence.
  - intros n Hin. apply has_col_assoc. rewrite Hcols.
    unfold derived_columns in Hin.
    repeat (apply elem_of_cons in Hin as [-> | Hin]);
      [by assoc_simpl .. | by apply elem_of_nil in Hin].
  - intros Hwf. unfold wf_frame. rewrite Hcols, Hn.
    pose proof (wf_assoc _ _ _ Hwf Hmrp) as Lmrp.
    pose proof (wf_assoc _ _ _ Hwf Hdsp) as Ldsp.
    pose proof (wf_assoc _ _ _ Hwf Hw) as Lw.
    pose proof (wf_assoc _ _ _ Hwf Hdp) as Ldp.
    simpl in Lmrp, Ldsp, Lw, Ldp.
    repeat apply Forall_assoc_set; try exact Hwf;
      cbn [snd]; rewrite ?slen_cut; try done;
      simpl; rewrite ?length_fmap, length_zip_with; lia.
Qed.

Lemma enrich_data_keeps_table_witness :
  exists out,
    enrich_data sample_products = Ok out /\
    nrows out = 2 /\
    assoc "mrp" (columns out) = Some (SNum [Fin 1000; Fin 500]).
Proof.
  eexists. split; [vm_compute; reflexivity |].
  match goal with
  | |- nrows ?d = _ /\ _ =>
      destruct (enrich_data_keeps_table sample_products d)
        as (Hn & Ho & _); [vm_compute; reflexivity |]
  end.
  split; [exact Hn |]. apply (Ho "mrp").
  unfold derived_columns. rewrite !not_elem_of_cons.
  repeat split; try discriminate. apply not_elem_of_nil.
Defined.

Lemma price_per_gram_row (df out : frame) (i : nat) (d w : fval) :
  enrich_data df = Ok out ->
  num_at "discounted_selling_price" df i = Some d ->
  num_at "weight_in_gms" df i = Some w ->
  num_at "price_per_gram" out i = Some (replace_inf (fdiv d w)).
Proof.
  intros H. unfold num_at.
  destruct (enrich_data_spec _ _ H)
    as (mrp & dsp & ws & dp & Hmrp & Hdsp & Hw & Hdp & Hn & Hcols).
  rewrite Hcols, Hdsp, Hw. assoc_simpl. intros Hd Hwi.
  by rewrite list_lookup_fmap, lookup_zip_with, Hd, Hwi.
Qed.

(** X7: no cell of the price_per_gram column that enrich_data writes is
    an infinity. *)
Theorem price_per_gram_never_infinite (df out : frame) (i : nat) (x : fval) :
  enrich_data df = Ok out ->
  num_at "price_per_gram" out i = Some x ->
  x <> PInf /\ x <> NInf.
Proof.
  intros H. unfold num_at.
  destruct (enrich_data_spec _ _ H)
    as (mrp & dsp & ws & dp & Hmrp & Hdsp & Hw & Hdp & Hn & Hcols).
  rewrite Hcols. assoc_simpl. intros Hx.
  apply list_lookup_fmap_Some in Hx as (y & -> & _).
  by destruct y.
Qed.

Lemma price_per_gram_never_infinite_witness :
  Fin 0 <> PInf /\ Fin 0 <> NInf.
Proof.
  destruct (enrich_data sample_products) as [out | e] eqn:E;
    [| vm_compute in E; discriminate E].
  apply (price_per_gram_never_infinite sample_products out 1 (Fin 0) E).
  vm_compute in E. injection E as <-. reflexivity.
Defined.

(** X8: for a product whose weight is 0, price_per_gram is 0 when its
    price is a number other than 0 (the division gave an infinity, which
    is replaced), and missing when its price is 0 or missing. *)
Theorem price_per_gram_zero_weight (df out : frame) (i : nat) (d w : fval) :
  enrich_data df = Ok out ->
  num_at "discounted_selling_price" df i = Some d ->
  num_at "weight_in_gms" df i = Some w ->
  feq w (Fin 0) = true ->
  num_at "price_per_gram" out i
  = Some (if isnan d || feq d (Fin 0) then NaN else Fin 0).
Proof.
  intros H Hd Hw Hz. rewrite (price_per_gram_row _ _ _ _ _ H Hd Hw).
  f_equal. destruct w as [| | | q]; try discriminate Hz.
  simpl in Hz. fold (Qzero q) in Hz.
  destruct d as [| | | x]; simpl; try done.
  - by destruct (Qltb q 0).
  - by destruct (Qltb q 0).
  - rewrite Hz. fold (Qzero x). destruct (Qzero x); [done |].
    by destruct (Qltb 0 x).
Qed.

Lemma price_per_gram_zero_weight_witness :
  exists out,
    enrich_data sample_products = Ok out /\
    num_at "price_per_gram" out 1 = Some (Fin 0).
Proof.
  eexists. split; [vm_compute; reflexivity |].
  match goal with
  | |- num_at _ ?d _ = _ =>
      apply (price_per_gram_zero_weight sample_products d 1 (Fin 500) (Fin 0))
  end; reflexivity.
Defined.

Lemma fle_flt_trans (a b c : fval) :
  fle a b = true -> flt b c = true -> flt a c = true.
Proof.
  destruct a as [| | | x], b as [| | | y], c as [| | | z]; simpl; try done.
  rewrite Qle_bool_iff, !Qltb_lt. lra.
Qed.

Lemma flt_after (lo x hi : fval) :
  flt lo x = true -> fle lo hi = true -> fle x hi = false -> flt hi x = true.
Proof.
  destruct lo as [| | | l], x as [| | | y], hi as [| | | h]; simpl; try done.
  all: intros _ _ H; apply Qltb_lt.
  all: apply Qnot_le_lt; intros Hle; apply Qle_bool_iff in Hle; congruence.
Qed.

(** [pd.cut] gives a label exactly to the values above the first edge and
    up to the last one. *)
Lemma cut1_is_Some (x : fval) (bins : list fval) :
  forall (lo : fval) (labels : list pystr),
    length bins <= length labels ->
    StronglySorted fle_rel (lo :: bins) ->
    is_Some (cut1 x lo bins labels) <->
    flt lo x = true /\ exists hi, last bins = Some hi /\ fle x hi = true.
Proof.
  induction bins as [| hi bins IH]; intros lo labels Hlen Hs.
  - simpl. split; [by intros [? ?] | by intros (_ & ? & ? & _)].
  - destruct labels as [| l labels]; [simpl in Hlen; lia |].
    simpl in Hlen.
    apply StronglySorted_inv in Hs as [Hs Hlo].
    apply Forall_cons in Hlo as [Hlohi Hlo].
    pose proof (StronglySorted_inv Hs) as [_ Hhi].
    cbn [cut1].
    destruct (flt lo x && fle x hi) eqn:E.
    + apply andb_true_iff in E as [E1 E2].
      split; [| by eexists]. intros _. split; [exact E1 |].
      destruct bins as [| b bins]; [by exists hi |].
      destruct (last (b :: bins)) as [z |] eqn:Ez;
        [| by apply last_None in Ez].
      exists z. split; [by rewrite last_cons, Ez |].
      apply last_Some_elem_of in Ez.
      rewrite Forall_forall in Hhi.
      exact (fle_trans _ _ _ E2 (Hhi _ Ez)).
    + rewrite (IH hi labels) by (done || lia). split.
      * intros (H1 & z & Hz & H2). split.
        -- exact (fle_flt_trans _ _ _ Hlohi H1).
        -- exists z. split; [| exact H2]. by rewrite last_cons, Hz.
      * intros (H1 & z & Hz & H2).
        rewrite H1 in E. simpl in E.
        pose proof (flt_after _ _ _ H1 Hlohi E) as H3. split; [exact H3 |].
        exists z. split; [| exact H2].
        rewrite last_cons in Hz.
        destruct (last bins) as [z' |]; [done |].
        injection Hz as <-. congruence.
Qed.

Lemma cut_lookup (xs : list fval) (lo : fval) (bins : list fval)
    (labels : list pystr) (i : nat) (x : fval) :
  xs !! i = Some x ->
  match cut xs (lo :: bins) labels with
  | SStr cs => cs !! i = Some (cut1 x lo bins labels)
  | _ => False
  end.
Proof. intros H. simpl. by rewrite list_lookup_fmap, H. Qed.

(** X9: the three category columns of enrich_data.  A product has a
    discount_category exactly when its discount_percent is above 0 and
    at most 100, a weight_category exactly when its weight is above 0,
    and a price_category exactly when its price is above 0; in
    particular a product sold without discount has no
    discount_category. *)
Theorem enrich_data_categories (df out : frame) (i : nat) :
  enrich_data df = Ok out ->
  (forall p, num_at "discount_percent" df i = Some p ->
     exists c, str_at "discount_category" out i = Some c /\
       (is_Some c <-> fgt p (Fin 0) = true /\ fle p (Fin 100) = true)) /\
  (forall w, num_at "weight_in_gms" df i = Some w ->
     exists c, str_at "weight_category" out i = Some c /\
       (is_Some c <-> fgt w (Fin 0) = true)) /\
  (forall d, num_at "discounted_selling_price" df i = Some d ->
     exists c, str_at "price_category" out i = Some c /\
       (is_Some c <-> fgt d (Fin 0) = true)).
Proof.
  intros H. unfold num_at, str_at.
  destruct (enrich_data_spec _ _ H)
    as (mrp & dsp & ws & dps & Hmrp & Hdsp & Hw & Hdp & Hn & Hcols).
  rewrite Hcols, Hdsp, Hw, Hdp. assoc_simpl.
  split; [| split].
  - intros p Hp. eexists. split; [exact (cut_lookup _ _ _ _ _ _ Hp) |].
    rewrite cut1_is_Some; [| simpl; lia | repeat constructor].
    unfold fgt. simpl. split.
    + by intros (? & z & [= <-] & ?).
    + intros [? ?]. split; [done |]. by eexists.
  - intros w Hwi. eexists. split; [exact (cut_lookup _ _ _ _ _ _ Hwi) |].
    rewrite cut1_is_Some; [| simpl; lia | repeat constructor].
    unfold fgt. simpl. split.
    + by intros (? & _).
    + intros Hgt. split; [done |]. exists PInf. split; [done |].
      by destruct w.
  - intros d Hd. eexists. split; [exact (cut_lookup _ _ _ _ _ _ Hd) |].
    rewrite cut1_is_Some; [| simpl; lia | repeat constructor].
    unfold fgt. simpl. split.
    + by intros (? & _).
    + intros Hgt. split; [done |]. exists PInf. split; [done |].
      by destruct d.
Qed.

Lemma enrich_data_categories_witness :
  exists out,
    enrich_data sample_products = Ok out /\
    str_at "discount_category" out 1 = Some None.
Proof.
  eexists. split; [vm_compute; reflexivity |].
  match goal with
  | |- str_at _ ?d _ = _ =>
      destruct (enrich_data_categories sample_products d 1) as (Hd & _);
        [vm_compute; reflexivity |];
      destruct (Hd (Fin 0) eq_refl) as (c & Hc & _)
  end.
  reflexivity.
Defined.

(** ** detect_outliers *)

Lemma length_zscore_mask (xs : list fval) : length (zscore_mask xs) = length xs.
Proof. unfold zscore_mask, z_scores. by rewrite !length_fmap. Qed.

Lemma iqr_mask_missing (xs : list fval) (i : nat) :
  xs !! i = Some NaN -> iqr_mask xs !! i = Some false.
Proof.
  intros H. rewrite (iqr_mask_lookup _ _ _ H). unfold fgt.
  by destruct (snd (iqr_bounds xs)).
Qed.

Lemma zscore_mask_missing (xs : list fval) (i : nat) :
  xs !! i = Some NaN -> zscore_mask xs !! i = Some false.
Proof.
  intros H. unfold zscore_mask, z_scores.
  by rewrite !list_lookup_fmap, H.
Qed.

(** X10: with either method, detect_outliers gives one flag per row of a
    numeric column, and a row whose value is missing is never flagged. *)
Theorem detect_outliers_mask (df : frame) (column method : string)
    (xs : list fval) :
  get_num column df = Ok xs ->
  method = "iqr" \/ method = "zscore" ->
  exists mask,
    detect_outliers df column method = Ok mask /\
    length mask = length xs /\
    (forall i : nat, xs !! i = Some NaN -> mask !! i = Some false).
Proof.
  intros Hxs [-> | ->]; unfold detect_outliers; simpl; rewrite Hxs;
    cbn [bind]; eexists; (split; [reflexivity |]).
  - split; [apply length_iqr_mask | apply iqr_mask_missing].
  - split; [apply length_zscore_mask | apply zscore_mask_missing].
Qed.

Lemma detect_outliers_mask_witness :
  exists mask,
    detect_outliers (mkFrame 3 [("mrp", SNum [Fin 1; NaN; Fin 900])])
      "mrp" "zscore" = Ok mask /\
    length mask = 3 /\
    (forall i : nat,
       [Fin 1; NaN; Fin 900] !! i = Some NaN -> mask !! i = Some false).
Proof.
  apply (detect_outliers_mask
           (mkFrame 3 [("mrp", SNum [Fin 1; NaN; Fin 900])]) "mrp" "zscore"
           [Fin 1; NaN; Fin 900]);
    [reflexivity | by right].
Defined.

(** X11: detect_outliers looks at the method before it looks at the
    table: a method other than iqr and zscore raises ValueError whether
    or not the column exists, and with one of the two methods a column
    that the table does not have raises KeyError. *)
Theorem detect_outliers_errors (df : frame) (column method : string) :
  (method <> "iqr" -> method <> "zscore" ->
   detect_outliers df column method = Raise ValueError) /\
  (method = "iqr" \/ method = "zscore" ->
   has_col column df = false ->
   detect_outliers df column method = Raise KeyError).
Proof.
  unfold detect_outliers. split.
  - intros H1 H2. apply String.eqb_neq in H1, H2. by rewrite H1, H2.
  - intros Hm Hc. apply has_col_false in Hc.
    unfold get_num, get_col. rewrite Hc.
    by destruct Hm as [-> | ->].
Qed.

Lemma missing_or_sorted (v : Q) (xs : list fval) :
  Forall (missing_or v) xs -> Forall (holds v) (sort (dropna xs)).
Proof.
  intros H. unfold sort, dropna.
  induction H as [| x xs Hx H IH]; simpl; [done |].
  destruct Hx as [-> | Hx]; simpl; [exact IH |].
  destruct Hx as (q & -> & Hq). simpl.
  apply Forall_insert_sorted; [by exists q | exact IH].
Qed.

Lemma quantile_missing_or (v p : Q) (xs : list fval) :
  Forall (missing_or v) xs -> missing_or v (quantile p xs).
Proof.
  intros H. apply missing_or_sorted in H. unfold quantile. cbv zeta.
  destruct (sort (dropna xs)) as [| y l] eqn:El; [by left |].
  rewrite <- El in *. clear El y l.
  set (l := sort (dropna xs)) in *.
  destruct (l !! _) as [a |] eqn:Ea; [| by left].
  destruct (l !! Nat.min _ _) as [b |] eqn:Eb; [| by left].
  rewrite Forall_lookup in H.
  destruct (H _ _ Ea) as (qa & -> & Ha).
  destruct (H _ _ Eb) as (qb & -> & Hb).
  right. unfold lerp. simpl.
  destruct (Qle_bool (1 # 2) _); eexists; (split; [reflexivity |]);
    rewrite Ha, Hb; ring.
Qed.

Lemma mask_or_all_false {A} (f g : A -> bool) (xs : list A) :
  Forall (fun x => f x = false /\ g x = false) xs ->
  mask_or (f <$> xs) (g <$> xs) = replicate (length xs) false.
Proof.
  unfold mask_or. induction 1 as [| x xs [Hf Hg] H IH]; [done |].
  rewrite !fmap_cons. cbn [zip_with length replicate].
  by rewrite Hf, Hg, IH.
Qed.

(** X12: on a column whose present values are all equal, the IQR method
    flags no row: both fences are that value, and no value is strictly
    outside them. *)
Theorem iqr_constant_column (v : Q) (xs : list fval) :
  Forall (missing_or v) xs ->
  iqr_mask xs = replicate (length xs) false.
Proof.
  intros H. unfold iqr_mask, iqr_bounds. cbv beta iota zeta.
  pose proof (quantile_missing_or v (1 # 4) xs H) as H1.
  pose proof (quantile_missing_or v (3 # 4) xs H) as H3.
  apply mask_or_all_false.
  eapply Forall_impl; [exact H |]. intros x Hx. unfold fgt.
  destruct Hx as [-> | (q & -> & Hq)]; [split; [done |]; by destruct (fadd _ _) |].
  destruct H1 as [-> | (q1 & -> & Hq1)].
  { split; [done |]. by destruct (quantile (3 # 4) xs). }
  destruct H3 as [-> | (q3 & -> & Hq3)]; [done |].
  simpl. split; apply Qltb_ge; rewrite Hq, Hq1, Hq3; ring_simplify; lra.
Qed.

Lemma iqr_constant_column_witness :
  iqr_mask [Fin 5; NaN; Fin 5; Fin 5] = [false; false; false; false].
Proof.
  apply (iqr_constant_column 5 [Fin 5; NaN; Fin 5; Fin 5]).
  repeat apply Forall_cons_2; try apply Forall_nil_2;
    ((by left) || (right; by exists 5%Q)).
Defined.



Lemma detect_outliers_errors_witness :
  detect_outliers empty_catalog "price" "mad" = Raise ValueError /\
  detect_outliers empty_catalog "price" "iqr" = Raise KeyError.
Proof.
  destruct (detect_outliers_errors empty_catalog "price" "mad") as [H _].
  destruct (detect_outliers_errors empty_catalog "price" "iqr") as [_ H'].
  split; [by apply H | apply H'; [by left | reflexivity]].
Defined.

(** ** generate_data_quality_report *)

(** A column that is absent or numeric passes the outlier loop. *)
Lemma outliers_loop_returns (df : frame) (cols : list string) :
  Forall (fun col => assoc col (columns df) = None \/
                     exists xs, assoc col (columns df) = Some (SNum xs)) cols ->
  exists r, outliers_loop df cols = Ok r.
Proof.
  induction 1 as [| col cols Hcol H [r IH]]; [by eexists |].
  cbn [outliers_loop]. destruct Hcol as [Hnone | [xs Hxs]].
  - apply has_col_false in Hnone. rewrite Hnone. by exists r.
  - assert (has_col col df = true) as ->
      by (apply has_col_assoc; by rewrite Hxs).
    unfold detect_outliers. simpl. rewrite (get_num_assoc _ _ _ Hxs).
    cbn [bind]. rewrite IH. cbn [bind]. by eexists.
Qed.

Lemma category_distribution_returns (df : frame) :
  exists d,
    (if has_col "category" df then
       bind (get_col "category" df)
         (fun s => Ok ((fun '(cat, count) => (cat, Z.of_nat count))
                         <$> value_counts s))
     else Ok []) = Ok d.
Proof.
  destruct (has_col "category" df) eqn:Hc; [| by eexists].
  apply has_col_assoc in Hc.
  destruct (assoc "category" (columns df)) as [s |] eqn:Hs; [| done].
  rewrite (get_col_assoc _ _ _ Hs). by eexists.
Qed.

Section Report.
Variable df : frame.
Variables mrp dsp : list fval.
Hypothesis Hmrp : assoc "mrp" (columns df) = Some (SNum mrp).
Hypothesis Hdsp :
  assoc "discounted_selling_price" (columns df) = Some (SNum dsp).
Hypothesis Hweight :
  assoc "weight_in_gms" (columns df) = None \/
  exists w, assoc "weight_in_gms" (columns df) = Some (SNum w).

(** With numeric prices, the report is decided by its last step, the
    price statistics. *)
Lemma report_reaches_statistics :
  (assoc "discount_percent" (columns df) = None \/
   exists dp, assoc "discount_percent" (columns df) = Some (SNum dp)) ->
  exists outliers distribution,
    generate_data_quality_report df
    = bind
        (bind (get_num "discount_percent" df) (fun dp =>
           bind (int_of_float (fmax dp)) (fun max_d =>
             bind (int_of_float (fmin dp)) (fun min_d =>
               Ok (Some (mkPriceStats (fround2 (mean mrp)) (fround2 (mean dsp))
                                      (fround2 (mean dp)) max_d min_d))))))
        (fun price_statistics =>
           Ok (mkReport (nrows df) (length (columns df))
                 ((fun '(col, s) =>
                     (col, (Z.of_nat (mask_sum (isnull s)),
                            percentage_of (mask_sum (isnull s)) (nrows df))))
                    <$> columns df)
                 ((fun '(col, s) => (col, dtype_name s)) <$> columns df)
                 ((fun '(col, s) => (col, Z.of_nat (nunique s))) <$> columns df)
                 outliers distribution price_statistics)).
Proof.
  intros Hdp. unfold generate_data_quality_report.
  destruct (outliers_loop_returns df
              ["mrp"; "discounted_selling_price"; "discount_percent";
               "weight_in_gms"]) as [o Ho].
  { repeat apply Forall_cons_2; try apply Forall_nil_2; try done;
      right; by eexists. }
  destruct (category_distribution_returns df) as [d Hd].
  exists o, d. rewrite Ho. cbn [bind]. rewrite Hd. cbn [bind].
  assert (has_col "mrp" df = true) as ->
    by (apply has_col_assoc; by rewrite Hmrp).
  assert (has_col "discounted_selling_price" df = true) as ->
    by (apply has_col_assoc; by rewrite Hdsp).
  cbn [andb].
  by rewrite (get_num_assoc _ _ _ Hmrp), (get_num_assoc _ _ _ Hdsp).
Qed.

End Report.

(** X14: the report guards its price statistics by the presence of mrp
    and discounted_selling_price only, and then reads discount_percent:
    on a table with the two numeric price columns and no
    discount_percent column it raises KeyError. *)
Theorem report_needs_discount_column (df : frame) (mrp dsp : list fval) :
  assoc "mrp" (columns df) = Some (SNum mrp) ->
  assoc "discounted_selling_price" (columns df) = Some (SNum dsp) ->
  (assoc "weight_in_gms" (columns df) = None \/
   exists w, assoc "weight_in_gms" (columns df) = Some (SNum w)) ->
  assoc "discount_percent" (columns df) = None ->
  generate_data_quality_report df = Raise KeyError.
Proof.
  intros Hmrp Hdsp Hw Hdp.
  destruct (report_reaches_statistics df mrp dsp Hmrp Hdsp Hw)
    as (o & d & ->); [by left |].
  unfold get_num, get_col. by rewrite Hdp.
Qed.

Lemma report_needs_discount_column_witness :
  generate_data_quality_report
    (mkFrame 1 [("mrp", SNum [Fin 1000]);
                ("discounted_selling_price", SNum [Fin 800])])
  = Raise KeyError.
Proof.
  apply (report_needs_discount_column _ [Fin 1000] [Fin 800]);
    [reflexivity | reflexivity | by left | reflexivity].
Defined.

(** X15: when no product has a discount_percent value, whatever the
    number of rows, the report raises ValueError: the maximum of the
    column is NaN and its conversion to an integer fails. *)
Theorem report_all_discount_missing (df : frame) (mrp dsp dp : list fval) :
  assoc "mrp" (columns df) = Some (SNum mrp) ->
  assoc "discounted_selling_price" (columns df) = Some (SNum dsp) ->
  (assoc "weight_in_gms" (columns df) = None \/
   exists w, assoc "weight_in_gms" (columns df) = Some (SNum w)) ->
  assoc "discount_percent" (columns df) = Some (SNum dp) ->
  Forall (fun x => x = NaN) dp ->
  generate_data_quality_report df = Raise ValueError.
Proof.
  intros Hmrp Hdsp Hw Hdp Hnan.
  destruct (report_reaches_statistics df mrp dsp Hmrp Hdsp Hw)
    as (o & d & ->); [right; by eexists |].
  rewrite (get_num_assoc _ _ _ Hdp). cbn [bind].
  assert (dropna dp = []) as Hd.
  { clear Hdp. unfold dropna.
    induction Hnan as [| x dp' -> H IH]; [done |]. exact IH. }
  unfold fmax. by rewrite Hd.
Qed.

Lemma report_all_discount_missing_witness :
  generate_data_quality_report
    (mkFrame 2 [("mrp", SNum [Fin 1000; Fin 500]);
                ("discounted_selling_price", SNum [Fin 800; Fin 400]);
                ("discount_percent", SNum [NaN; NaN])])
  = Raise ValueError.
Proof.
  apply (report_all_discount_missing _ [Fin 1000; Fin 500] [Fin 800; Fin 400]
           [NaN; NaN]);
    [reflexivity | reflexivity | by left | reflexivity | by repeat constructor].
Defined.

Lemma Qtrunc_nonneg (q : Q) : (0 <= Qnum q)%Z -> Qtrunc q = Qfloor q.
Proof.
  destruct q as [n d]. unfold Qtrunc. simpl. intros H.
  apply Z.quot_div_nonneg; lia.
Qed.

Lemma Qtrunc_neg (q : Q) : (Qnum q <= 0)%Z -> Qtrunc q = (- Qfloor (- q))%Z.
Proof.
  destruct q as [n d]. unfold Qtrunc. simpl. intros H.
  rewrite <- (Z.opp_involutive n) at 1.
  rewrite Z.quot_opp_l by lia. f_equal.
  apply Z.quot_div_nonneg; lia.
Qed.

Lemma Qnum_sign (q : Q) : (0 <= Qnum q)%Z <-> (0 <= q)%Q.
Proof. destruct q as [n d]. unfold Qle. simpl. lia. Qed.

Lemma Qtrunc_mono (a b : Q) : (a <= b)%Q -> (Qtrunc a <= Qtrunc b)%Z.
Proof.
  intros H.
  destruct (Z.le_gt_cases 0 (Qnum a)) as [Ha | Ha].
  - assert (0 <= Qnum b)%Z as Hb.
    { apply Qnum_sign. apply Qnum_sign in Ha. lra. }
    rewrite !Qtrunc_nonneg by done. by apply Qfloor_resp_le.
  - destruct (Z.le_gt_cases 0 (Qnum b)) as [Hb | Hb].
    + rewrite (Qtrunc_nonneg b) by done. rewrite (Qtrunc_neg a) by lia.
      assert (0 <= Qfloor b)%Z.
      { change 0%Z with (Qfloor 0). apply Qfloor_resp_le.
        by apply Qnum_sign. }
      assert (0 <= Qfloor (- a))%Z.
      { change 0%Z with (Qfloor 0). apply Qfloor_resp_le.
        assert (~ (0 <= a)%Q) by (rewrite <- Qnum_sign; lia). lra. }
      lia.
    + rewrite !Qtrunc_neg by lia.
      assert (Qfloor (- b) <= Qfloor (- a))%Z
        by (apply Qfloor_resp_le; lra).
      lia.
Qed.

Lemma foldl_max_fin (r : list fval) (a : Q) :
  Forall (fun x => isfinite x = true) r ->
  exists m, foldl (fun a b => if flt a b then b else a) (Fin a) r = Fin m
            /\ (a <= m)%Q.
Proof.
  intros H. revert a. induction H as [| x r Hx H IH]; intros a.
  - exists a. split; [done | lra].
  - destruct x as [| | | b]; try discriminate Hx. cbn [foldl flt].
    destruct (Qltb a b) eqn:E.
    + destruct (IH b) as (m & -> & Hm). exists m. split; [done |].
      apply Qltb_lt in E. lra.
    + apply IH.
Qed.

Lemma foldl_min_fin (r : list fval) (a : Q) :
  Forall (fun x => isfinite x = true) r ->
  exists m, foldl (fun a b => if flt b a then b else a) (Fin a) r = Fin m
            /\ (m <= a)%Q.
Proof.
  intros H. revert a. induction H as [| x r Hx H IH]; intros a.
  - exists a. split; [done | lra].
  - destruct x as [| | | b]; try discriminate Hx. cbn [foldl flt].
    destruct (Qltb b a) eqn:E.
    + destruct (IH b) as (m & -> & Hm). exists m. split; [done |].
      apply Qltb_lt in E. lra.
    + apply IH.
Qed.

Lemma dropna_no_infinity (xs : list fval) :
  no_infinity xs -> Forall (fun x => isfinite x = true) (dropna xs).
Proof.
  unfold dropna. induction 1 as [| x xs Hx H IH]; [done |].
  destruct Hx as [-> | Hx]; [exact IH |].
  destruct x; try discriminate Hx. simpl. by constructor.
Qed.

Lemma extremes_fin (xs : list fval) (x : fval) :
  no_infinity xs -> x ∈ xs -> isfinite x = true ->
  exists lo hi, fmin xs = Fin lo /\ fmax xs = Fin hi /\ (lo <= hi)%Q.
Proof.
  intros Hfin Hx Hxf. pose proof (dropna_no_infinity _ Hfin) as Hd.
  unfold fmin, fmax.
  destruct (dropna xs) as [| y r] eqn:E.
  - exfalso. assert (x ∈ dropna xs) as Hin.
    { unfold dropna. apply list_elem_of_In, filter_In.
      split; [by apply list_elem_of_In | by destruct x]. }
    rewrite E in Hin. by apply elem_of_nil in Hin.
  - apply Forall_cons in Hd as [Hy Hr].
    destruct y as [| | | a]; try discriminate Hy.
    destruct (foldl_min_fin r a Hr) as (lo & -> & Hlo).
    destruct (foldl_max_fin r a Hr) as (hi & -> & Hhi).
    exists lo, hi. repeat split. lra.
Qed.

(** X16: the report comes back whenever the two price columns and
    discount_percent hold numbers, weight_in_gms holds numbers or is
    absent, and discount_percent has at least one number and no infinity.
    It then counts the rows and the columns of the table, lists the
    missing values of every column in the order of the columns, and its
    min_discount is at most its max_discount. *)
Theorem report_returns (df : frame) (mrp dsp dp : list fval) (x : fval) :
  assoc "mrp" (columns df) = Some (SNum mrp) ->
  assoc "discounted_selling_price" (columns df) = Some (SNum dsp) ->
  (assoc "weight_in_gms" (columns df) = None \/
   exists w, assoc "weight_in_gms" (columns df) = Some (SNum w)) ->
  assoc "discount_percent" (columns df) = Some (SNum dp) ->
  no_infinity dp -> x ∈ dp -> isfinite x = true ->
  exists r st,
    generate_data_quality_report df = Ok r /\
    total_rows r = nrows df /\
    total_columns r = length (columns df) /\
    fst <$> missing_values r = column_names df /\
    price_statistics r = Some st /\
    (min_discount st <= max_discount st)%Z.
Proof.
  intros Hmrp Hdsp Hw Hdp Hfin Hx Hxf.
  destruct (report_reaches_statistics df mrp dsp Hmrp Hdsp Hw)
    as (o & d & ->); [right; by eexists |].
  rewrite (get_num_assoc _ _ _ Hdp). cbn [bind].
  destruct (extremes_fin dp x Hfin Hx Hxf) as (lo & hi & -> & -> & Hle).
  cbn [int_of_float bind]. eexists _, _. split; [reflexivity |].
  cbn [total_rows total_columns missing_values price_statistics
       min_discount max_discount].
  repeat split.
  - unfold column_names. rewrite <- list_fmap_compose.
    apply list_fmap_ext. by intros i [n s] _.
  - by apply Qtrunc_mono.
Qed.

Lemma report_returns_witness :
  exists r st,
    generate_data_quality_report sample_products = Ok r /\
    total_rows r = 2 /\
    total_columns r = 4 /\
    fst <$> missing_values r
    = ["mrp"; "discounted_selling_price"; "weight_in_gms"; "discount_percent"] /\
    price_statistics r = Some st /\
    (min_discount st <= max_discount st)%Z.
Proof.
  apply (report_returns sample_products [Fin 1000; Fin 500] [Fin 800; Fin 500]
           [Fin 20; Fin 0] (Fin 20));
    [reflexivity | reflexivity | right; by eexists | reflexivity
    | repeat apply Forall_cons_2; try apply Forall_nil_2; by right
    | by left | reflexivity].
Defined.

Lemma count_in_sum (c : cell) (acc : list (cell * nat)) :
  sum_list (snd <$> count_in c acc) = S (sum_list (snd <$> acc)).
Proof.
  induction acc as [| [k n] acc IH]; [done |].
  cbn [count_in]. destruct (cell_eqb k c); rewrite !fmap_cons; simpl.
  - lia.
  - rewrite IH. lia.
Qed.

Lemma counts_sum (cs : list cell) :
  sum_list (snd <$> counts cs) = length cs.
Proof.
  unfold counts.
  assert (forall acc,
            sum_list (snd <$> foldl (fun acc c => count_in c acc) acc cs)
            = sum_list (snd <$> acc) + length cs) as H.
  { induction cs as [| c cs IH]; intros acc; cbn [foldl length]; [lia |].
    rewrite IH, count_in_sum. lia. }
  by rewrite H.
Qed.

Lemma insert_by_count_sum (e : cell * nat) (l : list (cell * nat)) :
  sum_list (snd <$> insert_by_count e l) = snd e + sum_list (snd <$> l).
Proof.
  induction l as [| y l IH]; [done |].
  cbn [insert_by_count]. destruct (Nat.ltb (snd y) (snd e));
    rewrite !fmap_cons; simpl; [done |].
  rewrite IH. lia.
Qed.

Lemma value_counts_sum (s : series) :
  sum_list (snd <$> value_counts s) = length (present s).
Proof.
  unfold value_counts. rewrite <- counts_sum.
  induction (counts (present s)) as [| e l IH]; [done |].
  cbn [foldr]. rewrite insert_by_count_sum, IH. by rewrite fmap_cons.
Qed.

Lemma omap_missing {A} (xs : list (option A)) :
  length (omap id xs)
  + mask_sum ((fun x => bool_decide (x = None)) <$> xs) = length xs.
Proof.
  induction xs as [| [a |] xs IH]; [done | |];
    rewrite fmap_cons, mask_sum_cons;
    [rewrite bool_decide_false by done | rewrite bool_decide_true by done].
  - change (omap id (Some a :: xs)) with (a :: omap id xs).
    cbn [length]. lia.
  - change (omap id (None :: xs)) with (omap id xs).
    cbn [length]. lia.
Qed.

Lemma present_missing (s : series) :
  length (present s) + mask_sum (isnull s) = slen s.
Proof.
  destruct s as [xs | xs | xs]; simpl; rewrite length_fmap;
    [| apply omap_missing ..].
  unfold dropna. induction xs as [| x xs IH]; [done |].
  rewrite fmap_cons, mask_sum_cons. simpl.
  destruct (isnan x); simpl; lia.
Qed.

Lemma total_count_of_nat (l : list (cell * nat)) :
  total_count ((fun '(cat, count) => (cat, Z.of_nat count)) <$> l)
  = Z.of_nat (sum_list (snd <$> l)).
Proof.
  unfold total_count. induction l as [| [c n] l IH]; [done |].
  rewrite !fmap_cons. simpl. rewrite IH. lia.
Qed.

(** X17: in a report, the counts of the category distribution add up to
    the number of products that have a category: together with the
    products whose category is missing they are all the rows of the
    category column. *)
Theorem category_distribution_total (df : frame) (r : report) (s : series) :
  generate_data_quality_report df = Ok r ->
  assoc "category" (columns df) = Some s ->
  (total_count (category_distribution r) + Z.of_nat (mask_sum (isnull s))
   = Z.of_nat (slen s))%Z.
Proof.
  intros H Hs. unfold generate_data_quality_report in H.
  inv_bind H as o Ho. inv_bind H as d Hd. inv_bind H as p Hp.
  injection H as <-. cbn [category_distribution].
  assert (has_col "category" df = true) as Hc
    by (apply has_col_assoc; by rewrite Hs).
  rewrite Hc, (get_col_assoc _ _ _ Hs) in Hd. injection Hd as <-.
  rewrite total_count_of_nat, value_counts_sum, <- (present_missing s). lia.
Qed.

Lemma category_distribution_total_witness :
  exists r,
    generate_data_quality_report messy_categories = Ok r /\
    (total_count (category_distribution r) + 1 = 3)%Z.
Proof.
  eexists. split; [vm_compute; reflexivity |].
  match goal with
  | |- (total_count (category_distribution ?r) + _ = _)%Z =>
      apply (category_distribution_total messy_categories r
               (SStr [Some (py "  Fruits and Vegetables "); None;
                      Some (py "Dairy ")]))
  end; reflexivity.
Defined.

(** ** transform_data *)

Lemma set_col_names (n : string) (s s' : series) (df : frame) :
  get_col n df = Ok s -> column_names (set_col n s' df) = column_names df.
Proof.
  intros H. apply get_col_Ok in H. unfold column_names. simpl.
  apply names_assoc_set. congruence.
Qed.

Lemma wf_set_col (n : string) (s : series) (df : frame) :
  wf_frame df -> slen s = nrows df -> wf_frame (set_col n s df).
Proof. intros Hwf Hs. by apply Forall_assoc_set. Qed.

Lemma set_col_id (n : string) (s : series) (df : frame) :
  assoc n (columns df) = Some s -> set_col n s df = df.
Proof.
  intros H. unfold set_col. rewrite (assoc_set_id _ _ _ H). by destruct df.
Qed.

Lemma select_rows_names (m : list bool) (df : frame) :
  column_names (select_rows m df) = column_names df.
Proof. apply names_select. Qed.

Lemma get_col_slen (n : string) (s : series) (df : frame) :
  wf_frame df -> get_col n df = Ok s -> slen s = nrows df.
Proof. intros Hwf H. apply get_col_Ok in H. by eapply wf_assoc. Qed.

Lemma get_num_length (n : string) (xs : list fval) (df : frame) :
  wf_frame df -> get_num n df = Ok xs -> length xs = nrows df.
Proof.
  intros Hwf H. apply get_num_Ok in H. by apply (wf_assoc _ _ _ Hwf) in H.
Qed.

Lemma convert_columns_frame (f : series -> series) (cols : list string) :
  (forall s, slen (f s) = slen s) ->
  forall df df',
    convert_columns f cols df = Ok df' ->
    nrows df' = nrows df /\
    column_names df' = column_names df /\
    (wf_frame df -> wf_frame df').
Proof.
  intros Hf. induction cols as [| col cols IH]; intros df df' H.
  - injection H as <-. by repeat split.
  - cbn [convert_columns] in H. inv_bind H as s Hs.
    destruct (IH _ _ H) as (Hn & Hnames & Hwf).
    split; [exact Hn |]. split.
    + rewrite Hnames. by eapply set_col_names.
    + intros Hdf. apply Hwf. apply wf_set_col; [done |].
      rewrite Hf. by eapply get_col_slen.
Qed.

Lemma length_map_bool (s : series) : length (map_bool s) = slen s.
Proof. destruct s; simpl; by rewrite ?length_fmap. Qed.

Lemma length_astype_str (float_str : fval -> pystr) (s : series) :
  length (astype_str float_str s) = slen s.
Proof. destruct s; simpl; by rewrite length_fmap. Qed.

Lemma length_isnull (s : series) : length (isnull s) = slen s.
Proof. destruct s; simpl; by rewrite length_fmap. Qed.

Lemma length_fillna (v : fval) (xs : list fval) :
  length (fillna v xs) = length xs.
Proof. unfold fillna. by rewrite length_fmap. Qed.

Lemma convert_columns_other (f : series -> series) (cols : list string)
    (n : string) :
  n ∉ cols ->
  forall df df',
    convert_columns f cols df = Ok df' ->
    assoc n (columns df') = assoc n (columns df).
Proof.
  induction cols as [| col cols IH]; intros Hn df df' H.
  - by injection H as <-.
  - apply not_elem_of_cons in Hn as [Hne Hn].
    cbn [convert_columns] in H. inv_bind H as s Hs.
    rewrite (IH Hn _ _ H). simpl. by apply assoc_set_ne.
Qed.

Lemma has_flags_select (m : list bool) (df : frame) :
  has_flags df -> has_flags (select_rows m df).
Proof.
  intros [xs H]. unfold has_flags. simpl. rewrite assoc_fmap, H.
  by eexists.
Qed.

Lemma has_flags_set (n : string) (s : series) (df : frame) :
  n <> "out_of_stock" -> has_flags df -> has_flags (set_col n s df).
Proof.
  intros Hne [xs H]. unfold has_flags. simpl.
  rewrite assoc_set_ne by done. by eexists.
Qed.

Section NormalizerFrame.
Variable float_str : fval -> pystr.
Variable parse_float : pystr -> fval.

(** The normalizer keeps the columns of the renamed table, under their
    names and in their order, and gives a table whose columns all have
    the length of its index. *)
Lemma transform_data_frame (raw out : frame) :
  wf_frame raw ->
  transform_data float_str parse_float raw = Ok out ->
  column_names out = column_names (rename column_mapping raw) /\
  wf_frame out.
Proof.
  intros Hwf H. unfold transform_data in H. cbv zeta in H.
  pose proof (wf_rename column_mapping _ Hwf) as Hwf0.
  remember (rename column_mapping raw) as F0 eqn:HF0. clear HF0 Hwf raw.
  inv_bind H as F1 H1.
  apply convert_columns_frame in H1 as (_ & N1 & W1);
    [| intros s; simpl; apply length_to_numeric].
  specialize (W1 Hwf0). rewrite <- N1. clear N1 Hwf0 F0.
  inv_bind H as s_oos Hoos.
  pose proof (set_col_names _ _ (SBool (map_bool s_oos)) _ Hoos) as N2.
  assert (wf_frame (set_col "out_of_stock" (SBool (map_bool s_oos)) F1)) as W2.
  { apply wf_set_col; [done |]. simpl. rewrite length_map_bool.
    by eapply get_col_slen. }
  rewrite <- N2. clear N2 Hoos W1.
  assert (has_flags (set_col "out_of_stock" (SBool (map_bool s_oos)) F1)) as P.
  { unfold has_flags. simpl. rewrite assoc_set_eq. by eexists. }
  remember (set_col "out_of_stock" (SBool (map_bool s_oos)) F1) as F2 eqn:HF2.
  clear HF2 F1 s_oos.
  inv_bind H as F3 H3.
  assert (has_flags F3) as P3.
  { destruct P as [xs P]. exists xs. rewrite <- P.
    eapply convert_columns_other; [| exact H3].
    rewrite !not_elem_of_cons. repeat split; try discriminate.
    apply not_elem_of_nil. }
  clear P.
  apply convert_columns_frame in H3 as (_ & N3 & W3);
    [| intros s; simpl; by rewrite length_fmap, length_astype_str].
  specialize (W3 W2). rewrite <- N3. clear N3 W2 F2.
  inv_bind H as c_cat Hc_cat. inv_bind H as c_name Hc_name.
  inv_bind H as c_mrp Hc_mrp. inv_bind H as c_dsp Hc_dsp.
  match type of H with
  | context [select_rows ?m F3] =>
      pose proof (has_flags_select m _ P3) as P4;
      assert (wf_frame (select_rows m F3)) as W4;
        [| rewrite <- (select_rows_names m F3);
           remember (select_rows m F3) as F4 eqn:HF4; clear HF4 ]
  end.
  { apply wf_select_rows; [done |]. unfold mask_not, mask_or.
    rewrite length_fmap, !length_zip_with, !length_isnull.
    rewrite (get_col_slen _ _ _ W3 Hc_cat), (get_col_slen _ _ _ W3 Hc_name),
      (get_col_slen _ _ _ W3 Hc_mrp), (get_col_slen _ _ _ W3 Hc_dsp). lia. }
  clear Hc_cat Hc_name Hc_mrp Hc_dsp c_cat c_name c_mrp c_dsp W3 P3 F3.
  inv_bind H as mrp Hmrp. inv_bind H as dsp Hdsp.
  match type of H with
  | context [select_rows ?m F4] =>
      pose proof (has_flags_select m _ P4) as P5;
      assert (wf_frame (select_rows m F4)) as W5;
        [| rewrite <- (select_rows_names m F4);
           remember (select_rows m F4) as F5 eqn:HF5; clear HF5 ]
  end.
  { apply wf_select_rows; [done |]. unfold mask_and.
    rewrite length_zip_with, !length_fmap.
    rewrite (get_num_length _ _ _ W4 Hmrp), (get_num_length _ _ _ W4 Hdsp).
    lia. }
  clear Hmrp Hdsp mrp dsp W4 P4 F4.
  inv_bind H as dp Hdp.
  match type of H with
  | context [select_rows ?m F5] =>
      pose proof (has_flags_select m _ P5) as P6;
      assert (wf_frame (select_rows m F5)) as W6;
        [| rewrite <- (select_rows_names m F5);
           remember (select_rows m F5) as F6 eqn:HF6; clear HF6 ]
  end.
  { apply wf_select_rows; [done |]. unfold mask_and.
    rewrite length_zip_with, !length_fmap.
    rewrite (get_num_length _ _ _ W5 Hdp). lia. }
  clear Hdp dp W5 P5 F5.
  inv_bind H as aq Haq.
  pose proof (has_flags_set "available_quantity" (SNum (fillna (Fin 0) aq)) _
                ltac:(discriminate) P6) as P7.
  assert (wf_frame (set_col "available_quantity" (SNum (fillna (Fin 0) aq)) F6))
    as W7.
  { apply wf_set_col; [done |]. simpl. rewrite length_fillna.
    by eapply get_num_length. }
  inv_bind Haq as s_aq Hs_aq.
  rewrite <- (set_col_names _ _ (SNum (fillna (Fin 0) aq)) _ Hs_aq).
  remember (set_col "available_quantity" (SNum (fillna (Fin 0) aq)) F6)
    as F7 eqn:HF7.
  clear HF7 Hs_aq Haq s_aq aq W6 P6 F6.
  inv_bind H as w Hw.
  pose proof (has_flags_set "weight_in_gms" (SNum (fillna (Fin 0) w)) _
                ltac:(discriminate) P7) as P8.
  assert (wf_frame (set_col "weight_in_gms" (SNum (fillna (Fin 0) w)) F7))
    as W8.
  { apply wf_set_col; [done |]. simpl. rewrite length_fillna.
    by eapply get_num_length. }
  inv_bind Hw as s_w Hs_w.
  rewrite <- (set_col_names _ _ (SNum (fillna (Fin 0) w)) _ Hs_w).
  remember (set_col "weight_in_gms" (SNum (fillna (Fin 0) w)) F7) as F8 eqn:HF8.
  clear HF8 Hs_w Hw s_w w W7 P7 F7.
  inv_bind H as q Hq.
  pose proof (has_flags_set "quantity" (SNum (fillna (Fin 1) q)) _
                ltac:(discriminate) P8) as P9.
  assert (wf_frame (set_col "quantity" (SNum (fillna (Fin 1) q)) F8)) as W9.
  { apply wf_set_col; [done |]. simpl. rewrite length_fillna.
    by eapply get_num_length. }
  inv_bind Hq as s_q Hs_q.
  rewrite <- (set_col_names _ _ (SNum (fillna (Fin 1) q)) _ Hs_q).
  remember (set_col "quantity" (SNum (fillna (Fin 1) q)) F8) as F9 eqn:HF9.
  clear HF9 Hs_q Hq s_q q W8 P8 F8.
  inv_bind H as oos Hoos. injection H as <-.
  split; [by eapply set_col_names |].
  apply wf_set_col; [done |].
  pose proof (get_col_slen _ _ _ W9 Hoos) as L.
  destruct P9 as [xs P9]. apply get_col_Ok in Hoos.
  rewrite P9 in Hoos. injection Hoos as <-.
  simpl in *. by rewrite length_fmap.
Qed.

End NormalizerFrame.

Section NormalizerColumns.
Variable float_str : fval -> pystr.
Variable parse_float : pystr -> fval.

#[local] Arguments fgt : simpl never.
#[local] Arguments fge : simpl never.
#[local] Arguments fle : simpl never.
#[local] Arguments isnan : simpl never.
#[local] Arguments fillna : simpl never.

(** The nine columns of the normalizer's output, from the columns of the
    raw table. *)
Lemma transform_data_columns (raw out : frame) :
  wf_frame raw ->
  transform_data float_str parse_float raw = Ok out ->
  let k := kept_rows parse_float raw in
  Forall (fun n => raw_column raw n <> None) catalog_columns /\
  nrows out = mask_sum k /\
  assoc "category" (columns out)
  = Some (SStr (select k (text_column float_str raw "category"))) /\
  assoc "name" (columns out)
  = Some (SStr (select k (text_column float_str raw "name"))) /\
  assoc "mrp" (columns out)
  = Some (SNum (select k (parsed_column parse_float raw "mrp"))) /\
  assoc "discount_percent" (columns out)
  = Some (SNum (select k (parsed_column parse_float raw "discount_percent"))) /\
  assoc "available_quantity" (columns out)
  = Some (SNum (fillna (Fin 0)
                  (select k (parsed_column parse_float raw "available_quantity")))) /\
  assoc "discounted_selling_price" (columns out)
  = Some (SNum (select k (parsed_column parse_float raw
                            "discounted_selling_price"))) /\
  assoc "weight_in_gms" (columns out)
  = Some (SNum (fillna (Fin 0)
                  (select k (parsed_column parse_float raw "weight_in_gms")))) /\
  assoc "out_of_stock" (columns out)
  = Some (SBool (select k (flag_column raw))) /\
  assoc "quantity" (columns out)
  = Some (SNum (fillna (Fin 1)
                  (select k (parsed_column parse_float raw "quantity")))).
Proof.
  intros Hwf H. cbv zeta.
  unfold kept_rows, text_column, flag_column, parsed_column, raw_column.
  unfold transform_data in H. cbn [convert_columns] in H.
  pose proof (wf_rename column_mapping _ Hwf) as Hwf0.
  remember (rename column_mapping raw) as F0 eqn:HF0. clear HF0.
  inv_bind H as F1 H1.
  inv_bind H1 as s_mrp Hs_mrp. inv_bind H1 as s_dp Hs_dp.
  inv_bind H1 as s_aq Hs_aq. inv_bind H1 as s_dsp Hs_dsp.
  inv_bind H1 as s_w Hs_w. inv_bind H1 as s_q Hs_q.
  injection H1 as <-.
  apply get_col_Ok in Hs_mrp, Hs_dp, Hs_aq, Hs_dsp, Hs_w, Hs_q.
  simpl in Hs_dp, Hs_aq, Hs_dsp, Hs_w, Hs_q.
  revert Hs_dp Hs_aq Hs_dsp Hs_w Hs_q. assoc_simpl.
  intros Hs_dp Hs_aq Hs_dsp Hs_w Hs_q.
  inv_bind H as s_oos Hs_oos.
  inv_bind H as F3 H3.
  inv_bind H3 as s_cat Hs_cat. inv_bind H3 as s_name Hs_name.
  injection H3 as <-.
  inv_bind H as c_cat Hc_cat. inv_bind H as c_name Hc_name.
  inv_bind H as c_mrp Hc_mrp. inv_bind H as c_dsp Hc_dsp.
  apply get_col_Ok in Hs_oos, Hs_cat, Hs_name, Hc_cat, Hc_name, Hc_mrp, Hc_dsp.
  simpl in Hs_oos, Hs_cat, Hs_name, Hc_cat, Hc_name, Hc_mrp, Hc_dsp.
  revert Hs_oos Hs_cat Hs_name Hc_cat Hc_name Hc_mrp Hc_dsp. assoc_simpl.
  intros Hs_oos Hs_cat Hs_name Hc_cat Hc_name Hc_mrp Hc_dsp.
  injection Hc_cat as <-. injection Hc_name as <-.
  injection Hc_mrp as <-. injection Hc_dsp as <-.
  pose proof (wf_assoc _ _ _ Hwf0 Hs_mrp) as Lmrp.
  pose proof (wf_assoc _ _ _ Hwf0 Hs_dsp) as Ldsp.
  pose proof (wf_assoc _ _ _ Hwf0 Hs_dp) as Ldp.
  pose proof (wf_assoc _ _ _ Hwf0 Hs_cat) as Lcat.
  pose proof (wf_assoc _ _ _ Hwf0 Hs_name) as Lname.
  rewrite Hs_mrp, Hs_dsp, Hs_dp, Hs_cat, Hs_name, Hs_aq, Hs_w, Hs_q, Hs_oos.
  set (mrp := to_numeric parse_float s_mrp) in *.
  set (dsp := to_numeric parse_float s_dsp) in *.
  set (dp := to_numeric parse_float s_dp) in *.
  assert (length mrp = nrows F0) as Lm
      by (unfold mrp; by rewrite length_to_numeric).
  assert (length dsp = nrows F0) as Ld
      by (unfold dsp; by rewrite length_to_numeric).
  match type of H with
  | context [select_rows (mask_not ?mm) ?F] =>
      assert (mask_not mm = essential_mask mrp dsp) as Hm1
  end.
  { unfold essential_mask. f_equal. simpl.
    rewrite (mask_or_false_l _ (mask_or _ _)).
    - done.
    - unfold mask_or. rewrite !length_zip_with, !length_fmap.
      unfold DataProcessor.astype_str.
      destruct s_cat, s_name; simpl in *; rewrite ?length_fmap; lia.
    - unfold mask_or. apply Forall_forall. intros x Hx.
      apply list_elem_of_lookup in Hx as [j Hj].
      apply lookup_zip_with_Some in Hj as (a & b & -> & Ha & Hb).
      apply list_lookup_fmap_Some in Ha as (a' & -> & Ha).
      apply list_lookup_fmap_Some in Hb as (b' & -> & Hb).
      apply list_lookup_fmap_Some in Ha as (a'' & -> & Ha).
      apply list_lookup_fmap_Some in Hb as (b'' & -> & Hb).
      done. }
  rewrite Hm1 in H. clear Hm1.
  set (m1 := essential_mask mrp dsp) in *.
  inv_bind H as mrp4 Hmrp4. inv_bind H as dsp4 Hdsp4.
  apply get_num_Ok in Hmrp4, Hdsp4. simpl in Hmrp4, Hdsp4.
  rewrite assoc_fmap in Hmrp4, Hdsp4.
  revert Hmrp4 Hdsp4. assoc_simpl. simpl. intros [= <-] [= <-].
  inv_bind H as dp5 Hdp5.
  apply get_num_Ok in Hdp5. simpl in Hdp5.
  rewrite !assoc_fmap in Hdp5.
  revert Hdp5. assoc_simpl. simpl. intros [= <-].
  inv_bind H as aq Haq. apply get_num_Ok in Haq. simpl in Haq.
  rewrite !assoc_fmap in Haq. revert Haq. assoc_simpl. simpl. intros [= <-].
  inv_bind H as w Hw. apply get_num_Ok in Hw. simpl in Hw.
  revert Hw. assoc_simpl. rewrite !assoc_fmap. assoc_simpl. simpl.
  intros [= <-].
  inv_bind H as q Hq. apply get_num_Ok in Hq. simpl in Hq.
  revert Hq. assoc_simpl. rewrite !assoc_fmap. assoc_simpl. simpl.
  intros [= <-].
  inv_bind H as oos Hoos. apply get_col_Ok in Hoos. simpl in Hoos.
  revert Hoos. assoc_simpl. rewrite !assoc_fmap. assoc_simpl. simpl.
  intros [= <-].
  injection H as <-.
  fold (positive_mask (select m1 mrp) (select m1 dsp)).
  fold (discount_mask
          (select (positive_mask (select m1 mrp) (select m1 dsp))
                  (select m1 dp))).
  rewrite positive_mask_select, select_select, discount_mask_select.
  unfold normalizer_mask, cleaned_text, filled_flags. fold m1.
  set (k := mask_and (mask_and m1 (positive_mask mrp dsp)) (discount_mask dp)).
  assert (forall A (xs : list A),
            select (select (mask_and m1 (positive_mask mrp dsp)) (discount_mask dp))
              (select (select m1 (positive_mask mrp dsp)) (select m1 xs))
            = select k xs) as Hsel
    by (intros A xs; by rewrite !select_select).
  split.
  { unfold catalog_columns.
    repeat apply Forall_cons_2; try apply Forall_nil_2; congruence. }
  split; [simpl; by rewrite mask_sum_select |].
  repeat split; simpl; assoc_simpl; rewrite ?assoc_fmap; assoc_simpl; simpl;
    rewrite ?assoc_fmap; assoc_simpl; simpl;
    rewrite ?Hs_mrp, ?Hs_dp, ?Hs_dsp; simpl;
    by rewrite ?Hsel, ?select_fmap.
Qed.

End NormalizerColumns.

Lemma normalizer_mask_true (mrp dsp dp : list fval) (j : nat) :
  normalizer_mask mrp dsp dp !! j = Some true ->
  exists m d p,
    mrp !! j = Some m /\ dsp !! j = Some d /\ dp !! j = Some p /\
    fgt m (Fin 0) = true /\ fgt d (Fin 0) = true /\
    fge p (Fin 0) = true /\ fle p (Fin 100) = true.
Proof.
  unfold normalizer_mask, essential_mask, positive_mask, discount_mask,
    mask_and, mask_or, mask_not.
  intros H.
  apply lookup_zip_with_Some in H as (a & b & Hab & Ha & Hb).
  apply lookup_zip_with_Some in Ha as (a1 & a2 & -> & _ & Ha2).
  apply lookup_zip_with_Some in Ha2 as (m' & d' & -> & Hm & Hd).
  apply list_lookup_fmap_Some in Hm as (m & -> & Hm).
  apply list_lookup_fmap_Some in Hd as (d & -> & Hd).
  apply lookup_zip_with_Some in Hb as (p1 & p2 & -> & Hp1 & Hp2).
  apply list_lookup_fmap_Some in Hp1 as (p & -> & Hp).
  apply list_lookup_fmap_Some in Hp2 as (p' & -> & Hp').
  rewrite Hp in Hp'. injection Hp' as <-.
  exists m, d, p. symmetry in Hab.
  apply andb_true_iff in Hab as [Hab1 Hab2].
  apply andb_true_iff in Hab1 as [_ Hab1].
  apply andb_true_iff in Hab1 as [? ?].
  apply andb_true_iff in Hab2 as [? ?].
  by repeat split.
Qed.

Lemma fillna_lookup (v : fval) (xs : list fval) (i : nat) (a : fval) :
  isnan v = false -> fillna v xs !! i = Some a -> isnan a = false.
Proof.
  intros Hv H. unfold fillna in H.
  apply list_lookup_fmap_Some in H as (x & -> & _).
  by destruct (isnan x) eqn:E.
Qed.

Section NormalizerOutput.
Variable float_str : fval -> pystr.
Variable parse_float : pystr -> fval.

(** X18: every row that the normalizer returns is complete.  Its
    category and name are texts without surrounding whitespace, its mrp
    and its discounted_selling_price are above 0, its discount_percent is
    between 0 and 100, its available_quantity, weight_in_gms and quantity
    hold numbers, and its out_of_stock flag is a boolean: no cell of the
    nine catalog columns is missing. *)
Theorem normalizer_output_complete (raw out : frame) (i : nat) :
  wf_frame raw ->
  transform_data float_str parse_float raw = Ok out ->
  i < nrows out ->
  exists c n m p a d w o q,
    (str_at "category" out i = Some (Some c) /\ stripped c) /\
    (str_at "name" out i = Some (Some n) /\ stripped n) /\
    (num_at "mrp" out i = Some m /\ fgt m (Fin 0) = true) /\
    (num_at "discount_percent" out i = Some p /\
     fge p (Fin 0) = true /\ fle p (Fin 100) = true) /\
    (num_at "available_quantity" out i = Some a /\ isnan a = false) /\
    (num_at "discounted_selling_price" out i = Some d /\
     fgt d (Fin 0) = true) /\
    (num_at "weight_in_gms" out i = Some w /\ isnan w = false) /\
    bool_at "out_of_stock" out i = Some (Some o) /\
    (num_at "quantity" out i = Some q /\ isnan q = false).
Proof.
  intros Hwf H Hi.
  destruct (transform_data_frame float_str parse_float _ _ Hwf H) as [_ Hout].
  destruct (transform_data_columns float_str parse_float _ _ Hwf H)
    as (_ & _ & Hcat & Hname & Hmrp & Hdp & Haq & Hdsp & Hw & Hoos & Hq).
  unfold str_at, num_at, bool_at.
  pose proof (wf_assoc _ _ _ Hout Hcat) as Lcat.
  pose proof (wf_assoc _ _ _ Hout Hname) as Lname.
  pose proof (wf_assoc _ _ _ Hout Hmrp) as Lmrp.
  pose proof (wf_assoc _ _ _ Hout Hdp) as Ldp.
  pose proof (wf_assoc _ _ _ Hout Haq) as Laq.
  pose proof (wf_assoc _ _ _ Hout Hdsp) as Ldsp.
  pose proof (wf_assoc _ _ _ Hout Hw) as Lw.
  pose proof (wf_assoc _ _ _ Hout Hoos) as Loos.
  pose proof (wf_assoc _ _ _ Hout Hq) as Lq.
  rewrite Hcat, Hname, Hmrp, Hdp, Haq, Hdsp, Hw, Hoos, Hq.
  cbn [slen] in *.
  set (k := kept_rows parse_float raw) in *.
  destruct (lookup_lt_is_Some_2 (select k (text_column float_str raw "category")) i)
    as [c Hc]; [lia |].
  destruct (lookup_lt_is_Some_2 (select k (text_column float_str raw "name")) i)
    as [n Hn]; [lia |].
  destruct (lookup_lt_is_Some_2 (select k (parsed_column parse_float raw "mrp")) i)
    as [m Hm]; [lia |].
  destruct (lookup_lt_is_Some_2
              (select k (parsed_column parse_float raw "discount_percent")) i)
    as [p Hp]; [lia |].
  destruct (lookup_lt_is_Some_2
              (select k (parsed_column parse_float raw
                           "discounted_selling_price")) i)
    as [d Hd]; [lia |].
  destruct (lookup_lt_is_Some_2
              (fillna (Fin 0)
                 (select k (parsed_column parse_float raw "available_quantity")))
              i) as [a Ha]; [lia |].
  destruct (lookup_lt_is_Some_2
              (fillna (Fin 0)
                 (select k (parsed_column parse_float raw "weight_in_gms")))
              i) as [w Hw']; [lia |].
  destruct (lookup_lt_is_Some_2
              (fillna (Fin 1)
                 (select k (parsed_column parse_float raw "quantity")))
              i) as [q Hq']; [lia |].
  destruct (lookup_lt_is_Some_2 (select k (flag_column raw)) i)
    as [o Ho]; [lia |].
  (* the kept row that the output row comes from *)
  destruct (select_lookup2 _ _ _ _ _ _ Hm Hd) as (j & Hk & Hmj & Hdj).
  destruct (select_lookup _ _ _ _ Hp) as (j' & Hk' & Hpj).
  unfold k, kept_rows in Hk, Hk'.
  destruct (normalizer_mask_true _ _ _ _ Hk)
    as (m0 & d0 & p0 & Hm0 & Hd0 & _ & Gm & Gd & _).
  destruct (normalizer_mask_true _ _ _ _ Hk')
    as (m1 & d1 & p1 & _ & _ & Hp1 & _ & _ & Gp1 & Gp2).
  rewrite Hmj in Hm0. injection Hm0 as <-.
  rewrite Hdj in Hd0. injection Hd0 as <-.
  rewrite Hpj in Hp1. injection Hp1 as <-.
  (* the text cells and the flag *)
  destruct (select_lookup _ _ _ _ Hc) as (jc & _ & Hcj).
  destruct (select_lookup _ _ _ _ Hn) as (jn & _ & Hnj).
  destruct (select_lookup _ _ _ _ Ho) as (jo & _ & Hoj).
  unfold text_column in Hcj, Hnj. unfold flag_column in Hoj.
  assert (exists t, c = Some (py_strip t)) as [tc ->].
  { destruct (raw_column raw "category"); [| done].
    apply list_lookup_fmap_Some in Hcj as (t & -> & _). by exists t. }
  assert (exists t, n = Some (py_strip t)) as [tn ->].
  { destruct (raw_column raw "name"); [| done].
    apply list_lookup_fmap_Some in Hnj as (t & -> & _). by exists t. }
  assert (exists b, o = Some b) as [b ->].
  { destruct (raw_column raw "out_of_stock"); [| done].
    apply list_lookup_fmap_Some in Hoj as (t & -> & _). by eexists. }
  exists (py_strip tc), (py_strip tn), m, p, a, d, w, b, q.
  repeat split; try done; try apply py_strip_stripped.
  - by eapply (fillna_lookup (Fin 0)); [| exact Ha].
  - by eapply (fillna_lookup (Fin 0)); [| exact Hw'].
  - by eapply (fillna_lookup (Fin 1)); [| exact Hq'].
Qed.

End NormalizerOutput.

Lemma normalizer_output_complete_witness :
  exists out,
    transform_data (fun _ => []) (fun _ => NaN) raw_sample = Ok out /\
    exists c n m p a d w o q,
      (str_at "category" out 0 = Some (Some c) /\ stripped c) /\
      (str_at "name" out 0 = Some (Some n) /\ stripped n) /\
      (num_at "mrp" out 0 = Some m /\ fgt m (Fin 0) = true) /\
      (num_at "discount_percent" out 0 = Some p /\
       fge p (Fin 0) = true /\ fle p (Fin 100) = true) /\
      (num_at "available_quantity" out 0 = Some a /\ isnan a = false) /\
      (num_at "discounted_selling_price" out 0 = Some d /\
       fgt d (Fin 0) = true) /\
      (num_at "weight_in_gms" out 0 = Some w /\ isnan w = false) /\
      bool_at "out_of_stock" out 0 = Some (Some o) /\
      (num_at "quantity" out 0 = Some q /\ isnan q = false).
Proof.
  eexists. split; [vm_compute; reflexivity |].
  apply (normalizer_output_complete (fun _ => []) (fun _ => NaN) raw_sample
           _ 0);
    [repeat constructor | vm_compute; reflexivity | simpl; lia].
Defined.

Lemma Forall_select {A} (P : A -> Prop) (k : list bool) (xs : list A) :
  (forall (j : nat) (x : A), k !! j = Some true -> xs !! j = Some x -> P x) ->
  Forall P (select k xs).
Proof.
  intros H. apply Forall_lookup. intros i x Hi.
  destruct (select_lookup _ _ _ _ Hi) as (j & Hk & Hx). eauto.
Qed.

Lemma renamed_cases (mapping : list (string * string)) (n : string) :
  renamed mapping n = n \/ exists old, (old, renamed mapping n) ∈ mapping.
Proof.
  induction mapping as [| [old new] mapping IH]; simpl; [by left |].
  destruct (String.eqb old n) eqn:E.
  - right. exists old. by left.
  - destruct IH as [IH | [o IH]]; [by left |].
    right. exists o. by right.
Qed.

Lemma renamed_fixed (n : string) :
  renamed column_mapping (renamed column_mapping n) = renamed column_mapping n.
Proof.
  destruct (renamed_cases column_mapping n) as [E | [old H]];
    [by rewrite !E |].
  assert (Forall (fun kv => renamed column_mapping (snd kv) = snd kv)
                 column_mapping) as HF by (by repeat constructor).
  rewrite Forall_forall in HF. exact (HF _ H).
Qed.

Lemma rename_fixed (df : frame) :
  Forall (fun n => renamed column_mapping n = n) (column_names df) ->
  rename column_mapping df = df.
Proof.
  destruct df as [k cs]. unfold rename, column_names. simpl. intros H.
  f_equal. induction cs as [| [n s] cs IH]; [done |].
  rewrite fmap_cons in H. apply Forall_cons in H as [Hn H].
  rewrite fmap_cons. unfold prod_map at 1. simpl in *. rewrite Hn.
  f_equal. by apply IH.
Qed.

Section Normalized.
Variable float_str : fval -> pystr.
Variable parse_float : pystr -> fval.

(** What the normalizer returns is a normalized table. *)
Lemma transform_data_normalized (raw out : frame) :
  wf_frame raw ->
  transform_data float_str parse_float raw = Ok out ->
  normalized out.
Proof.
  intros Hwf H.
  destruct (transform_data_frame float_str parse_float _ _ Hwf H)
    as [Hnames Hout].
  destruct (transform_data_columns float_str parse_float _ _ Hwf H)
    as (_ & _ & Hcat & Hname & Hmrp & Hdp & Haq & Hdsp & Hw & Hoos & Hq).
  split; [exact Hout |]. split.
  { rewrite Hnames. unfold column_names, rename. simpl.
    rewrite <- list_fmap_compose. apply Forall_fmap, Forall_forall.
    intros [n s] _. simpl. apply renamed_fixed. }
  do 9 eexists.
  split; [split; [exact Hcat |] |].
  { apply Forall_select. intros j x _ Hx. unfold text_column in Hx.
    destruct (raw_column raw "category"); [| done].
    apply list_lookup_fmap_Some in Hx as (t & -> & _).
    eexists. split; [done | apply py_strip_stripped]. }
  split; [split; [exact Hname |] |].
  { apply Forall_select. intros j x _ Hx. unfold text_column in Hx.
    destruct (raw_column raw "name"); [| done].
    apply list_lookup_fmap_Some in Hx as (t & -> & _).
    eexists. split; [done | apply py_strip_stripped]. }
  split; [split; [exact Hmrp |] |].
  { apply Forall_select. intros j x Hk Hx.
    destruct (normalizer_mask_true _ _ _ _ Hk)
      as (m0 & d0 & p0 & Hm0 & _ & _ & Gm & _). congruence. }
  split; [split; [exact Hdp |] |].
  { apply Forall_select. intros j x Hk Hx.
    destruct (normalizer_mask_true _ _ _ _ Hk)
      as (m0 & d0 & p0 & _ & _ & Hp0 & _ & _ & G1 & G2).
    split; congruence. }
  split; [split; [exact Haq |] |].
  { apply Forall_lookup. intros i x Hx. by eapply (fillna_lookup (Fin 0)). }
  split; [split; [exact Hdsp |] |].
  { apply Forall_select. intros j x Hk Hx.
    destruct (normalizer_mask_true _ _ _ _ Hk)
      as (m0 & d0 & p0 & _ & Hd0 & _ & _ & Gd & _). congruence. }
  split; [split; [exact Hw |] |].
  { apply Forall_lookup. intros i x Hx. by eapply (fillna_lookup (Fin 0)). }
  split; [split; [exact Hoos |] |].
  { apply Forall_select. intros j x _ Hx. unfold flag_column in Hx.
    destruct (raw_column raw "out_of_stock"); [| done].
    apply list_lookup_fmap_Some in Hx as (t & -> & _). by eexists. }
  split; [exact Hq |].
  apply Forall_lookup. intros i x Hx. by eapply (fillna_lookup (Fin 1)).
Qed.

End Normalized.

Lemma mask_not_not (m : list bool) : mask_not (mask_not m) = m.
Proof.
  unfold mask_not. rewrite <- list_fmap_compose.
  rewrite <- (list_fmap_id m) at 2. apply list_fmap_ext.
  intros i b _. simpl. apply negb_involutive.
Qed.

Lemma select_rows_true (m : list bool) (df : frame) :
  wf_frame df -> length m = nrows df -> Forall (fun b => b = true) m ->
  select_rows m df = df.
Proof.
  intros Hwf Hl Hm. rewrite <- (mask_not_not m).
  apply select_rows_all;
    [done | | unfold mask_not; by rewrite length_fmap].
  apply mask_any_false_intro. intros i Hi. unfold mask_not in Hi.
  apply list_lookup_fmap_Some in Hi as (b & Hb & Hi).
  rewrite Forall_lookup in Hm. rewrite (Hm _ _ Hi) in Hb. discriminate.
Qed.

Lemma all_true_and (a b : list bool) :
  Forall (fun x => x = true) a -> Forall (fun x => x = true) b ->
  Forall (fun x => x = true) (mask_and a b).
Proof.
  intros Ha Hb. apply Forall_lookup. intros i x Hi. unfold mask_and in Hi.
  apply lookup_zip_with_Some in Hi as (u & v & -> & Hu & Hv).
  rewrite Forall_lookup in Ha, Hb. by rewrite (Ha _ _ Hu), (Hb _ _ Hv).
Qed.

Lemma fmap_fixed {A} (P : A -> Prop) (f : A -> A) (xs : list A) :
  Forall P xs -> (forall x, P x -> f x = x) -> f <$> xs = xs.
Proof.
  intros H Hf. induction H as [| x xs Hx H IH]; [done |].
  rewrite fmap_cons. by rewrite IH, Hf.
Qed.

Lemma fillna_id (v : fval) (xs : list fval) :
  Forall (fun x => isnan x = false) xs -> fillna v xs = xs.
Proof.
  intros H. unfold fillna.
  apply (fmap_fixed (fun x => isnan x = false)); [done |].
  by intros x ->.
Qed.

Lemma mask_any_or (a b : list bool) :
  mask_any a = false -> mask_any b = false -> mask_any (mask_or a b) = false.
Proof.
  intros Ha Hb. apply mask_any_false_intro. intros i Hi. unfold mask_or in Hi.
  apply lookup_zip_with_Some in Hi as (u & v & Huv & Hu & Hv).
  destruct u; [by apply (mask_any_false_lookup a i) |].
  destruct v; [by apply (mask_any_false_lookup b i) | done].
Qed.

Lemma mask_any_fmap_false {A} (P : A -> Prop) (f : A -> bool) (xs : list A) :
  Forall P xs -> (forall x, P x -> f x = false) -> mask_any (f <$> xs) = false.
Proof.
  intros H Hf. apply mask_any_false_intro. intros i Hi.
  apply list_lookup_fmap_Some in Hi as (x & Hx & Hi).
  rewrite Forall_lookup in H. rewrite (Hf x) in Hx by eauto. discriminate.
Qed.

Section Idempotent.
Variable float_str : fval -> pystr.
Variable parse_float : pystr -> fval.

#[local] Arguments fgt : simpl never.
#[local] Arguments fge : simpl never.
#[local] Arguments fle : simpl never.
#[local] Arguments isnan : simpl never.
#[local] Arguments fillna : simpl never.

(** The normalizer returns a normalized table as it is. *)
Lemma transform_data_fixed (df : frame) :
  normalized df -> transform_data float_str parse_float df = Ok df.
Proof.
  intros (Hwf & Hnames &
          cat & name & mrp & dp & aq & dsp & w & oos & q &
          [Hcat Pcat] & [Hname Pname] & [Hmrp Pmrp] & [Hdp Pdp] &
          [Haq Paq] & [Hdsp Pdsp] & [Hw Pw] & [Hoos Poos] & [Hq Pq]).
  pose proof (wf_assoc _ _ _ Hwf Hcat) as Lcat.
  pose proof (wf_assoc _ _ _ Hwf Hname) as Lname.
  pose proof (wf_assoc _ _ _ Hwf Hmrp) as Lmrp.
  pose proof (wf_assoc _ _ _ Hwf Hdsp) as Ldsp.
  pose proof (wf_assoc _ _ _ Hwf Hdp) as Ldp.
  cbn [slen] in *.
  unfold transform_data. cbv zeta. rewrite (rename_fixed _ Hnames).
  cbn [convert_columns].
  rewrite (get_col_assoc _ _ _ Hmrp). cbn [bind to_numeric].
  rewrite (set_col_id _ _ _ Hmrp).
  rewrite (get_col_assoc _ _ _ Hdp). cbn [bind to_numeric].
  rewrite (set_col_id _ _ _ Hdp).
  rewrite (get_col_assoc _ _ _ Haq). cbn [bind to_numeric].
  rewrite (set_col_id _ _ _ Haq).
  rewrite (get_col_assoc _ _ _ Hdsp). cbn [bind to_numeric].
  rewrite (set_col_id _ _ _ Hdsp).
  rewrite (get_col_assoc _ _ _ Hw). cbn [bind to_numeric].
  rewrite (set_col_id _ _ _ Hw).
  rewrite (get_col_assoc _ _ _ Hq). cbn [bind to_numeric].
  rewrite (set_col_id _ _ _ Hq).
  rewrite (get_col_assoc _ _ _ Hoos). cbn [bind map_bool].
  rewrite (set_col_id _ _ _ Hoos).
  assert (forall xs,
            Forall (fun x => exists t, x = Some t /\ stripped t) xs ->
            (fun x => Some (py_strip x)) <$> astype_str float_str (SStr xs)
            = xs) as Htext.
  { intros xs Hxs. cbn [astype_str]. rewrite <- list_fmap_compose.
    apply (fmap_fixed _ _ _ Hxs). intros x (t & -> & Ht). simpl.
    by rewrite Ht. }
  rewrite (get_col_assoc _ _ _ Hcat). cbn [bind].
  rewrite (Htext _ Pcat), (set_col_id _ _ _ Hcat).
  rewrite (get_col_assoc _ _ _ Hname). cbn [bind].
  rewrite (Htext _ Pname), (set_col_id _ _ _ Hname).
  rewrite (get_col_assoc _ _ _ Hcat), (get_col_assoc _ _ _ Hname),
    (get_col_assoc _ _ _ Hmrp), (get_col_assoc _ _ _ Hdsp).
  cbn [bind].
  rewrite select_rows_all; [| done | | ]; cycle 1.
  { repeat apply mask_any_or; cbn [isnull].
    - apply (mask_any_fmap_false _ _ _ Pcat).
      intros x (t & -> & _). by apply bool_decide_eq_false.
    - apply (mask_any_fmap_false _ _ _ Pname).
      intros x (t & -> & _). by apply bool_decide_eq_false.
    - apply (mask_any_fmap_false _ _ _ Pmrp). intros x Hx. by destruct x.
    - apply (mask_any_fmap_false _ _ _ Pdsp). intros x Hx. by destruct x. }
  { unfold mask_or. rewrite !length_zip_with, !length_isnull.
    cbn [slen]. lia. }
  rewrite (get_num_assoc _ _ _ Hmrp), (get_num_assoc _ _ _ Hdsp).
  cbn [bind].
  rewrite select_rows_true; [| done | | ]; cycle 1.
  { unfold mask_and. rewrite length_zip_with, !length_fmap. lia. }
  { apply all_true_and; by apply Forall_fmap. }
  rewrite (get_num_assoc _ _ _ Hdp). cbn [bind].
  rewrite select_rows_true; [| done | | ]; cycle 1.
  { unfold mask_and. rewrite length_zip_with, !length_fmap. lia. }
  { apply all_true_and; apply Forall_fmap;
      (eapply Forall_impl; [exact Pdp |]); by intros x [? ?]. }
  rewrite (get_num_assoc _ _ _ Haq). cbn [bind].
  rewrite (fillna_id _ _ Paq), (set_col_id _ _ _ Haq).
  rewrite (get_num_assoc _ _ _ Hw). cbn [bind].
  rewrite (fillna_id _ _ Pw), (set_col_id _ _ _ Hw).
  rewrite (get_num_assoc _ _ _ Hq). cbn [bind].
  rewrite (fillna_id _ _ Pq), (set_col_id _ _ _ Hq).
  rewrite (get_col_assoc _ _ _ Hoos). cbn [bind].
  rewrite (fmap_fixed _ _ _ Poos); [| by intros x [b ->]].
  by rewrite (set_col_id _ _ _ Hoos).
Qed.

(** X19: the normalizer is idempotent: applied to a table that it has
    returned, it returns that table unchanged. *)
Theorem transform_data_idempotent (raw out : frame) :
  wf_frame raw ->
  transform_data float_str parse_float raw = Ok out ->
  transform_data float_str parse_float out = Ok out.
Proof.
  intros Hwf H. apply transform_data_fixed.
  by eapply transform_data_normalized.
Qed.

End Idempotent.

Lemma transform_data_idempotent_witness :
  exists out,
    transform_data (fun _ => []) (fun _ => NaN) raw_sample = Ok out /\
    transform_data (fun _ => []) (fun _ => NaN) out = Ok out.
Proof.
  eexists. split; [vm_compute; reflexivity |].
  apply (transform_data_idempotent (fun _ => []) (fun _ => NaN) raw_sample);
    [repeat constructor | vm_compute; reflexivity].
Defined.

(** ** validate_business_rules *)







(** A rule that returns has either added a message or left the table and
    the messages as they were. *)
Lemma rule1_silent (df df1 : frame) (msgs msgs1 : list string) :
  rule1 df msgs = Ok (df1, msgs1) ->
  (exists m, msgs1 = msgs ++ [m]) \/ (msgs1 = msgs /\ df1 = df).
Proof.
  unfold rule1. intros H. inv_bind H as mrp Hmrp. inv_bind H as dsp Hdsp.
  cbv zeta in H. destruct (mask_any _); injection H as <- <-;
    [left; by eexists | by right].
Qed.

Lemma rule2_silent (df df2 : frame) (msgs msgs2 : list string) :
  rule2 df msgs = Ok (df2, msgs2) ->
  (exists m, msgs2 = msgs ++ [m]) \/
  (msgs2 = msgs /\ (assoc "calculated_discount" (columns df) = None -> df2 = df)).
Proof.
  unfold rule2. intros H. inv_bind H as mrp Hmrp. inv_bind H as dsp Hdsp.
  cbv zeta in H. inv_bind H as dp Hdp. inv_bind H as calc Hcalc.
  inv_bind H as r Hr. destruct r as [df' msgs'].
  inv_bind H as df'' Hdrop. injection H as <- <-.
  destruct (mask_any _).
  - inv_bind Hr as calc' Hcalc'. inv_bind Hr as rhs Hrhs.
    inv_bind Hr as dp' Hdp'. injection Hr as <- <-. left. by eexists.
  - injection Hr as <- <-. right. split; [done |]. intros Hc.
    unfold drop in Hdrop. destruct (has_col _ _); [| done].
    injection Hdrop as <-. simpl.
    rewrite (assoc_del_set_absent _ _ _ Hc). by destruct df.
Qed.

Lemma rule3_silent (df df3 : frame) (msgs msgs3 : list string) :
  rule3 df msgs = Ok (df3, msgs3) ->
  (exists m, msgs3 = msgs ++ [m]) \/ (msgs3 = msgs /\ df3 = df).
Proof.
  unfold rule3. intros H. inv_bind H as oos Hoos. inv_bind H as av Hav.
  cbv zeta in H. destruct (mask_any _); injection H as <- <-;
    [left; by eexists | by right].
Qed.

Lemma rule4_silent (df df4 : frame) (msgs msgs4 : list string) :
  rule4 df msgs = Ok (df4, msgs4) ->
  (exists m, msgs4 = msgs ++ [m]) \/ (msgs4 = msgs /\ df4 = df).
Proof.
  unfold rule4. intros H. inv_bind H as av Hav. inv_bind H as oos Hoos.
  cbv zeta in H. destruct (mask_any _); injection H as <- <-;
    [left; by eexists | by right].
Qed.

(** X21: every change that validate_business_rules makes is reported.
    When it returns an empty list of messages for a table that has no
    calculated_discount column of its own, the table that it returns is
    the input table, cell for cell. *)
Theorem validate_business_rules_silent (df df' : frame) :
  assoc "calculated_discount" (columns df) = None ->
  validate_business_rules df = Ok (df', []) ->
  df' = df.
Proof.
  intros Hc H. unfold validate_business_rules in H. cbv zeta in H.
  inv_bind H as r1 H1. destruct r1 as [df1 msgs1].
  inv_bind H as r2 H2. destruct r2 as [df2 msgs2].
  inv_bind H as r3 H3. destruct r3 as [df3 msgs3].
  inv_bind H as r4 H4. destruct r4 as [df4 msgs4].
  injection H as Hdf Hm. subst df4 msgs4.
  apply rule4_silent in H4 as [[m E] | [E ->]];
    [by destruct msgs3 |]. subst msgs3.
  apply rule3_silent in H3 as [[m E] | [E ->]];
    [by destruct msgs2 |]. subst msgs2.
  apply rule2_silent in H2 as [[m E] | [E H2]];
    [by destruct msgs1 |]. subst msgs1.
  apply rule1_silent in H1 as [[m E] | [_ ->]]; [done |].
  by apply H2.
Qed.

Lemma validate_business_rules_silent_witness :
  exists df',
    validate_business_rules negative_stock = Ok (df', []) /\
    df' = negative_stock.
Proof.
  eexists. split; [vm_compute; reflexivity |].
  apply (validate_business_rules_silent negative_stock);
    [reflexivity | vm_compute; reflexivity].
Defined.



Section Composition.
Variable float_str : fval -> pystr.
Variable parse_float : pystr -> fval.


End Composition.


Section MissingText.
Variable float_str : fval -> pystr.
Variable parse_float : pystr -> fval.

(** X23: a missing category does not make the normalizer drop a row.
    The conversion to text happens before the check for missing values
    and turns the missing cell into the text nan: a row whose category is
    missing and whose prices and discount pass the filters is kept, with
    nan as its category. *)
Theorem normalizer_keeps_missing_category (raw out : frame)
    (cs : list (option pystr)) (j : nat) :
  wf_frame raw ->
  transform_data float_str parse_float raw = Ok out ->
  raw_column raw "category" = Some (SStr cs) ->
  cs !! j = Some None ->
  kept_rows parse_float raw !! j = Some true ->
  exists xs,
    assoc "category" (columns out) = Some (SStr xs) /\
    Some (py "nan") ∈ xs.
Proof.
  intros Hwf H Hc Hj Hk.
  destruct (transform_data_columns float_str parse_float _ _ Hwf H)
    as (_ & _ & Hcat & _).
  eexists. split; [exact Hcat |].
  apply (select_elem _ _ j); [exact Hk |].
  unfold text_column, cleaned_text. rewrite Hc. cbn [astype_str].
  by rewrite !list_lookup_fmap, Hj.
Qed.

End MissingText.

Lemma normalizer_keeps_missing_category_witness :
  exists out xs,
    transform_data (fun _ => []) (fun _ => NaN) raw_sample = Ok out /\
    assoc "category" (columns out) = Some (SStr xs) /\
    Some (py "nan") ∈ xs.
Proof.
  eexists.
  assert (transform_data (fun _ => []) (fun _ => NaN) raw_sample = Ok _) as E
    by (vm_compute; reflexivity).
  destruct (normalizer_keeps_missing_category (fun _ => []) (fun _ => NaN)
              raw_sample _ [Some (py " Fruits "); None] 1
              ltac:(repeat constructor) E eq_refl eq_refl eq_refl)
    as (xs & Hxs & Hin).
  exists xs. by repeat split.
Defined.

Lemma catalog_column_present (raw : frame) (n : string) :
  n ∈ catalog_columns ->
  Forall (fun n => raw_column raw n <> None) catalog_columns ->
  raw_column raw n <> None.
Proof. intros Hn H. rewrite Forall_forall in H. by apply H. Qed.

Ltac missing_column H :=
  right; split;
  [ unfold get_col; cbn [columns set_col]; assoc_simpl; rewrite H; reflexivity
  | intros HC; eapply catalog_column_present in HC;
    [ apply HC; exact H | unfold catalog_columns; repeat constructor ] ].

Ltac known_column n s :=
  rewrite (get_col_assoc n _ s)
    by (cbn [columns set_col]; assoc_simpl; assumption);
  cbn [bind].

Section NormalizerTotal.
Variable float_str : fval -> pystr.
Variable parse_float : pystr -> fval.

#[local] Arguments fgt : simpl never.
#[local] Arguments fge : simpl never.
#[local] Arguments fle : simpl never.
#[local] Arguments isnan : simpl never.
#[local] Arguments fillna : simpl never.

Lemma transform_data_cases (raw : frame) :
  (exists out, transform_data float_str parse_float raw = Ok out /\
               Forall (fun n => raw_column raw n <> None) catalog_columns) \/
  (transform_data float_str parse_float raw = Raise KeyError /\
   ~ Forall (fun n => raw_column raw n <> None) catalog_columns).
Proof.
  unfold transform_data, raw_column. cbv zeta. cbn [convert_columns].
  set (F0 := rename column_mapping raw).
  destruct (assoc "mrp" (columns F0)) as [s_mrp |] eqn:Hmrp;
    [| missing_column Hmrp].
  known_column "mrp" s_mrp.
  destruct (assoc "discount_percent" (columns F0)) as [s_dp |] eqn:Hdp;
    [| missing_column Hdp].
  known_column "discount_percent" s_dp.
  destruct (assoc "available_quantity" (columns F0)) as [s_aq |] eqn:Haq;
    [| missing_column Haq].
  known_column "available_quantity" s_aq.
  destruct (assoc "discounted_selling_price" (columns F0)) as [s_dsp |]
    eqn:Hdsp; [| missing_column Hdsp].
  known_column "discounted_selling_price" s_dsp.
  destruct (assoc "weight_in_gms" (columns F0)) as [s_w |] eqn:Hw;
    [| missing_column Hw].
  known_column "weight_in_gms" s_w.
  destruct (assoc "quantity" (columns F0)) as [s_q |] eqn:Hq;
    [| missing_column Hq].
  known_column "quantity" s_q.
  destruct (assoc "out_of_stock" (columns F0)) as [s_oos |] eqn:Hoos;
    [| missing_column Hoos].
  known_column "out_of_stock" s_oos.
  destruct (assoc "category" (columns F0)) as [s_cat |] eqn:Hcat;
    [| missing_column Hcat].
  known_column "category" s_cat.
  destruct (assoc "name" (columns F0)) as [s_name |] eqn:Hname;
    [| missing_column Hname].
  known_column "name" s_name.
  left.
  assert (Forall (fun n => assoc n (columns F0) <> None) catalog_columns) as HC.
  { unfold catalog_columns.
    repeat apply Forall_cons_2; try apply Forall_nil_2; congruence. }
  clear Hmrp Hdp Haq Hdsp Hw Hq Hoos Hcat Hname.
  repeat (erewrite get_col_assoc;
          [| cbn [columns set_col]; assoc_simpl; reflexivity];
          cbn [bind]).
  repeat (erewrite get_num_assoc;
          [| cbn [columns set_col select_rows];
             rewrite ?assoc_fmap; cbn [columns set_col]; assoc_simpl;
             rewrite ?assoc_fmap; cbn [columns set_col]; assoc_simpl;
             reflexivity];
          cbn [bind]).
  erewrite get_col_assoc;
    [| cbn [columns set_col select_rows];
       assoc_simpl; rewrite ?assoc_fmap; cbn [columns set_col]; assoc_simpl;
       reflexivity].
  cbn [bind]. eexists. split; [reflexivity | exact HC].
Qed.

(** X24: the cells of the raw table never make the normalizer raise.
    On a table whose column labels are distinct once renamed (pandas
    does not give one column for a duplicated label): when the table has
    the nine catalog columns, under their raw or their canonical names,
    transform_data returns a table whatever the cells hold; when one of
    them is absent it raises KeyError. *)
Theorem transform_data_returns_or_key_error (raw : frame) :
  NoDup (column_names (rename column_mapping raw)) ->
  (Forall (fun n => raw_column raw n <> None) catalog_columns ->
   exists out, transform_data float_str parse_float raw = Ok out) /\
  (~ Forall (fun n => raw_column raw n <> None) catalog_columns ->
   transform_data float_str parse_float raw = Raise KeyError).
Proof.
  intros _.
  destruct (transform_data_cases raw) as [(out & H & HC) | [H HC]].
  - split; [intros _; by exists out | done].
  - split; [done | by intros _].
Qed.

End NormalizerTotal.

Lemma transform_data_returns_or_key_error_witness :
  (exists out, transform_data whole_str read_decimal raw_sample = Ok out)
  /\ transform_data whole_str read_decimal sample_products
     = Raise KeyError.
Proof.
  split.
  - apply (transform_data_returns_or_key_error whole_str read_decimal
             raw_sample).
    + apply (bool_decide_unpack _). by vm_compute.
    + unfold catalog_columns.
      repeat apply Forall_cons_2; try apply Forall_nil_2; discriminate.
  - apply (transform_data_returns_or_key_error whole_str read_decimal
             sample_products).
    + apply (bool_decide_unpack _). by vm_compute.
    + intros H. apply Forall_cons in H as [_ H].
      apply Forall_cons in H as [H _]. by apply H.
Defined.

(** ** load_data *)

Section Batches.
Context {A : Type}.
Implicit Types (data : list A) (s : nat).

Lemma concat_chunks data s (k : nat) :
  concat ((fun j => take s (skipn (j * s) data)) <$> seq 0 k)
  = take (k * s) data.
Proof.
  induction k as [| k IH]; [done |].
  rewrite seq_S, fmap_app, concat_app, IH. simpl.
  rewrite app_nil_r, take_take_drop. f_equal. lia.
Qed.

Lemma div_up_covers (n s : nat) : 0 < s -> n <= (n + s - 1) / s * s.
Proof.
  intros Hs.
  pose proof (Nat.div_mod_eq (n + s - 1) s) as E.
  pose proof (Nat.mod_upper_bound (n + s - 1) s ltac:(lia)) as Hr.
  rewrite (Nat.mul_comm s) in E. lia.
Qed.

Lemma div_up_tight (n s j : nat) :
  0 < s -> j < (n + s - 1) / s -> j * s < n.
Proof.
  intros Hs Hj.
  pose proof (Nat.div_mod_eq (n + s - 1) s) as E.
  rewrite (Nat.mul_comm s) in E.
  assert (S j * s <= (n + s - 1) / s * s) as Hle
    by (apply Nat.mul_le_mono_r; lia).
  simpl in Hle. lia.
Qed.

Lemma batches_spec data (batch_size : Z) :
  (0 < batch_size)%Z ->
  exists bs,
    Loader.batches data batch_size = Ok bs /\
    concat bs = data /\
    Forall (fun b => 0 < length b <= Z.to_nat batch_size) bs.
Proof.
  intros Hpos. unfold Loader.batches, Loader.py_range.
  destruct (Z.eqb_spec batch_size 0) as [? | _]; [lia |].
  destruct (Z.ltb_spec batch_size 0) as [? | _]; [lia |].
  cbv zeta. cbn [bind]. set (s := Z.to_nat batch_size).
  assert (0 < s) as Hs by (unfold s; lia).
  eexists. split; [reflexivity |].
  rewrite <- list_fmap_compose.
  assert (forall j,
            ((fun i => Loader.slice data i (i + s)) ∘ (fun j => j * s)) j
            = take s (skipn (j * s) data)) as Hf.
  { intros j. unfold Loader.slice, compose. do 2 f_equal. lia. }
  split.
  - rewrite (list_fmap_ext _ (fun j => take s (skipn (j * s) data)))
      by (intros i j _; apply Hf).
    rewrite concat_chunks. apply take_ge. by apply div_up_covers.
  - apply Forall_fmap, Forall_forall. intros j Hj.
    apply elem_of_seq in Hj as [_ Hj]. simpl in Hj.
    pose proof (div_up_tight _ _ _ Hs Hj) as Hlt.
    unfold compose in *. rewrite Hf, length_take, length_drop. lia.
Qed.

End Batches.

(** X25: for a positive batch size, the batches that load_data sends to
    the database are the rows of the table, in their order, each row in
    exactly one batch; no batch is empty and none has more rows than the
    batch size. *)
Theorem batches_cover {A} (data : list A) (batch_size : Z) :
  (0 < batch_size)%Z ->
  exists bs,
    Loader.batches data batch_size = Ok bs /\
    concat bs = data /\
    Forall (fun b => 0 < length b <= Z.to_nat batch_size) bs.
Proof. apply batches_spec. Qed.

Lemma batches_cover_witness :
  exists bs,
    Loader.batches [1; 2; 3; 4; 5] 2 = Ok bs /\
    concat bs = [1; 2; 3; 4; 5] /\
    Forall (fun b => 0 < length b <= 2) bs.
Proof. apply (batches_cover [1; 2; 3; 4; 5] 2). lia. Defined.

Section Load.
Variable accepts : Loader.tuple -> bool.

Lemma insert_batches_spec (bs : list (list Loader.tuple))
    (c : Loader.connection) :
  Loader.insert_batches accepts c bs
  = if forallb accepts (concat bs)
    then Some (Loader.mkConnection (Loader.committed c)
                 (Loader.working c ++ concat bs))
    else None.
Proof.
  revert c. induction bs as [| b bs IH]; intros c.
  - simpl. rewrite app_nil_r. by destruct c.
  - cbn [Loader.insert_batches concat]. unfold Loader.execute_values.
    rewrite forallb_app. destruct (forallb accepts b); [| done].
    rewrite IH. simpl. destruct (forallb accepts (concat bs)); [| done].
    by rewrite app_assoc.
Qed.

Lemma load_data_positive (c : Loader.connection) (df : frame)
    (batch_size : Z) (data : list Loader.tuple) :
  (0 < batch_size)%Z ->
  Loader.data_tuples df = Ok data ->
  Loader.load_data accepts c df batch_size
  = if forallb accepts data
    then (clean_connection data, Loader.Returned true)
    else (clean_connection (Loader.working c),
          Loader.Failed Loader.DatabaseError).
Proof.
  intros Hpos Hdata. unfold Loader.load_data. cbv zeta. rewrite Hdata.
  destruct (batches_spec data batch_size Hpos) as (bs & -> & Hbs & _).
  rewrite insert_batches_spec, Hbs.
  by destruct (forallb accepts data).
Qed.

(** X26: with a positive batch size, load_data loads all the rows of the
    table or none.  When the database accepts every row, the zepto table
    ends up holding exactly the rows of the DataFrame, in their order,
    whatever it held before and whatever the batch size; when it rejects
    one, load_data raises and the table keeps the rows it had. *)
Theorem load_data_all_or_nothing (rows : list Loader.tuple) (df : frame)
    (batch_size : Z) (data : list Loader.tuple) :
  (0 < batch_size)%Z ->
  Loader.data_tuples df = Ok data ->
  Loader.load_data accepts (clean_connection rows) df batch_size
  = if forallb accepts data
    then (clean_connection data, Loader.Returned true)
    else (clean_connection rows, Loader.Failed Loader.DatabaseError).
Proof. intros Hpos Hdata. by rewrite (load_data_positive _ _ _ _ Hpos Hdata). Qed.

(** X27: the batch size is not checked.  With a batch size of 0 the
    loop raises ValueError and the table keeps its rows; with a negative
    batch size the loop does not run: load_data returns True and the
    table, which it has truncated, is left empty. *)
Theorem load_data_bad_batch_size (rows : list Loader.tuple) (df : frame)
    (batch_size : Z) (data : list Loader.tuple) :
  Loader.data_tuples df = Ok data ->
  (batch_size = 0%Z ->
   Loader.load_data accepts (clean_connection rows) df batch_size
   = (clean_connection rows, Loader.Failed (Loader.PythonError ValueError)))
  /\
  ((batch_size < 0)%Z ->
   Loader.load_data accepts (clean_connection rows) df batch_size
   = (clean_connection [], Loader.Returned true)).
Proof.
  intros Hdata. unfold Loader.load_data, Loader.batches, Loader.py_range.
  cbv zeta. rewrite Hdata. split.
  - by intros ->.
  - intros Hneg.
    destruct (Z.eqb_spec batch_size 0) as [? | _]; [lia |].
    destruct (Z.ltb_spec batch_size 0) as [_ | ?]; [| lia].
    reflexivity.
Qed.

Lemma get_cols_absent (names : list string) (df : frame) (n : string) :
  n ∈ names -> has_col n df = false -> Loader.get_cols names df = Raise KeyError.
Proof.
  intros Hn Hc. apply has_col_false in Hc.
  induction names as [| m names IH]; [by apply elem_of_nil in Hn |].
  cbn [Loader.get_cols]. unfold get_col at 1.
  destruct (assoc m (columns df)) as [s |] eqn:Hm; [| done].
  cbn [bind]. apply elem_of_cons in Hn as [-> | Hn]; [congruence |].
  by rewrite (IH Hn).
Qed.

(** X28: load_data needs the nine catalog columns.  On a table that
    lacks one of them it raises KeyError, after it has truncated the
    zepto table; the truncation is rolled back, so that the table keeps
    its rows. *)
Theorem load_data_missing_column (rows : list Loader.tuple) (df : frame)
    (batch_size : Z) (n : string) :
  n ∈ Loader.load_columns ->
  has_col n df = false ->
  Loader.load_data accepts (clean_connection rows) df batch_size
  = (clean_connection rows, Loader.Failed (Loader.PythonError KeyError)).
Proof.
  intros Hn Hc. unfold Loader.load_data, Loader.data_tuples. cbv zeta.
  by rewrite (get_cols_absent _ _ _ Hn Hc).
Qed.

End Load.

Lemma load_data_all_or_nothing_witness :
  Loader.load_data (fun _ => true) (clean_connection [[CNum (Fin 1)]])
    catalog_sample 2
  = (clean_connection (rows_sent catalog_sample), Loader.Returned true).
Proof.
  apply (load_data_all_or_nothing (fun _ => true) [[CNum (Fin 1)]]
           catalog_sample 2 (rows_sent catalog_sample));
    [lia | reflexivity].
Defined.

Lemma load_data_bad_batch_size_witness :
  Loader.load_data (fun _ => true) (clean_connection [[CNum (Fin 1)]])
    catalog_sample (-1)
  = (clean_connection [], Loader.Returned true).
Proof.
  apply (load_data_bad_batch_size (fun _ => true) [[CNum (Fin 1)]]
           catalog_sample (-1) (rows_sent catalog_sample));
    [reflexivity | lia].
Defined.

Lemma load_data_missing_column_witness :
  Loader.load_data (fun _ => true) (clean_connection [[CNum (Fin 1)]])
    sample_products 1000
  = (clean_connection [[CNum (Fin 1)]],
     Loader.Failed (Loader.PythonError KeyError)).
Proof.
  apply (load_data_missing_column (fun _ => true) [[CNum (Fin 1)]]
           sample_products 1000 "category");
    [by left | reflexivity].
Defined.

Lemma value_at_num (xs : list fval) (i : nat) :
  i < length xs -> Forall (fun x => isnan x = false) xs ->
  Loader.value_at (SNum xs) i <> CNum NaN.
Proof.
  intros Hi H. destruct (lookup_lt_is_Some_2 xs i Hi) as [x Hx].
  unfold Loader.value_at. rewrite Hx. simpl.
  rewrite Forall_lookup in H. specialize (H _ _ Hx). by destruct x.
Qed.

Lemma value_at_str (xs : list (option pystr)) (i : nat) :
  i < length xs -> Forall (fun x => exists t, x = Some t /\ stripped t) xs ->
  Loader.value_at (SStr xs) i <> CNum NaN.
Proof.
  intros Hi H. destruct (lookup_lt_is_Some_2 xs i Hi) as [x Hx].
  unfold Loader.value_at. rewrite Hx.
  rewrite Forall_lookup in H. by destruct (H _ _ Hx) as (t & -> & _).
Qed.

Lemma value_at_bool (xs : list (option bool)) (i : nat) :
  i < length xs -> Forall (fun x => exists b : bool, x = Some b) xs ->
  Loader.value_at (SBool xs) i <> CNum NaN.
Proof.
  intros Hi H. destruct (lookup_lt_is_Some_2 xs i Hi) as [x Hx].
  unfold Loader.value_at. rewrite Hx.
  rewrite Forall_lookup in H. by destruct (H _ _ Hx) as (b & ->).
Qed.

Lemma positive_present (xs : list fval) :
  Forall (fun x => fgt x (Fin 0) = true) xs ->
  Forall (fun x => isnan x = false) xs.
Proof.
  intros H. eapply Forall_impl; [exact H |]. intros x Hx. by destruct x.
Qed.

(** The rows that a normalized table sends to the database: one for each
    of its rows, with no missing cell. *)
Lemma normalized_data_tuples (df : frame) :
  normalized df ->
  exists data,
    Loader.data_tuples df = Ok data /\
    length data = nrows df /\
    Forall (Forall (fun c => c <> CNum NaN)) data.
Proof.
  intros (Hwf & _ &
          cat & name & mrp & dp & aq & dsp & w & oos & q &
          [Hcat Pcat] & [Hname Pname] & [Hmrp Pmrp] & [Hdp Pdp] &
          [Haq Paq] & [Hdsp Pdsp] & [Hw Pw] & [Hoos Poos] & [Hq Pq]).
  pose proof (wf_assoc _ _ _ Hwf Hcat) as Lcat.
  pose proof (wf_assoc _ _ _ Hwf Hname) as Lname.
  pose proof (wf_assoc _ _ _ Hwf Hmrp) as Lmrp.
  pose proof (wf_assoc _ _ _ Hwf Hdp) as Ldp.
  pose proof (wf_assoc _ _ _ Hwf Haq) as Laq.
  pose proof (wf_assoc _ _ _ Hwf Hdsp) as Ldsp.
  pose proof (wf_assoc _ _ _ Hwf Hw) as Lw.
  pose proof (wf_assoc _ _ _ Hwf Hoos) as Loos.
  pose proof (wf_assoc _ _ _ Hwf Hq) as Lq.
  cbn [slen] in *.
  unfold Loader.data_tuples, Loader.load_columns. cbn [Loader.get_cols].
  rewrite (get_col_assoc _ _ _ Hcat), (get_col_assoc _ _ _ Hname),
    (get_col_assoc _ _ _ Hmrp), (get_col_assoc _ _ _ Hdp),
    (get_col_assoc _ _ _ Haq), (get_col_assoc _ _ _ Hdsp),
    (get_col_assoc _ _ _ Hw), (get_col_assoc _ _ _ Hoos),
    (get_col_assoc _ _ _ Hq).
  cbn [bind]. eexists. split; [reflexivity |]. split.
  - by rewrite length_fmap, length_seq.
  - apply Forall_fmap, Forall_forall. intros i Hi.
    apply elem_of_seq in Hi as [_ Hi]. simpl in Hi. cbn [fmap list_fmap].
    assert (Forall (fun x => isnan x = false) dp) as Pdp'.
    { eapply Forall_impl; [exact Pdp |]. intros x [Hx _]. by destruct x. }
    repeat apply Forall_cons_2; try apply Forall_nil_2.
    + apply value_at_str; [lia | done].
    + apply value_at_str; [lia | done].
    + apply value_at_num; [lia | by apply positive_present].
    + apply value_at_num; [lia | done].
    + apply value_at_num; [lia | done].
    + apply value_at_num; [lia | by apply positive_present].
    + apply value_at_num; [lia | done].
    + apply value_at_bool; [lia | done].
    + apply value_at_num; [lia | done].
Qed.

Section NormalizerLoads.
Variable float_str : fval -> pystr.
Variable parse_float : pystr -> fval.
Variable accepts : Loader.tuple -> bool.

(** X29: the loader takes what the normalizer returns.  For the output
    of transform_data and a positive batch size, load_data raises no
    Python exception: it sends one row for each row of the table, none
    with a missing cell, and either the database accepts them all and
    the zepto table holds exactly these rows, or it rejects one and the
    table keeps the rows it had. *)
Theorem normalizer_output_loads (raw out : frame)
    (rows : list Loader.tuple) (batch_size : Z) :
  wf_frame raw ->
  transform_data float_str parse_float raw = Ok out ->
  (0 < batch_size)%Z ->
  exists data,
    Loader.data_tuples out = Ok data /\
    length data = nrows out /\
    Forall (Forall (fun c => c <> CNum NaN)) data /\
    Loader.load_data accepts (clean_connection rows) out batch_size
    = if forallb accepts data
      then (clean_connection data, Loader.Returned true)
      else (clean_connection rows, Loader.Failed Loader.DatabaseError).
Proof.
  intros Hwf H Hpos.
  pose proof (transform_data_normalized float_str parse_float _ _ Hwf H)
    as Hnorm.
  destruct (normalized_data_tuples _ Hnorm) as (data & Hdata & Hlen & Hfull).
  exists data. repeat split; try done.
  by rewrite (load_data_positive accepts _ _ _ _ Hpos Hdata).
Qed.

End NormalizerLoads.

Lemma normalizer_output_loads_witness :
  exists out data,
    transform_data (fun _ => []) (fun _ => NaN) raw_sample = Ok out /\
    Loader.data_tuples out = Ok data /\
    length data = nrows out /\
    Forall (Forall (fun c => c <> CNum NaN)) data /\
    Loader.load_data (fun _ => true) (clean_connection []) out 1000
    = if forallb (fun _ => true) data
      then (clean_connection data, Loader.Returned true)
      else (clean_connection [], Loader.Failed Loader.DatabaseError).
Proof.
  eexists.
  assert (transform_data (fun _ => []) (fun _ => NaN) raw_sample = Ok _) as E
    by (vm_compute; reflexivity).
  destruct (normalizer_output_loads (fun _ => []) (fun _ => NaN)
              (fun _ => true) raw_sample _ [] 1000
              ltac:(repeat constructor) E ltac:(lia))
    as (data & H1 & H2 & H3 & H4).
  exists data. by repeat split.
Defined.
